(** * Franchisee enrichment engine: a shallow embedding and its properties

    The development follows the two pipelines of the repository:

    - [Agentic]    : src/agentic_enrichment_pipeline.py (the graph of nodes
                     classify, plan, execute, validate-and-score, resolve,
                     finalize, and the batch driver);
    - [Production] : src/enrichment_pipeline_production.py together with
                     src/config.py (classifier, task execution with retries,
                     field merge, scores, batch driver, settings validation).

    Modelling conventions.
    - Python [str] is [string]; the text handled is taken to be ASCII, so
      [upper] only moves the letters a-z and [split] separates on the ASCII
      white space of [str.isspace].
    - Python [float] is [Q]: the arithmetic is exact, and [round(x, 3)] is
      rounding of the rational to the nearest thousandth, ties to even.
    - A Python [dict] is an association list in insertion order.
    - An exception is a value of [exn]; code that can raise returns
      [result].
    - [list(set(values))] iterates in an order fixed by string hashes; the
      order is a parameter [set_order] of the functions that depend on it.
    - The source operations are parameters of the engine, so that a source
      can fail or answer with any confidence; the simulated sources of the
      repository are instances.
    - The compiled graph is the composition of its nodes along its edges,
      each node receiving the keys of the state schema as the previous
      one returned them; a key the schema does not declare ([conflicts])
      is read by the conditional edge that follows the node but does not
      reach the next node.
    - Where the rounding of a float sum could decide a comparison (0.7 +
      0.1 against 0.8), the theorems state bounds that hold for both.
    - Clock readings are parameters. *)

From Stdlib Require Import String Ascii List ZArith QArith Qminmax Qround.
From Stdlib Require Import Lia Lqa Bool Arith Permutation DecimalString.
Import ListNotations.

Open Scope string_scope.
Open Scope list_scope.

(* ================================================================== *)
(** ** Python primitives *)
(* ================================================================== *)

Module Py.

(** [str.isspace] on ASCII: TAB..CR, FS..US and the blank. *)
Definition is_space (c : ascii) : bool :=
  let n := nat_of_ascii c in
  ((9 <=? n) && (n <=? 13) || (28 <=? n) && (n <=? 32))%nat.

Definition upper_char (c : ascii) : ascii :=
  let n := nat_of_ascii c in
  if ((97 <=? n) && (n <=? 122))%nat then ascii_of_nat (n - 32) else c.

Definition lower_char (c : ascii) : ascii :=
  let n := nat_of_ascii c in
  if ((65 <=? n) && (n <=? 90))%nat then ascii_of_nat (n + 32) else c.

Fixpoint str_map (f : ascii -> ascii) (s : string) : string :=
  match s with
  | EmptyString => EmptyString
  | String c s' => String (f c) (str_map f s')
  end.

(** [s.upper()] *)
Definition upper : string -> string := str_map upper_char.

(** [needle in hay] *)
Fixpoint str_in (needle hay : string) : bool :=
  if String.prefix needle hay then true
  else match hay with
       | EmptyString => false
       | String _ hay' => str_in needle hay'
       end.

(** [s.startswith(p)] *)
Definition startswith (s p : string) : bool := String.prefix p s.

Fixpoint rev_string (acc s : string) : string :=
  match s with
  | EmptyString => acc
  | String c s' => rev_string (String c acc) s'
  end.

(** [s.split()]: maximal runs of non-space characters. [cur] holds the
    current token, reversed. *)
Fixpoint split_from (cur s : string) : list string :=
  match s with
  | EmptyString =>
      match cur with
      | EmptyString => []
      | _ => [rev_string EmptyString cur]
      end
  | String c s' =>
      if is_space c then
        match cur with
        | EmptyString => split_from EmptyString s'
        | _ => rev_string EmptyString cur :: split_from EmptyString s'
        end
      else split_from (String c cur) s'
  end.

Definition split (s : string) : list string := split_from EmptyString s.

(** [s.lower()] *)
Definition lower : string -> string := str_map lower_char.

(** [s.replace(old, new)] for a non-empty [old]: [skip] counts the
    characters of a match still to be dropped. *)
Fixpoint replace_from (skip : nat) (old new s : string) : string :=
  match s with
  | EmptyString => EmptyString
  | String c s' =>
      match skip with
      | S k => replace_from k old new s'
      | O =>
          if String.prefix old s
          then (new ++ replace_from (String.length old - 1) old new s')%string
          else String c (replace_from O old new s')
      end
  end.

Definition replace (old new s : string) : string := replace_from O old new s.

Fixpoint lstrip (s : string) : string :=
  match s with
  | String c s' => if is_space c then lstrip s' else s
  | EmptyString => EmptyString
  end.

(** [s.strip()] *)
Definition strip (s : string) : string :=
  rev_string EmptyString (lstrip (rev_string EmptyString (lstrip s))).

(** [s[:n]] *)
Definition take (n : nat) (s : string) : string := String.substring 0 n s.

(** [sep.join(l)] *)
Fixpoint join (sep : string) (l : list string) : string :=
  match l with
  | [] => EmptyString
  | [x] => x
  | x :: l' => (x ++ sep ++ join sep l')%string
  end.

(** Truth value of a string: non-empty. *)
Definition truthy (s : string) : bool :=
  match s with EmptyString => false | _ => true end.

(** [sum(1 for p in pats if p in s)] *)
Definition count_in (pats : list string) (s : string) : nat :=
  List.length (filter (fun p => str_in p s) pats).

Definition str_of_nat (n : nat) : string :=
  NilEmpty.string_of_uint (Nat.to_uint n).

Definition mem (x : string) (l : list string) : bool :=
  existsb (String.eqb x) l.

(** [l.index(x)], [None] standing for ValueError. *)
Fixpoint index_of (x : string) (l : list string) : option nat :=
  match l with
  | [] => None
  | y :: l' => if String.eqb y x then Some O
               else option_map S (index_of x l')
  end.

(** *** Dictionaries *)

Definition dict (V : Type) : Type := list (string * V).

Fixpoint get {V} (k : string) (d : dict V) : option V :=
  match d with
  | [] => None
  | (k', v) :: d' => if String.eqb k' k then Some v else get k d'
  end.

Definition has {V} (k : string) (d : dict V) : bool :=
  match get k d with Some _ => true | None => false end.

(** The value under [k], where present, becomes [g] of it. *)
Definition update {V} (k : string) (g : V -> V) (d : dict V) : dict V :=
  map (fun kv => if String.eqb (fst kv) k then (fst kv, g (snd kv)) else kv) d.

(** [d[k] = v]: an existing key keeps its place, a new one goes last. *)
Definition set {V} (k : string) (v : V) (d : dict V) : dict V :=
  if has k d then update k (fun _ => v) d else d ++ [(k, v)].

Definition keys {V} (d : dict V) : list string := map fst d.

(** *** Numbers *)

Definition Qsum (l : list Q) : Q := fold_left Qplus l 0%Q.

Definition Qlen {A} (l : list A) : Q := inject_Z (Z.of_nat (List.length l)).

(** Nearest integer, ties to even. *)
Definition round_half_even (q : Q) : Z :=
  let f := Qfloor q in
  let d := (q - inject_Z f)%Q in
  match Qcompare d (1 # 2) with
  | Lt => f
  | Gt => (f + 1)%Z
  | Eq => if Z.even f then f else (f + 1)%Z
  end.

(** [round(x, 3)] *)
Definition round3 (q : Q) : Q :=
  (inject_Z (round_half_even (q * 1000)) / 1000)%Q.

End Py.

(** Exceptions the modelled code can raise. *)
Inductive exn : Type :=
| KeyError (key : string)
| IndexError
| ZeroDivisionError
| ValueError (msg : string)
| TypeError (msg : string)
| RuntimeError (msg : string).

Definition result (A : Type) : Type := (A + exn)%type.

Definition ok {A} (a : A) : result A := inl a.
Definition raise {A} (e : exn) : result A := inr e.

Definition bind {A B} (m : result A) (k : A -> result B) : result B :=
  match m with
  | inl a => k a
  | inr e => inr e
  end.

Notation "x <- m ;; k" := (bind m (fun x => k))
  (at level 61, m at next level, right associativity).

(** [str(e)] for the message put into a degraded record. *)
Definition exn_message (e : exn) : string :=
  match e with
  | KeyError k => ("'" ++ k ++ "'")%string
  | IndexError => "list index out of range"
  | ZeroDivisionError => "float division by zero"
  | ValueError m => m
  | TypeError m => m
  | RuntimeError m => m
  end.

Inductive EntityType : Type := business | individual.

Definition EntityType_str (t : EntityType) : string :=
  match t with business => "business" | individual => "individual" end.

(** The input row, after the column mapping of the loaders. *)
Record FranchiseeRecord : Type := mkRecord {
  fdd : string;
  fdd_store_no : string;
  fdd_location_name : string;
  franchisee : string;
  fdd_contact_name : string;
  address : string;
  city : string;
  state : string;
  zip : string;
  phone : string
}.

Definition record_items (r : FranchiseeRecord) : Py.dict string :=
  [ ("fdd", fdd r); ("fdd_store_no", fdd_store_no r);
    ("fdd_location_name", fdd_location_name r); ("franchisee", franchisee r);
    ("fdd_contact_name", fdd_contact_name r); ("address", address r);
    ("city", city r); ("state", state r); ("zip", zip r); ("phone", phone r) ].

(** [{**a, **b}] *)
Definition dict_merge {V} (a b : Py.dict V) : Py.dict V :=
  fold_left (fun d kv => Py.set (fst kv) (snd kv) d) b a.

(* ================================================================== *)
(** ** The agentic pipeline (agentic_enrichment_pipeline.py) *)
(* ================================================================== *)

Module Agentic.
Import Py.

Record Classification : Type := mkClassification {
  cls_type : EntityType;
  cls_confidence : Q;
  cls_reasoning : string;
  cls_business_indicators : nat;
  cls_individual_indicators : nat
}.

Record Strategy : Type := mkStrategy {
  primary_sources : list string;
  fallback_sources : list string;
  confidence_threshold : Q;
  max_sources : nat;
  strategy_reasoning : string
}.

(** What a source returns: a field map and, possibly, the key
    [source_confidence]. *)
Record SourceData : Type := mkSourceData {
  sd_fields : dict string;
  sd_confidence : option Q
}.

(** An entry of [enrichment_results]:
    [{**result, "source": source, "priority": priority}]. *)
Record Result : Type := mkResult {
  r_fields : dict string;
  r_source_confidence : option Q;
  r_source : string;
  r_priority : string
}.

Record QualityMetrics : Type := mkQualityMetrics {
  data_consistency : Q;
  source_diversity : nat;
  field_completeness : Q;
  confidence_stability : Q
}.

Record Conflict : Type := mkConflict {
  c_values : list string;
  c_sources : list string
}.

Record FinalResult : Type := mkFinalResult {
  fr_fields : dict string;           (* {**record, **final_data} *)
  fr_agent_confidence : Q;
  fr_enrichment_strategy_used : string;
  fr_data_sources_consulted : nat;
  fr_agent_reasoning : string;
  fr_quality_score : Q;
  fr_url_sources : string
}.

(** [EnrichmentState]; a key holding [{}] or not yet set is [None]. *)
Record EnrichmentState : Type := mkState {
  record : FranchiseeRecord;
  entity_classification : option Classification;
  enrichment_strategy : option Strategy;
  data_sources_attempted : list string;
  enrichment_results : list Result;
  confidence_scores : list Q;
  quality_metrics : option QualityMetrics;
  conflicts : option (dict Conflict);
  final_result : option FinalResult;
  error_state : option string
}.

Definition initial_state (r : FranchiseeRecord) : EnrichmentState :=
  mkState r None None [] [] [] None None None None.

Definition with_classification (c : Classification) (st : EnrichmentState) :=
  mkState (record st) (Some c) (enrichment_strategy st)
          (data_sources_attempted st) (enrichment_results st)
          (confidence_scores st) (quality_metrics st) (conflicts st)
          (final_result st) (error_state st).

Definition with_strategy (s : Strategy) (st : EnrichmentState) :=
  mkState (record st) (entity_classification st) (Some s) [] [] []
          (quality_metrics st) (conflicts st) (final_result st)
          (error_state st).

Definition with_source_result (r : Result) (c : Q) (st : EnrichmentState) :=
  mkState (record st) (entity_classification st) (enrichment_strategy st)
          (data_sources_attempted st ++ [r_source r])
          (enrichment_results st ++ [r])
          (confidence_scores st ++ [c])
          (quality_metrics st) (conflicts st) (final_result st)
          (error_state st).

Definition with_scores (q : QualityMetrics) (c : dict Conflict)
           (st : EnrichmentState) :=
  mkState (record st) (entity_classification st) (enrichment_strategy st)
          (data_sources_attempted st) (enrichment_results st)
          (confidence_scores st) (Some q) (Some c) (final_result st)
          (error_state st).

Definition with_results (rs : list Result) (st : EnrichmentState) :=
  mkState (record st) (entity_classification st) (enrichment_strategy st)
          (data_sources_attempted st) rs
          (confidence_scores st) (quality_metrics st) (conflicts st)
          (final_result st) (error_state st).

Definition with_final_result (f : FinalResult) (st : EnrichmentState) :=
  mkState (record st) (entity_classification st) (enrichment_strategy st)
          (data_sources_attempted st) (enrichment_results st)
          (confidence_scores st) (quality_metrics st) (conflicts st)
          (Some f) (error_state st).

(** *** classify_entity *)

Definition business_indicators : list string :=
  ["LLC"; "INC"; "CORP"; "LTD"; "LP"; "COMPANY"; "ENTERPRISES"].

Definition individual_patterns : list string := [","; "JR"; "SR"; "III"].

Definition classify (franchisee_name : string) : Classification :=
  let business_score := count_in business_indicators (upper franchisee_name) in
  let individual_score := count_in individual_patterns franchisee_name in
  let has_comma := str_in "," franchisee_name in
  let word_count := List.length (split franchisee_name) in
  if (0 <? business_score)%nat then
    mkClassification business
      (Qmin 0.95 (0.7 + inject_Z (Z.of_nat business_score) * 0.1))
      ("Business entity detected: " ++ str_of_nat business_score
         ++ " business indicators found")%string
      business_score individual_score
  else if has_comma && (word_count =? 2)%nat then
    mkClassification individual 0.9
      "Individual detected: 'Last, First' format"
      business_score individual_score
  else if (word_count =? 2)%nat && (business_score =? 0)%nat then
    mkClassification individual 0.8
      "Individual detected: Two-word name, no business indicators"
      business_score individual_score
  else
    mkClassification business 0.6
      "Default to business: Ambiguous case"
      business_score individual_score.

Definition _classify_entity_node (st : EnrichmentState) : EnrichmentState :=
  with_classification (classify (franchisee (record st))) st.

(** *** plan_enrichment *)

Definition plan (c : Classification) (r : FranchiseeRecord) : Strategy :=
  match cls_type c with
  | business =>
      if String.eqb (upper (state r)) "TX" then
        mkStrategy ["business_registry"; "google_places"]
                   ["corporate_database"; "linkedin_company"]
                   0.8 4 "Texas business registry provides high-quality data"
      else
        mkStrategy ["business_registry"; "google_places"]
                   ["corporate_database"; "linkedin_company"]
                   0.7 4 "Standard business enrichment strategy"
  | individual =>
      mkStrategy ["linkedin_individual"; "google_search"]
                 ["people_search"; "social_media"]
                 0.7 4 "Individual-focused enrichment strategy"
  end.

Definition _plan_enrichment_strategy (st : EnrichmentState)
  : result EnrichmentState :=
  match entity_classification st with
  | None => raise (KeyError "type")
  | Some c => ok (with_strategy (plan c (record st)) st)
  end.

Definition _route_enrichment_strategy (st : EnrichmentState)
  : result EntityType :=
  match entity_classification st with
  | None => raise (KeyError "type")
  | Some c => ok (cls_type c)
  end.

(** *** The simulated sources *)

Definition full_address (prefix : string) (r : FranchiseeRecord) : string :=
  (prefix ++ address r ++ ", " ++ city r ++ ", " ++ state r ++ " " ++ zip r)%string.

Definition _call_enrichment_source (source : string) (r : FranchiseeRecord)
           (entity_type : EntityType) : SourceData :=
  let franchisee_name := franchisee r in
  if String.eqb source "business_registry" then
    mkSourceData
      [ ("corporate_name", franchisee_name);
        ("corporate_address", full_address "Registered: " r);
        ("franchisee_owner",
          strip (replace " Inc" "" (replace " LLC" "" franchisee_name))) ]
      (Some 0.9)
  else if String.eqb source "google_places" then
    mkSourceData
      [ ("corporate_phone", phone r);
        ("corporate_address", full_address "Verified: " r);
        ("corporate_email",
          ("info@" ++ take 8 (replace "," "" (replace " " "" (lower franchisee_name)))
                   ++ ".com")%string) ]
      (Some 0.8)
  else if String.eqb source "corporate_database" then
    mkSourceData
      [ ("corporate_name", franchisee_name);
        ("linkedin",
          ("https://www.linkedin.com/company/"
             ++ replace "," "" (replace " " "-" (lower franchisee_name)))%string) ]
      (Some 0.7)
  else mkSourceData [] None.

Definition _call_individual_enrichment_source (source : string)
           (r : FranchiseeRecord) (first_name last_name : string) : SourceData :=
  if String.eqb source "linkedin_individual" then
    mkSourceData
      [ ("franchisee_owner", (first_name ++ " " ++ last_name)%string);
        ("linkedin",
          ("https://www.linkedin.com/in/"
             ++ replace " " "-" (lower first_name ++ "-" ++ lower last_name))%string) ]
      (Some 0.85)
  else if String.eqb source "google_search" then
    mkSourceData
      [ ("franchisee_owner", (first_name ++ " " ++ last_name)%string);
        ("corporate_address", full_address "" r) ]
      (Some 0.75)
  else mkSourceData [] None.

(** [name.split(',', 1)] when the name has a comma: the text before the
    first comma and the text after it. *)
Fixpoint split_comma (s : string) : string * string :=
  match s with
  | EmptyString => (EmptyString, EmptyString)
  | String c s' =>
      if Ascii.eqb c ","%char then (EmptyString, s')
      else let '(a, b) := split_comma s' in (String c a, b)
  end.

(** The name parsing at the head of [_execute_individual_enrichment]:
    [(first_name, last_name)]. *)
Definition parse_name (franchisee_name : string) : string * string :=
  if str_in "," franchisee_name then
    let '(p0, p1) := split_comma franchisee_name in
    (match split (strip p1) with w :: _ => w | [] => EmptyString end, strip p0)
  else
    match split franchisee_name with
    | [] => (EmptyString, EmptyString)
    | w :: ws => (w, join " " ws)
    end.

Definition Qltb (a b : Q) : bool := negb (Qle_bool b a).

(** [sum(l) / len(l) if l else 0] *)
Definition average (l : list Q) : Q :=
  match l with
  | [] => 0
  | _ => Qsum l / Qlen l
  end.

(** A returned dict is kept when it is non-empty. *)
Definition truthy_data (d : SourceData) : bool :=
  match sd_fields d, sd_confidence d with
  | [], None => false
  | _, _ => true
  end.

Definition confidence_or (default : Q) (d : SourceData) : Q :=
  match sd_confidence d with Some c => c | None => default end.

(** The loop [for source in sources: result = await call(source); ...].
    The first component lists the sources that were called, in order; an
    exception of a call leaves the loop and the node. *)
Fixpoint run_sources (call : string -> result SourceData)
         (priority : string) (default : Q) (sources : list string)
         (st : EnrichmentState) : list string * result EnrichmentState :=
  match sources with
  | [] => ([], ok st)
  | source :: rest =>
      match call source with
      | inr e => ([source], raise e)
      | inl res =>
          let st' :=
            if truthy_data res
            then with_source_result
                   (mkResult (sd_fields res) (sd_confidence res) source priority)
                   (confidence_or default res) st
            else st in
          let '(called, out) := run_sources call priority default rest st' in
          (source :: called, out)
      end
  end.

Section Engine.

(** The source operations, which may fail. *)
Variable call_enrichment_source :
  string -> FranchiseeRecord -> EntityType -> result SourceData.
Variable call_individual_enrichment_source :
  string -> FranchiseeRecord -> string -> string -> result SourceData.

(** Iteration order of [list(set(values))]. *)
Variable set_order : list string -> list string.

Definition _execute_business_enrichment (st : EnrichmentState)
  : list string * result EnrichmentState :=
  match enrichment_strategy st with
  | None => ([], raise (KeyError "primary_sources"))
  | Some strategy =>
      let call := fun source =>
        call_enrichment_source source (record st) business in
      match run_sources call "primary" 0.7 (primary_sources strategy) st with
      | (called, inr e) => (called, inr e)
      | (called, inl st1) =>
          let avg_confidence := average (confidence_scores st1) in
          if Qltb avg_confidence (confidence_threshold strategy) then
            let '(called2, out) :=
              run_sources call "fallback" 0.6 (fallback_sources strategy) st1 in
            (called ++ called2, out)
          else (called, ok st1)
      end
  end.

Definition _execute_individual_enrichment (st : EnrichmentState)
  : list string * result EnrichmentState :=
  match enrichment_strategy st with
  | None => ([], raise (KeyError "primary_sources"))
  | Some strategy =>
      let '(first_name, last_name) := parse_name (franchisee (record st)) in
      let call := fun source =>
        call_individual_enrichment_source source (record st)
                                           first_name last_name in
      run_sources call "primary" 0.8 (primary_sources strategy) st
  end.

(** *** validate_and_score *)

Definition reserved : list string := ["source"; "priority"; "source_confidence"].

(** [if field not in d: d[field] = []] followed by [d[field].append(x)] *)
Definition setdefault_append (field x : string) (d : dict (list string))
  : dict (list string) :=
  if has field d
  then update field (fun l => l ++ [x]) d
  else d ++ [(field, [x])].

Definition contributes (fv : string * string) : bool :=
  negb (mem (fst fv) reserved) && truthy (snd fv).

(** The pair [(aggregated_data, field_sources)] after one result. *)
Definition aggregate_result (acc : dict (list string) * dict (list string))
           (r : Result) : dict (list string) * dict (list string) :=
  fold_left
    (fun acc fv =>
       if contributes fv
       then (setdefault_append (fst fv) (snd fv) (fst acc),
             setdefault_append (fst fv) (r_source r) (snd acc))
       else acc)
    (r_fields r) acc.

Definition aggregate (results : list Result)
  : dict (list string) * dict (list string) :=
  fold_left aggregate_result results ([], []).

Definition aggregated_data (results : list Result) : dict (list string) :=
  fst (aggregate results).

Definition field_sources (results : list Result) : dict (list string) :=
  snd (aggregate results).

Definition distinct (values : list string) : list string :=
  nodup string_dec values.

Definition field_consistency (values : list string) : Q :=
  let unique_values := Z.of_nat (List.length (distinct values)) in
  let total_values := Z.of_nat (List.length values) in
  1 - inject_Z (unique_values - 1) / inject_Z (Z.max 1 (total_values - 1)).

Definition _calculate_consistency_score (aggregated_data : dict (list string)) : Q :=
  match aggregated_data with
  | [] => 0
  | _ =>
      let consistency_scores :=
        map (fun kv => field_consistency (snd kv)) aggregated_data in
      Qsum consistency_scores / Qlen consistency_scores
  end.

Fixpoint Qlist_min (x : Q) (l : list Q) : Q :=
  match l with [] => x | y :: l' => Qlist_min (Qmin x y) l' end.

Fixpoint Qlist_max (x : Q) (l : list Q) : Q :=
  match l with [] => x | y :: l' => Qlist_max (Qmax x y) l' end.

(** [min(l) / max(l) if l else 0] *)
Definition stability (scores : list Q) : result Q :=
  match scores with
  | [] => ok 0
  | x :: l =>
      if Qeq_bool (Qlist_max x l) 0 then raise ZeroDivisionError
      else ok (Qlist_min x l / Qlist_max x l)
  end.

(** The conflict dict: fields with more than one distinct value, each
    with the distinct values in set order and ALL the field's source
    labels in arrival order. *)
Definition find_conflicts (agg fs : dict (list string)) : dict Conflict :=
  fold_left
    (fun conflicts kv =>
       let unique_values := set_order (snd kv) in
       if (1 <? List.length unique_values)%nat
       then set (fst kv)
                (mkConflict unique_values
                   (match get (fst kv) fs with Some l => l | None => [] end))
                conflicts
       else conflicts)
    agg [].

Definition _validate_and_score_results (st : EnrichmentState)
  : result EnrichmentState :=
  let results := enrichment_results st in
  let agg := aggregated_data results in
  let fs := field_sources results in
  cs <- stability (confidence_scores st) ;;
  let quality := mkQualityMetrics
    (_calculate_consistency_score agg)
    (List.length (distinct (data_sources_attempted st)))
    (Qlen agg / 6)
    cs in
  ok (with_scores quality (find_conflicts agg fs) st).

Definition _check_conflicts (st : EnrichmentState) : bool :=
  match conflicts st with
  | Some (_ :: _) => true
  | _ => false
  end.

(** *** resolve_conflicts *)

(** [max(values, key=len)]: the first of the longest. *)
Fixpoint max_by_len (best : string) (l : list string) : string :=
  match l with
  | [] => best
  | v :: l' =>
      max_by_len (if (String.length best <? String.length v)%nat
                  then v else best) l'
  end.

Definition verified (v : string) : bool := str_in "Verified:" v.

(** The body of the loop for one field. ["Verified:" in str(values)]
    holds exactly when one of the strings holds the marker: the marker
    has no quote, comma, blank or backslash, so it cannot lie across two
    elements of the printed list or inside an escape. *)
Definition resolve_conflict (values sources : list string) : result string :=
  if mem "business_registry" sources then
    match index_of "business_registry" sources with
    | Some registry_idx =>
        match nth_error values registry_idx with
        | Some v => ok v
        | None => raise IndexError
        end
    | None => raise (ValueError "'business_registry' is not in list")
    end
  else if existsb verified values then
    match filter verified values with
    | v :: _ => ok v
    | [] => raise IndexError
    end
  else
    match values with
    | v0 :: v1 :: _ =>
        if (String.length v1 <? String.length v0)%nat
        then ok (max_by_len v0 (tl values))
        else ok v0
    | _ => raise IndexError
    end.

Fixpoint resolve_all (cs : dict Conflict) (resolved_data : dict string)
  : result (dict string) :=
  match cs with
  | [] => ok resolved_data
  | (field, conflict_info) :: rest =>
      v <- resolve_conflict (c_values conflict_info) (c_sources conflict_info) ;;
      resolve_all rest (set field v resolved_data)
  end.

(** [for field, v in resolved_data.items(): if field in result:
    result[field] = v]. The keys come from [aggregated_data], which
    never holds a reserved key, so only the field map is touched. *)
Definition apply_resolved (resolved_data fields : dict string) : dict string :=
  fold_left (fun d fv => if has (fst fv) d then set (fst fv) (snd fv) d else d)
            resolved_data fields.

Definition update_result (resolved_data : dict string) (r : Result) : Result :=
  mkResult (apply_resolved resolved_data (r_fields r))
           (r_source_confidence r) (r_source r) (r_priority r).

Definition _resolve_data_conflicts (st : EnrichmentState)
  : result EnrichmentState :=
  let conflicts := match conflicts st with Some c => c | None => [] end in
  resolved_data <- resolve_all conflicts [] ;;
  ok (with_results (map (update_result resolved_data) (enrichment_results st)) st).

(** *** finalize_result *)

Definition merge_first (final_data : dict string) (r : Result) : dict string :=
  fold_left
    (fun fd fv =>
       if contributes fv && negb (has (fst fv) fd)
       then set (fst fv) (snd fv) fd else fd)
    (r_fields r) final_data.

Definition final_data_of (results : list Result) : dict string :=
  fold_left merge_first results [].

Definition two_digits (n : nat) : string :=
  if (n <? 10)%nat then ("0" ++ str_of_nat n)%string else str_of_nat n.

(** [f"{q:.2f}"] for a non-negative number. *)
Definition fmt2 (q : Q) : string :=
  let n := Z.to_nat (round_half_even (q * 100)) in
  (str_of_nat (n / 100) ++ "." ++ two_digits (n mod 100))%string.

Definition agent_confidence_of (c : Classification) (q : QualityMetrics) : Q :=
  cls_confidence c * 0.3
  + data_consistency q * 0.3
  + field_completeness q * 0.2
  + Qmin 1 (inject_Z (Z.of_nat (source_diversity q)) / 3) * 0.2.

Definition quality_sum (q : QualityMetrics) : Q :=
  data_consistency q + inject_Z (Z.of_nat (source_diversity q))
  + field_completeness q + confidence_stability q.

Definition _finalize_enrichment_result (st : EnrichmentState)
  : result EnrichmentState :=
  match quality_metrics st with
  | None => raise (KeyError "data_consistency")
  | Some quality_metrics =>
  match entity_classification st with
  | None => raise (KeyError "confidence")
  | Some classification =>
  match enrichment_strategy st with
  | None => raise (KeyError "reasoning")
  | Some strategy =>
      let results := enrichment_results st in
      let final_data := final_data_of results in
      let source_urls := map r_source results in
      let agent_confidence := agent_confidence_of classification quality_metrics in
      let reasoning_parts :=
        [ ("Entity: " ++ EntityType_str (cls_type classification)
             ++ " (" ++ fmt2 (cls_confidence classification) ++ ")")%string;
          ("Sources: " ++ str_of_nat (List.length (data_sources_attempted st)))%string;
          ("Consistency: " ++ fmt2 (data_consistency quality_metrics))%string;
          ("Completeness: " ++ fmt2 (field_completeness quality_metrics))%string ] in
      ok (with_final_result
            (mkFinalResult
               (dict_merge (record_items (record st)) final_data)
               (round3 agent_confidence)
               (strategy_reasoning strategy)
               (List.length (data_sources_attempted st))
               (join "; " reasoning_parts)
               (round3 (quality_sum quality_metrics / 4))
               (join "; " source_urls))
            st)
  end end end.

(** The state a node is handed: the keys the [EnrichmentState] schema
    declares. [conflicts] is none of them, so what a node stores under
    it is not written to the graph's channels. *)
Definition declared_keys (st : EnrichmentState) : EnrichmentState :=
  mkState (record st) (entity_classification st) (enrichment_strategy st)
          (data_sources_attempted st) (enrichment_results st)
          (confidence_scores st) (quality_metrics st) None
          (final_result st) (error_state st).

(** *** The compiled graph: classify, plan, route, execute, validate,
    resolve when conflicts were found, finalize. The conditional edge
    after validate reads the state as validate returned it; the node it
    picks is handed the declared keys only, so the resolve node, when
    entered, finds no conflicts and rewrites nothing. *)
Definition workflow (st0 : EnrichmentState) : result EnrichmentState :=
  let st1 := _classify_entity_node st0 in
  st2 <- _plan_enrichment_strategy st1 ;;
  route <- _route_enrichment_strategy st2 ;;
  st3 <- snd (match route with
              | business => _execute_business_enrichment st2
              | individual => _execute_individual_enrichment st2
              end) ;;
  st4 <- _validate_and_score_results st3 ;;
  st5 <- (if _check_conflicts st4
          then _resolve_data_conflicts (declared_keys st4)
          else ok (declared_keys st4)) ;;
  _finalize_enrichment_result st5.

(** *** process_records_agentic *)

Record AgenticEnrichmentResult : Type := mkAgenticResult {
  ar_fields : dict string;        (* original and enriched text fields *)
  ar_url_sources : string;
  agent_confidence : Q;
  enrichment_strategy_used : string;
  data_sources_consulted : nat;
  agent_reasoning : string;
  workflow_execution_time : Q;
  quality_score : Q;
  processing_timestamp : string;
  pipeline_version : string
}.

(** Keyword arguments the dataclass takes from [{**record, **final_data}]. *)
Definition text_fields : list string :=
  [ "fdd"; "fdd_store_no"; "fdd_location_name"; "franchisee";
    "fdd_contact_name"; "address"; "city"; "state"; "zip"; "phone";
    "franchisee_owner"; "corporate_name"; "corporate_address";
    "corporate_phone"; "corporate_email"; "linkedin"; "pipeline_version" ].

(** Keys of [final_data] that the later entries of [final_result] replace. *)
Definition overridden : list string :=
  [ "agent_confidence"; "enrichment_strategy_used"; "data_sources_consulted";
    "agent_reasoning"; "quality_score"; "url_sources" ].

(** The dataclass constructor applied to the unpacked [final_result]
    with [workflow_execution_time=t] and [processing_timestamp=ts]: a key
    that is no field of the dataclass, or one given twice, raises
    TypeError. *)
Definition to_result (f : FinalResult) (t : Q) (ts : string)
  : result AgenticEnrichmentResult :=
  let kept := filter (fun kv => negb (mem (fst kv) overridden)) (fr_fields f) in
  if forallb (fun kv => mem (fst kv) text_fields) kept then
    ok (mkAgenticResult
          (filter (fun kv => negb (String.eqb (fst kv) "pipeline_version")) kept)
          (fr_url_sources f) (fr_agent_confidence f)
          (fr_enrichment_strategy_used f) (fr_data_sources_consulted f)
          (fr_agent_reasoning f) t (fr_quality_score f) ts
          (match get "pipeline_version" kept with
           | Some v => v | None => "2.0-agentic" end))
  else raise (TypeError "unexpected or repeated keyword argument").

(** The result made in the [except] branch. *)
Definition degraded (r : FranchiseeRecord) (e : exn) (t : Q)
  : AgenticEnrichmentResult :=
  mkAgenticResult (record_items r) "" 0 "Failed" 0
                  ("Error: " ++ exn_message e)%string t 0 "" "2.0-agentic".

(** Wall-clock readings: time spent on a record and the time stamp. *)
Variable elapsed : FranchiseeRecord -> Q.
Variable timestamp : FranchiseeRecord -> string.

(** The body of the [try] block for one record. *)
Definition record_pipeline (r : FranchiseeRecord) : result AgenticEnrichmentResult :=
  final_state <- workflow (initial_state r) ;;
  match final_result final_state with
  | None => raise (KeyError "fdd")
  | Some f => to_result f (round3 (elapsed r)) (timestamp r)
  end.

(** One turn of the loop: the [try] block and its [except] branch. *)
Definition process_one (r : FranchiseeRecord) : AgenticEnrichmentResult :=
  match record_pipeline r with
  | inl res => res
  | inr e => degraded r e (elapsed r)
  end.

Fixpoint process_records_agentic (records : list FranchiseeRecord)
  : list AgenticEnrichmentResult :=
  match records with
  | [] => []
  | r :: rest => process_one r :: process_records_agentic rest
  end.
End Engine.
End Agentic.

(* ================================================================== *)
(** ** Settings (config.py) *)
(* ================================================================== *)

Module Config.
Import Py.

Record ProcessingConfig : Type := mkProcessingConfig {
  max_concurrent_requests : Z;
  batch_size : Z;
  rate_limit_delay_seconds : Q;
  sample_size : option Z;
  max_retries : Z;
  retry_delay_seconds : Q;
  timeout_seconds : Z
}.

Record DataQualityConfig : Type := mkDataQualityConfig {
  minimum_confidence_threshold : Q;
  high_confidence_threshold : Q;
  required_fields : list string
}.

Record FilePathsConfig : Type := mkFilePathsConfig {
  input_file : string;
  output_json : string;
  output_excel : string
}.

(** The settings object as [load_config] returns it. *)
Record PipelineConfig : Type := mkPipelineConfig {
  processing : ProcessingConfig;
  data_quality : DataQualityConfig;
  file_paths : FilePathsConfig;
  name : string;
  version : string;
  environment : string
}.

Definition default_processing : ProcessingConfig :=
  mkProcessingConfig 3 5 2 None 3 1 30.

Definition default_data_quality : DataQualityConfig :=
  mkDataQualityConfig 0.5 0.8 ["franchisee_owner"; "corporate_address"].

Definition default_file_paths : FilePathsConfig :=
  mkFilePathsConfig "data/Golden Chick_DE_Takehome.xlsx"
                    "data/enriched_franchisees.json"
                    "data/enriched_franchisees_enhanced.xlsx".

(** [not 0 <= x <= 1] *)
Definition outside_unit (x : Q) : bool :=
  negb (Qle_bool 0 x && Qle_bool x 1).

Definition issue (cond : bool) (msg : string) : list string :=
  if cond then [msg] else [].

Section Validation.
(** [Path(p).exists()] *)
Variable path_exists : string -> bool.

Definition validate_config (config : PipelineConfig) : list string :=
  issue (max_concurrent_requests (processing config) <=? 0)%Z
        "max_concurrent_requests must be positive"
  ++ issue (batch_size (processing config) <=? 0)%Z
        "batch_size must be positive"
  ++ issue (outside_unit (minimum_confidence_threshold (data_quality config)))
        "minimum_confidence_threshold must be between 0 and 1"
  ++ issue (outside_unit (high_confidence_threshold (data_quality config)))
        "high_confidence_threshold must be between 0 and 1"
  ++ issue (negb (Qle_bool (minimum_confidence_threshold (data_quality config))
                           (high_confidence_threshold (data_quality config))))
        "minimum_confidence_threshold cannot be greater than high_confidence_threshold"
  ++ issue (negb (path_exists (input_file (file_paths config))))
        ("Input file does not exist: " ++ input_file (file_paths config))%string.
End Validation.

(** *** The configuration tree and environment overrides *)

(** A value of the tree that [yaml.safe_load] returns. *)
#[warnings="-register-all"]
Inductive yaml : Type :=
| YScalar (text : string)
| YBool (b : bool)
| YDict (items : list (string * yaml)).

(** What [_deep_merge] stores under a key: the merge of the two dicts when
    the key is in [result] and both values are dicts, the override's value
    otherwise. [current] is [result.get(key)]. *)
Fixpoint merge_value (value : yaml) (current : option yaml) : yaml :=
  match value, current with
  | YDict override_dict, Some (YDict base_dict) =>
      YDict ((fix merge_items (override : list (string * yaml))
                  (result : dict yaml) : dict yaml :=
                match override with
                | [] => result
                | (key, v) :: rest =>
                    merge_items rest (set key (merge_value v (get key result)) result)
                end) override_dict base_dict)
  | _, _ => value
  end.

(** [_deep_merge]: a copy of [base_dict] updated key by key. *)
Definition _deep_merge (base_dict override_dict : dict yaml) : dict yaml :=
  fold_left
    (fun result kv => set (fst kv) (merge_value (snd kv) (get (fst kv) result)) result)
    override_dict base_dict.

(** [environment in config_data['environments']] for the value found
    under [environments]: a key of a dict, a piece of a text; a boolean
    is not iterable and the test raises ([None]). *)
Definition environment_in (environment : string) (environments : yaml)
  : option bool :=
  match environments with
  | YDict items => Some (has environment items)
  | YScalar text => Some (str_in environment text)
  | YBool _ => None
  end.

(** The override step of [_load_config]: nothing is merged unless
    [environments] is there and holds the environment. [None] stands for
    the exception raised by the membership test, by the subscript of a
    text, or by [_deep_merge] on an entry that is no dict. *)
Definition apply_environment (config_data : dict yaml) (environment : string)
  : option (dict yaml) :=
  match get "environments" config_data with
  | None => Some config_data
  | Some environments =>
      match environment_in environment environments with
      | None => None
      | Some false => Some config_data
      | Some true =>
          match environments with
          | YDict items =>
              match get environment items with
              | Some (YDict env_config) => Some (_deep_merge config_data env_config)
              | _ => None
              end
          | _ => None
          end
      end
  end.

(** [get_enrichment_source_config]; [None] stands for the AttributeError
    of [.get] on a value that is no dict. *)
Definition get_enrichment_source_config (config_data : dict yaml)
           (source_name : string) : option yaml :=
  match get "enrichment_sources" config_data with
  | None => Some (YDict [])
  | Some (YDict sources_config) =>
      match get source_name sources_config with
      | None => Some (YDict [])
      | Some v => Some v
      end
  | Some _ => None
  end.

(** [is_source_enabled]: the value under [enabled], [True] when absent. *)
Definition is_source_enabled (config_data : dict yaml) (source_name : string)
  : option yaml :=
  match get_enrichment_source_config config_data source_name with
  | Some (YDict source_config) =>
      match get "enabled" source_config with
      | Some v => Some v
      | None => Some (YBool true)
      end
  | _ => None
  end.
End Config.

(* ================================================================== *)
(** ** The production pipeline (enrichment_pipeline_production.py) *)
(* ================================================================== *)

Module Production.
Import Py Config.

(** *** EnhancedEntityClassifier *)

Definition BUSINESS_INDICATORS : list string :=
  [ "LLC"; "INC"; "CORP"; "CORPORATION"; "LTD"; "LIMITED";
    "LP"; "LLP"; "CO"; "COMPANY"; "ENTERPRISES"; "GROUP";
    "VENTURES"; "HOLDINGS"; "MANAGEMENT"; "INVESTMENTS";
    "RESTAURANT"; "FOODS"; "CHICKEN"; "GRILL" ].

Record Classification : Type := mkClassification {
  cls_type : EntityType;
  cls_confidence : Q;
  business_indicators_found : nat;
  individual_patterns_matched : nat
}.

Definition classify_entity (franchisee_name : string) : Classification :=
  let name_upper := upper franchisee_name in
  let business_score := count_in BUSINESS_INDICATORS name_upper in
  let individual_patterns :=
    [ str_in "," franchisee_name;
      (List.length (split franchisee_name) =? 2)%nat && (business_score =? 0)%nat ] in
  let individual_score := List.length (filter (fun b => b) individual_patterns) in
  if (0 <? business_score)%nat then
    mkClassification business
      (Qmin 0.95 (0.7 + inject_Z (Z.of_nat business_score) * 0.1))
      business_score individual_score
  else if (0 <? individual_score)%nat then
    mkClassification individual 0.85 business_score individual_score
  else
    mkClassification business 0.6 business_score individual_score.

(** *** The enriched record *)

(** [EnrichedFranchiseeRecord]: the text attributes by name, in field
    order, and the four numeric metrics. A source map is keyed by text
    fields; a key naming a metric or a method is outside the model. *)
Record EnrichedFranchiseeRecord : Type := mkEnriched {
  attrs : dict string;
  confidence_score : Q;
  processing_time_seconds : Q;
  enrichment_sources_used : nat;
  data_quality_score : Q
}.

Definition enrichment_fields : list string :=
  [ "franchisee_owner"; "corporate_name"; "corporate_address";
    "corporate_phone"; "corporate_email"; "linkedin" ].

(** The dataclass built from [asdict(record)], with its defaults. *)
Definition new_enriched (r : FranchiseeRecord) (ts : string) : EnrichedFranchiseeRecord :=
  mkEnriched
    (record_items r
       ++ map (fun f => (f, EmptyString)) enrichment_fields
       ++ [ ("url_sources", EmptyString); ("enrichment_timestamp", ts);
            ("pipeline_version", EmptyString) ])
    0 0 0 0.

Definition getattr (key : string) (a : dict string) : string :=
  match get key a with Some v => v | None => EmptyString end.

(** *** _merge_enrichment_data *)

(** One turn of the loop over [data.items()], on the attribute map. *)
Definition merge_item (a : dict string) (kv : string * string) : dict string :=
  let key := fst kv in
  let value := snd kv in
  match get key a with
  | Some current_value =>
      if truthy value then
        if negb (truthy current_value) then set key value a
        else if String.eqb key "corporate_address" && str_in "Verified:" value
        then set key value a
        else if String.eqb key "corporate_phone"
                && (String.length current_value <? String.length value)%nat
        then set key value a
        else a
      else a
  | None => a
  end.

Definition merge_attrs (a : dict string) (data : dict string) : dict string :=
  fold_left merge_item data a.

Definition with_attrs (a : dict string) (e : EnrichedFranchiseeRecord) :=
  mkEnriched a (confidence_score e) (processing_time_seconds e)
             (enrichment_sources_used e) (data_quality_score e).

Definition _merge_enrichment_data (enriched : EnrichedFranchiseeRecord)
           (data : dict string) : EnrichedFranchiseeRecord :=
  with_attrs (merge_attrs (attrs enriched) data) enriched.

(** *** Scores *)

Definition field_weights : list (string * Q) :=
  [ ("franchisee_owner", 1.2); ("corporate_name", 1.0);
    ("corporate_address", 1.0); ("corporate_phone", 0.8);
    ("corporate_email", 0.8); ("linkedin", 0.7) ].

Definition _calculate_production_confidence_score
           (enriched : EnrichedFranchiseeRecord) (entity_confidence : Q) : Q :=
  let base_score :=
    Qsum (map (fun fw => if truthy (getattr (fst fw) (attrs enriched))
                         then snd fw else 0) field_weights) in
  let completion_score := base_score / Qsum (map snd field_weights) in
  let classification_factor := entity_confidence in
  let source_bonus :=
    Qmin 0.1 (inject_Z (Z.of_nat (enrichment_sources_used enriched)) * 0.02) in
  let final_confidence :=
    completion_score * 0.7 + classification_factor * 0.2 + source_bonus in
  round3 (Qmin 1 final_confidence).

Definition is_digit (c : ascii) : bool :=
  let n := nat_of_ascii c in ((48 <=? n) && (n <=? 57))%nat.

Fixpoint count_digits (s : string) : nat :=
  match s with
  | EmptyString => O
  | String c s' => if is_digit c then S (count_digits s') else count_digits s'
  end.

Definition penalty (cond : bool) (p : Q) : Q := if cond then p else 0.

Definition raw_quality (a : dict string) : Q :=
  let phone := getattr "corporate_phone" a in
  let email := getattr "corporate_email" a in
  let linkedin := getattr "linkedin" a in
  1 - penalty (truthy phone && (count_digits phone <? 10)%nat) 0.1
    - penalty (truthy email && (negb (str_in "@" email) || negb (str_in "." email))) 0.1
    - penalty (truthy linkedin
               && negb (startswith linkedin "https://linkedin.com")
               && negb (startswith linkedin "https://www.linkedin.com")) 0.05
    - penalty (negb (truthy (getattr "franchisee_owner" a))) 0.2
    - penalty (negb (truthy (getattr "corporate_address" a))) 0.1.

Definition _calculate_data_quality_score (enriched : EnrichedFranchiseeRecord) : Q :=
  round3 (Qmax 0 (raw_quality (attrs enriched))).

(** *** _execute_enrichment_tasks *)

(** A coroutine object: awaiting it runs the operation; awaiting it again
    raises RuntimeError. *)
Inductive Task : Type :=
| Fresh (outcome : result (dict string))
| Consumed.

Definition await (t : Task) : result (dict string) * Task :=
  match t with
  | Fresh outcome => (outcome, Consumed)
  | Consumed =>
      (raise (RuntimeError "cannot reuse already awaited coroutine"), Consumed)
  end.

(** What the retry loop does, as seen from outside. *)
Inductive event : Type :=
| Await (task attempt : nat)
| Warning (attempt : nat) (cause : string)
| Sleep (seconds : Q)
| ErrorLog (msg : string).

(** [for attempt in range(max_retries)] for the task numbered [idx], with
    [remaining] turns to go. The result is the dict the task gave, if an
    await succeeded. *)
Fixpoint attempts (max_retries : nat) (delay : Q) (idx remaining : nat)
         (t : Task) : list event * option (dict string) :=
  match remaining with
  | O => ([], None)
  | S k =>
      let attempt := (max_retries - remaining)%nat in
      match await t with
      | (inl result, _) => ([Await idx attempt], Some result)
      | (inr e, t') =>
          let '(evs, out) := attempts max_retries delay idx k t' in
          (Await idx attempt
             :: Warning (attempt + 1) (exn_message e)
             :: (if (attempt <? max_retries - 1)%nat
                 then Sleep delay
                 else ErrorLog "All enrichment attempts failed for task")
             :: evs, out)
      end
  end.

(** The loop over the tasks; [acc] is [(results, enrichment_sources_used)]. *)
Fixpoint run_tasks (max_retries : nat) (delay : Q) (idx : nat)
         (tasks : list Task) (acc : list (dict string) * nat)
  : list event * (list (dict string) * nat) :=
  match tasks with
  | [] => ([], acc)
  | t :: rest =>
      let '(evs, out) := attempts max_retries delay idx max_retries t in
      let acc' :=
        match out with
        | Some (kv :: d) => (fst acc ++ [kv :: d], S (snd acc))
        | _ => acc
        end in
      let '(evs', final) := run_tasks max_retries delay (S idx) rest acc' in
      (evs ++ evs', final)
  end.

Definition _execute_enrichment_tasks (config : PipelineConfig)
           (outcomes : list (result (dict string)))
  : list event * (list (dict string) * nat) :=
  run_tasks (Z.to_nat (max_retries (processing config)))
            (retry_delay_seconds (processing config))
            0 (map Fresh outcomes) ([], O).

(** *** enrich_record *)

Section Enricher.
Variable config : PipelineConfig.

(** The operations of the enabled sources for a record, as outcomes. *)
Variable source_outcomes :
  FranchiseeRecord -> EntityType -> list (result (dict string)).
Variable source_urls : FranchiseeRecord -> list string.
Variable elapsed : FranchiseeRecord -> Q.
Variable timestamp : FranchiseeRecord -> string.

Definition enrich_record (r : FranchiseeRecord)
  : list event * EnrichedFranchiseeRecord :=
  let enriched0 := new_enriched r (timestamp r) in
  let enriched1 :=
    with_attrs (set "pipeline_version" (version config) (attrs enriched0)) enriched0 in
  let classification := classify_entity (franchisee r) in
  let '(evs, (enrichment_results, used)) :=
    _execute_enrichment_tasks config
      (source_outcomes r (cls_type classification)) in
  let enriched2 := fold_left _merge_enrichment_data enrichment_results enriched1 in
  let enriched3 :=
    mkEnriched (set "url_sources" (join "; " (source_urls r)) (attrs enriched2))
               0 (round3 (elapsed r)) used 0 in
  let enriched4 :=
    mkEnriched (attrs enriched3)
               (_calculate_production_confidence_score enriched3
                  (cls_confidence classification))
               (processing_time_seconds enriched3)
               (enrichment_sources_used enriched3) 0 in
  (evs,
   mkEnriched (attrs enriched4) (confidence_score enriched4)
              (processing_time_seconds enriched4)
              (enrichment_sources_used enriched4)
              (_calculate_data_quality_score enriched4)).
End Enricher.

(** *** ProductionFranchiseeEnrichmentPipeline *)

Record Metrics : Type := mkMetrics {
  total_records_processed : nat;
  successful_enrichments : nat;
  failed_enrichments : nat
}.

Record Pipeline : Type := mkPipeline {
  config : PipelineConfig;
  performance_metrics : Metrics
}.

(** [__init__], given the settings that [load_config] read. *)
Definition __init__ (path_exists : string -> bool) (cfg : PipelineConfig)
  : result Pipeline :=
  match validate_config path_exists cfg with
  | [] => ok (mkPipeline cfg (mkMetrics 0 0 0))
  | config_issues =>
      raise (ValueError
               ("Configuration validation failed: ["
                  ++ join ", " (map (fun i => "'" ++ i ++ "'") config_issues)
                  ++ "]")%string)
  end.

(** [records[:sample_size]] under [if sample_size and len(records) > sample_size] *)
Definition apply_sample {A} (sample_size : option Z) (records : list A) : list A :=
  match sample_size with
  | Some n =>
      if negb (n =? 0)%Z && (n <? Z.of_nat (List.length records))%Z
      then firstn (Z.to_nat (if (0 <=? n)%Z then n
                             else Z.of_nat (List.length records) + n)) records
      else records
  | None => records
  end.

(** The slices [records[i:i + batch_size]] for [i] in
    [range(0, len(records), batch_size)], [batch_size] positive. *)
Fixpoint batches {A} (fuel batch_size : nat) (records : list A) : list (list A) :=
  match fuel with
  | O => []
  | S fuel' =>
      match records with
      | [] => []
      | _ => firstn batch_size records
               :: batches fuel' batch_size (skipn batch_size records)
      end
  end.

Section Batch.
(** What [asyncio.gather(..., return_exceptions=True)] holds for a record:
    the enriched record or the exception. *)
Variable enrich : FranchiseeRecord -> result EnrichedFranchiseeRecord.

(** The loop "Separate successful and failed results" of one batch. *)
Fixpoint separate (batch_results : list (result EnrichedFranchiseeRecord))
         (m : Metrics) : list EnrichedFranchiseeRecord * Metrics :=
  match batch_results with
  | [] => ([], m)
  | inr _ :: rest =>
      separate rest (mkMetrics (total_records_processed m)
                               (successful_enrichments m)
                               (S (failed_enrichments m)))
  | inl res :: rest =>
      let '(successful_results, m') :=
        separate rest (mkMetrics (total_records_processed m)
                                 (S (successful_enrichments m))
                                 (failed_enrichments m)) in
      (res :: successful_results, m')
  end.

Fixpoint run_batches (bs : list (list FranchiseeRecord)) (m : Metrics)
  : list EnrichedFranchiseeRecord * Metrics :=
  match bs with
  | [] => ([], m)
  | batch :: rest =>
      let '(successful_results, m1) := separate (map enrich batch) m in
      let '(more, m2) := run_batches rest m1 in
      (successful_results ++ more, m2)
  end.

Definition _update_performance_metrics (results : list EnrichedFranchiseeRecord)
           (m : Metrics) : Metrics :=
  match results with
  | [] => m
  | _ => mkMetrics (List.length results) (successful_enrichments m)
                   (failed_enrichments m)
  end.

Definition process_records (p : Pipeline) (records : list FranchiseeRecord)
  : result (list EnrichedFranchiseeRecord * Pipeline) :=
  let records := apply_sample (sample_size (processing (config p))) records in
  let batch_size := batch_size (processing (config p)) in
  if (batch_size =? 0)%Z then raise ZeroDivisionError   (* total_batches *)
  else
    let bs := if (batch_size <? 0)%Z then []
              else batches (List.length records) (Z.to_nat batch_size) records in
    let '(all_results, m) := run_batches bs (performance_metrics p) in
    ok (all_results,
        mkPipeline (config p) (_update_performance_metrics all_results m)).
End Batch.

(** The settings [main] forces on the pipeline it has built. *)
Definition force_production (p : Pipeline) : Pipeline :=
  let c := config p in
  let pr := processing c in
  mkPipeline
    (mkPipelineConfig
       (mkProcessingConfig 10 20 (rate_limit_delay_seconds pr) None
                           (max_retries pr) (retry_delay_seconds pr)
                           (timeout_seconds pr))
       (data_quality c) (file_paths c) (name c) (version c) "production")
    (performance_metrics p).

(** [main], up to saving: build the pipeline, force the settings, process
    the records that [load_data] returned. *)
Definition main (path_exists : string -> bool)
           (enrich : FranchiseeRecord -> result EnrichedFranchiseeRecord)
           (cfg : PipelineConfig) (records : list FranchiseeRecord)
  : result (list EnrichedFranchiseeRecord * Pipeline) :=
  pipeline <- __init__ path_exists cfg ;;
  process_records enrich (force_production pipeline) records.
(** [EnhancedEntityClassifier.parse_individual_name]: [(first_name, last_name)]. *)
Definition parse_individual_name (franchisee_name : string) : string * string :=
  let name := strip franchisee_name in
  if str_in "," name then
    let '(p0, p1) := Agentic.split_comma name in
    (match split (strip p1) with w :: _ => w | [] => EmptyString end, strip p0)
  else
    match split name with
    | w :: w2 :: ws => (w, join " " (w2 :: ws))
    | _ => (EmptyString, name)
    end.
End Production.

(* ================================================================== *)
(** ** Statement vocabulary and concrete inputs *)
(* ================================================================== *)

Section Specifications.
Import Config.

(** The conditions that valid settings meet. *)
Definition settings_valid (cfg : PipelineConfig) : Prop :=
  (0 < max_concurrent_requests (processing cfg))%Z
  /\ (0 < batch_size (processing cfg))%Z
  /\ (0 <= minimum_confidence_threshold (data_quality cfg) <= 1)%Q
  /\ (0 <= high_confidence_threshold (data_quality cfg) <= 1)%Q
  /\ (minimum_confidence_threshold (data_quality cfg)
      <= high_confidence_threshold (data_quality cfg))%Q.


(** The per-field consistency as the specification words it. *)
Definition spec_field_consistency (distinctValueCount totalContributions : nat) : Q :=
  1 - inject_Z (Z.of_nat distinctValueCount - 1)
      / inject_Z (Z.max 1 (Z.of_nat totalContributions - 1)).

(** All the values contributed to a field are the same. *)
Definition agree (values : list string) : Prop :=
  exists v, forall x, In x values -> x = v.

(** The non-empty values the results contribute to [field], in arrival order. *)
Definition field_contributions (field : string) (fields : Py.dict string)
  : list string :=
  map snd (filter (fun fv => Agentic.contributes fv && String.eqb (fst fv) field)
                  fields).

Definition contributions (field : string) (results : list Agentic.Result)
  : list string :=
  flat_map (fun r => field_contributions field (Agentic.r_fields r)) results.

(** The first component of the aggregation, [aggregated_data], alone. *)
Definition agg_step (a : Py.dict (list string)) (fv : string * string)
  : Py.dict (list string) :=
  if Agentic.contributes fv
  then Agentic.setdefault_append (fst fv) (snd fv) a else a.

(** The values among a list of outcomes, in order. *)
Fixpoint successes {A} (l : list (result A)) : list A :=
  match l with
  | [] => []
  | inl a :: l' => a :: successes l'
  | inr _ :: l' => successes l'
  end.

(** The exceptions among a list of outcomes. *)
Fixpoint failures {A} (l : list (result A)) : list exn :=
  match l with
  | [] => []
  | inl _ :: l' => failures l'
  | inr e :: l' => e :: failures l'
  end.

(** The log of a task all of whose awaits fail, from the attempt numbered
    [attempt] on, one cause per await: await, warning, then the fixed delay
    before the next attempt or the error entry after the last of the
    [max_retries] attempts. *)
Fixpoint failure_trace (max_retries : nat) (delay : Q) (idx attempt : nat)
         (causes : list string) : list Production.event :=
  match causes with
  | [] => []
  | cause :: rest =>
      Production.Await idx attempt
        :: Production.Warning (attempt + 1) cause
        :: (if (attempt <? max_retries - 1)%nat
            then Production.Sleep delay
            else Production.ErrorLog "All enrichment attempts failed for task")
        :: failure_trace max_retries delay idx (S attempt) rest
  end.

(** What one task adds to [(results, enrichment_sources_used)]. *)
Definition task_step (max_retries : nat) (delay : Q)
           (acc : list (Py.dict string) * nat) (t : Production.Task)
  : list (Py.dict string) * nat :=
  match snd (Production.attempts max_retries delay 0 max_retries t) with
  | Some (kv :: d) => (fst acc ++ [kv :: d], S (snd acc))
  | _ => acc
  end.

(** The attempt numbers of the awaits in a log, and the delays slept. *)
Fixpoint awaits (evs : list Production.event) : list nat :=
  match evs with
  | [] => []
  | Production.Await _ attempt :: evs' => attempt :: awaits evs'
  | _ :: evs' => awaits evs'
  end.

Fixpoint sleeps (evs : list Production.event) : list Q :=
  match evs with
  | [] => []
  | Production.Sleep d :: evs' => d :: sleeps evs'
  | _ :: evs' => sleeps evs'
  end.

Fixpoint error_logs (evs : list Production.event) : nat :=
  match evs with
  | [] => O
  | Production.ErrorLog _ :: evs' => S (error_logs evs')
  | _ :: evs' => error_logs evs'
  end.

(** What the resolved data do to one entry of a field map. *)
Definition resolve_entry (resolved_data : Py.dict string) (kv : string * string)
  : string * string :=
  fold_left (fun kv fv => if String.eqb (fst kv) (fst fv)
                          then (fst kv, snd fv) else kv)
            resolved_data kv.

(** The sources of a list whose call returns a non-empty map. *)
Definition answered (call : string -> result Agentic.SourceData)
           (sources : list string) : list string :=
  filter (fun s => match call s with
                   | inl d => Agentic.truthy_data d
                   | inr _ => false
                   end) sources.

(** The three lists an executor appends to run in parallel. *)
Definition parallel_lists (st : Agentic.EnrichmentState) : Prop :=
  map Agentic.r_source (Agentic.enrichment_results st)
  = Agentic.data_sources_attempted st
  /\ List.length (Agentic.confidence_scores st)
     = List.length (Agentic.enrichment_results st).

(** The labels of the sources that contribute a non-empty value to
    [field], one per contribution, in arrival order. *)
Definition source_contributions (field : string) (results : list Agentic.Result)
  : list string :=
  flat_map (fun r => map (fun _ => Agentic.r_source r)
                         (field_contributions field (Agentic.r_fields r)))
           results.

(** The second component of the aggregation, [field_sources], alone. *)
Definition src_step (source : string) (a : Py.dict (list string))
           (fv : string * string) : Py.dict (list string) :=
  if Agentic.contributes fv
  then Agentic.setdefault_append (fst fv) source a else a.


(** The call an executor makes for a source: the business executor passes
    the record and the type business, the individual one the record and
    the two parts of the parsed name. *)
Definition business_call
           (call_business : string -> FranchiseeRecord -> EntityType
                            -> result Agentic.SourceData)
           (st : Agentic.EnrichmentState) (source : string)
  : result Agentic.SourceData :=
  call_business source (Agentic.record st) business.

Definition individual_call
           (call_individual : string -> FranchiseeRecord -> string -> string
                              -> result Agentic.SourceData)
           (st : Agentic.EnrichmentState) (source : string)
  : result Agentic.SourceData :=
  call_individual source (Agentic.record st)
    (fst (Agentic.parse_name (franchisee (Agentic.record st))))
    (snd (Agentic.parse_name (franchisee (Agentic.record st)))).

(** What an executor that called [called] added to [st]: one result for
    each called source whose call returned a non-empty map, in call order,
    after the earlier results, with the source labels appended alike. *)
Definition appended (call : string -> result Agentic.SourceData)
           (called : list string) (st st' : Agentic.EnrichmentState) : Prop :=
  exists new,
    Agentic.enrichment_results st' = Agentic.enrichment_results st ++ new
    /\ map Agentic.r_source new = answered call called
    /\ Agentic.data_sources_attempted st'
       = Agentic.data_sources_attempted st ++ answered call called.

(** The value of [field] in the final record of a state, if any. *)
Definition final_field (field : string) (st : Agentic.EnrichmentState)
  : option string :=
  match Agentic.final_result st with
  | Some f => Py.get field (Agentic.fr_fields f)
  | None => None
  end.
End Specifications.

Module Examples.
Import Py.

Definition golden_chick : FranchiseeRecord :=
  mkRecord "Golden Chick" "101" "Dallas North" "Golden Chick Enterprises LLC"
           "J. Doe" "1 Main St" "Dallas" "TX" "75001" "214-555-0100".

Definition john_smith : FranchiseeRecord :=
  mkRecord "Golden Chick" "102" "Austin South" "John Smith"
           "John Smith" "2 Oak Ave" "Austin" "TX" "73301" "512-555-0101".

(** The simulated sources of the repository, which never fail. *)
Definition simulated_business (source : string) (r : FranchiseeRecord)
           (t : EntityType) : result Agentic.SourceData :=
  ok (Agentic._call_enrichment_source source r t).

Definition simulated_individual (source : string) (r : FranchiseeRecord)
           (first_name last_name : string) : result Agentic.SourceData :=
  ok (Agentic._call_individual_enrichment_source source r first_name last_name).

(** Two iteration orders a set of strings can have. *)
Definition first_seen_order (values : list string) : list string :=
  Agentic.distinct values.

Definition reversed_order (values : list string) : list string :=
  rev (Agentic.distinct values).

(** Settings with a batch size of zero. *)
Definition zero_batch_config : Config.PipelineConfig :=
  Config.mkPipelineConfig
    (Config.mkProcessingConfig 3 0 2 None 3 1 30)
    Config.default_data_quality Config.default_file_paths
    "franchisee-enrichment-pipeline" "1.0.0" "development".

Definition default_config : Config.PipelineConfig :=
  Config.mkPipelineConfig
    Config.default_processing
    Config.default_data_quality Config.default_file_paths
    "franchisee-enrichment-pipeline" "1.0.0" "development".

(** A record whose address field a first source has filled. *)
Definition enriched_with_address : Production.EnrichedFranchiseeRecord :=
  Production._merge_enrichment_data
    (Production.new_enriched golden_chick "2024-01-01T00:00:00")
    [ ("corporate_name", "Golden Chick Enterprises LLC");
      ("corporate_address", "TX Registered: 1 Main St, Dallas, TX 75001") ].

Definition places_data : dict string :=
  [ ("corporate_phone", "214-555-0100");
    ("corporate_address", "Verified: 1 Main St, Dallas, TX 75001");
    ("corporate_name", "Golden Chick") ].

Definition default_pipeline : Production.Pipeline :=
  Production.mkPipeline default_config (Production.mkMetrics 0 0 0).

(** The default settings with a sample limit of one record. *)
Definition sample_pipeline : Production.Pipeline :=
  Production.mkPipeline
    (Config.mkPipelineConfig
       (Config.mkProcessingConfig 3 5 2 (Some 1%Z) 3 1 30)
       Config.default_data_quality Config.default_file_paths
       "franchisee-enrichment-pipeline" "1.0.0" "development")
    (Production.mkMetrics 0 0 0).

(** An enricher whose coroutine raises for the individual record. *)
Definition failing_enrich (r : FranchiseeRecord)
  : result Production.EnrichedFranchiseeRecord :=
  if String.eqb (franchisee r) "John Smith"
  then raise (RuntimeError "connection reset")
  else ok (Production.new_enriched r "2024-01-01T00:00:00").

Definition plain_enrich (r : FranchiseeRecord)
  : result Production.EnrichedFranchiseeRecord :=
  ok (Production.new_enriched r "2024-01-01T00:00:00").

(** Business sources of which the places lookup fails. *)
Definition places_down (source : string) (r : FranchiseeRecord)
           (t : EntityType) : result Agentic.SourceData :=
  if String.eqb source "google_places"
  then raise (RuntimeError "places lookup timed out")
  else simulated_business source r t.

Definition no_clock (r : FranchiseeRecord) : Q := 0.

Definition no_timestamp (r : FranchiseeRecord) : string := "2024-01-01T00:00:00".

(** The state a record is in when its sources are about to be called. *)
Definition planned_state (r : FranchiseeRecord) : Agentic.EnrichmentState :=
  let st := Agentic._classify_entity_node (Agentic.initial_state r) in
  match Agentic._plan_enrichment_strategy st with
  | inl st' => st'
  | inr _ => st
  end.

(** Individual sources that answer with little confidence. *)
Definition weak_individual (source : string) (r : FranchiseeRecord)
           (first_name last_name : string) : result Agentic.SourceData :=
  ok (Agentic.mkSourceData
        [("franchisee_owner", (first_name ++ " " ++ last_name)%string)]
        (Some 0.5%Q)).

(** Business sources that answer with little confidence. *)
Definition weak_business (source : string) (r : FranchiseeRecord)
           (t : EntityType) : result Agentic.SourceData :=
  ok (Agentic.mkSourceData [("corporate_name", franchisee r)] (Some 0.5%Q)).

(** Business sources that agree and fill seven distinct fields: the places
    lookup also returns the store's phone number. *)
Definition rich_business (source : string) (r : FranchiseeRecord)
           (t : EntityType) : result Agentic.SourceData :=
  if String.eqb source "business_registry" then
    ok (Agentic.mkSourceData
          [ ("corporate_name", franchisee r);
            ("corporate_address", Agentic.full_address "Registered: " r);
            ("franchisee_owner", "Golden Chick Enterprises") ]
          (Some 0.7%Q))
  else if String.eqb source "google_places" then
    ok (Agentic.mkSourceData
          [ ("corporate_phone", phone r);
            ("corporate_email", "info@goldenchick.com");
            ("phone", "+1 214-555-0100") ]
          (Some 0.7%Q))
  else if String.eqb source "corporate_database" then
    ok (Agentic.mkSourceData
          [ ("linkedin", "https://www.linkedin.com/company/golden-chick") ]
          (Some 0.7%Q))
  else ok (Agentic.mkSourceData [] None).

(** A state in which the registry answered last, after two sources that
    agree with each other. *)
Definition late_registry_state : Agentic.EnrichmentState :=
  Agentic.mkState golden_chick
    (Some (Agentic.classify (franchisee golden_chick)))
    (Some (Agentic.plan (Agentic.classify (franchisee golden_chick)) golden_chick))
    ["google_places"; "corporate_database"; "business_registry"]
    [ Agentic.mkResult [("corporate_address", "1 Main St, Dallas, TX 75001")]
                       (Some 0.8%Q) "google_places" "primary";
      Agentic.mkResult [("corporate_address", "1 Main St, Dallas, TX 75001")]
                       (Some 0.7%Q) "corporate_database" "fallback";
      Agentic.mkResult [("corporate_address", "1 Main Street, Dallas, TX 75001")]
                       (Some 0.9%Q) "business_registry" "primary" ]
    [0.8%Q; 0.7%Q; 0.9%Q] None None None None.

Definition run_simulated (set_order : list string -> list string)
           (r : FranchiseeRecord) : Agentic.AgenticEnrichmentResult :=
  Agentic.process_one simulated_business simulated_individual set_order
                      no_clock no_timestamp r.

(** The state of the record after scoring, with the simulated sources. *)
Definition scored_state : Agentic.EnrichmentState :=
  match (st <- snd (Agentic._execute_business_enrichment
                      simulated_business (planned_state golden_chick)) ;;
         Agentic._validate_and_score_results first_seen_order st) with
  | inl st => st
  | inr _ => planned_state golden_chick
  end.

(** The individual record with a strategy that asks for a mean of 0.9. *)
Definition strict_individual_state : Agentic.EnrichmentState :=
  Agentic.with_strategy
    (Agentic.mkStrategy ["linkedin_individual"; "google_search"]
                        ["people_search"; "social_media"]
                        0.9 4 "Individual-focused enrichment strategy")
    (Agentic._classify_entity_node (Agentic.initial_state john_smith)).
End Examples.

(* ================================================================== *)
(** ** Properties *)
(* ================================================================== *)

(** *** Entity classification *)

Section ClassifierFacts.
Import Py.

Lemma count_in_zero (pats : list string) (s : string) :
  (forall p, In p pats -> str_in p s = false) -> count_in pats s = O.
Proof.
  unfold count_in. induction pats as [|p pats IH]; intros H; simpl.
  - reflexivity.
  - rewrite (H p (or_introl eq_refl)). apply IH.
    intros q Hq. apply H. now right.
Qed.

(** C5, as the code has it. With no business indicator in the upper-cased
    name and exactly two tokens, the agentic classifier answers individual
    with confidence 0.8 when the name has no comma and 0.9 when it has one;
    the production classifier, under its own indicator list, answers
    individual with confidence 0.85 in both cases. *)
Theorem classify_two_token_names (name : string)
  (Hind : forall ind, In ind Agentic.business_indicators ->
                      str_in ind (upper name) = false)
  (Htok : List.length (split name) = 2%nat) :
  (str_in "," name = false ->
     Agentic.cls_type (Agentic.classify name) = individual
     /\ Agentic.cls_confidence (Agentic.classify name) = 0.8%Q)
  /\ (str_in "," name = true ->
     Agentic.cls_type (Agentic.classify name) = individual
     /\ Agentic.cls_confidence (Agentic.classify name) = 0.9%Q)
  /\ ((forall ind, In ind Production.BUSINESS_INDICATORS ->
                   str_in ind (upper name) = false) ->
     Production.cls_type (Production.classify_entity name) = individual
     /\ Production.cls_confidence (Production.classify_entity name) = 0.85%Q).
Proof.
  pose proof (count_in_zero _ _ Hind) as Hz.
  repeat split.
  - unfold Agentic.classify. rewrite Hz, Htok, H. reflexivity.
  - unfold Agentic.classify. rewrite Hz, Htok, H. reflexivity.
  - unfold Agentic.classify. rewrite Hz, Htok, H. reflexivity.
  - unfold Agentic.classify. rewrite Hz, Htok, H. reflexivity.
  - unfold Production.classify_entity.
    rewrite (count_in_zero _ _ H), Htok. simpl.
    destruct (str_in "," name); reflexivity.
  - unfold Production.classify_entity.
    rewrite (count_in_zero _ _ H), Htok. simpl.
    destruct (str_in "," name); reflexivity.
Qed.

Lemma classify_two_token_names_witness :
  Agentic.cls_type (Agentic.classify "John Smith") = individual
  /\ Agentic.cls_confidence (Agentic.classify "John Smith") = 0.8%Q.
Proof.
  refine (proj1 (classify_two_token_names "John Smith" _ _) _).
  - intros ind Hin. simpl in Hin.
    repeat (destruct Hin as [<- | Hin]; [reflexivity|]). contradiction.
  - reflexivity.
  - reflexivity.
Defined.

(** C5 as stated fails twice: "Smith, John" has two tokens and no business
    indicator, yet its confidence is 0.9, not 0.8; and "Lincoln, Abe" has a
    comma and two tokens, yet is a business, because LINCOLN holds INC. *)
Lemma classify_counterexample :
  (List.length (split "Smith, John") = 2%nat
   /\ count_in Agentic.business_indicators (upper "Smith, John") = O
   /\ Agentic.cls_confidence (Agentic.classify "Smith, John") = 0.9%Q
   /\ ~ (0.9 == 0.8)%Q)
  /\ (str_in "," "Lincoln, Abe" = true
      /\ List.length (split "Lincoln, Abe") = 2%nat
      /\ Agentic.cls_type (Agentic.classify "Lincoln, Abe") = business).
Proof.
  repeat split; try reflexivity. intros H. discriminate H.
Qed.
End ClassifierFacts.

(** *** Settings validation *)

Section SettingsFacts.
Import Config.

Lemma issue_nil (c : bool) (msg : string) (rest : list string) :
  issue c msg ++ rest = [] -> c = false /\ rest = [].
Proof.
  destruct c; simpl; intros H; [discriminate H | now split].
Qed.

Lemma outside_unit_false (x : Q) :
  outside_unit x = false -> (0 <= x <= 1)%Q.
Proof.
  unfold outside_unit. intros H.
  apply negb_false_iff, andb_true_iff in H. destruct H as [H0 H1].
  split; now apply Qle_bool_iff.
Qed.

Lemma no_issue_valid (path_exists : string -> bool) (cfg : PipelineConfig) :
  validate_config path_exists cfg = [] ->
  settings_valid cfg /\ path_exists (input_file (file_paths cfg)) = true.
Proof.
  unfold validate_config. intros H.
  apply issue_nil in H. destruct H as [H1 H].
  apply issue_nil in H. destruct H as [H2 H].
  apply issue_nil in H. destruct H as [H3 H].
  apply issue_nil in H. destruct H as [H4 H].
  apply issue_nil in H. destruct H as [H5 H].
  destruct (negb (path_exists (input_file (file_paths cfg)))) eqn:H6;
    [discriminate H|].
  repeat split.
  - now apply Z.leb_gt.
  - now apply Z.leb_gt.
  - apply (outside_unit_false _ H3).
  - apply (outside_unit_false _ H3).
  - apply (outside_unit_false _ H4).
  - apply (outside_unit_false _ H4).
  - apply Qle_bool_iff. now apply negb_false_iff.
  - now apply negb_false_iff.
Qed.

Lemma valid_no_issue (path_exists : string -> bool) (cfg : PipelineConfig) :
  settings_valid cfg -> path_exists (input_file (file_paths cfg)) = true ->
  validate_config path_exists cfg = [].
Proof.
  intros (H1 & H2 & [H3 H3'] & [H4 H4'] & H5) H6. unfold validate_config.
  apply Z.leb_gt in H1. apply Z.leb_gt in H2. rewrite H1, H2.
  unfold outside_unit.
  apply Qle_bool_iff in H3, H3', H4, H4', H5.
  rewrite H3, H3', H4, H4', H5, H6. reflexivity.
Qed.

(** Valid settings, with the input file in place, build the pipeline. *)
Lemma valid_settings_accepted (path_exists : string -> bool) (cfg : PipelineConfig) :
  settings_valid cfg -> path_exists (input_file (file_paths cfg)) = true ->
  Production.__init__ path_exists cfg
  = inl (Production.mkPipeline cfg (Production.mkMetrics 0 0 0)).
Proof.
  intros Hv Hp. unfold Production.__init__.
  now rewrite (valid_no_issue _ _ Hv Hp).
Qed.

(** C9. Settings that break one of the listed conditions make the
    constructor raise ValueError, so that [main] ends with that error
    whatever the records and the enricher are: no record is processed. *)
Theorem invalid_settings_rejected (path_exists : string -> bool)
        (cfg : PipelineConfig) (Hbad : ~ settings_valid cfg) :
  exists msg,
    Production.__init__ path_exists cfg = inr (ValueError msg)
    /\ forall enrich records,
         Production.main path_exists enrich cfg records = inr (ValueError msg).
Proof.
  unfold Production.main, Production.__init__.
  destruct (validate_config path_exists cfg) as [|i is_] eqn:Hv.
  - exfalso. apply Hbad. now apply (no_issue_valid path_exists).
  - eexists. split; [reflexivity|]. intros enrich records. reflexivity.
Qed.

End SettingsFacts.

Lemma invalid_settings_rejected_witness :
  exists msg,
    Production.__init__ (fun _ => true) Examples.zero_batch_config = inr (ValueError msg)
    /\ forall enrich records,
         Production.main (fun _ => true) enrich Examples.zero_batch_config records
         = inr (ValueError msg).
Proof.
  apply (invalid_settings_rejected (fun _ => true) Examples.zero_batch_config).
  unfold settings_valid. simpl. lia.
Defined.

(** *** Dictionaries *)

Section DictFacts.
Import Py.
Context {V : Type}.

Lemma get_update (k k' : string) (g : V -> V) (d : dict V) :
  get k (update k' g d)
  = option_map (fun x => if String.eqb k' k then g x else x) (get k d).
Proof.
  unfold update. induction d as [|[k0 v0] d IH]; simpl; [reflexivity|].
  destruct (String.eqb k0 k') eqn:E0; simpl.
  - apply String.eqb_eq in E0. subst k0.
    destruct (String.eqb k' k); simpl; [reflexivity | exact IH].
  - destruct (String.eqb k0 k) eqn:E1; simpl; [|exact IH].
    apply String.eqb_eq in E1. subst k0.
    rewrite String.eqb_sym, E0. reflexivity.
Qed.

Lemma get_app (k : string) (d d' : dict V) :
  get k (d ++ d') = match get k d with Some v => Some v | None => get k d' end.
Proof.
  induction d as [|[k0 v0] d IH]; simpl; [reflexivity|].
  destruct (String.eqb k0 k); [reflexivity | exact IH].
Qed.

Lemma get_set (k k' : string) (v : V) (d : dict V) :
  get k (set k' v d) = if String.eqb k' k then Some v else get k d.
Proof.
  unfold set, has. destruct (get k' d) as [x|] eqn:E.
  - rewrite get_update. destruct (String.eqb k' k) eqn:Ek.
    + apply String.eqb_eq in Ek. subst k'. now rewrite E.
    + now destruct (get k d).
  - rewrite get_app. simpl. destruct (String.eqb k' k) eqn:Ek.
    + apply String.eqb_eq in Ek. subst k'. now rewrite E.
    + now destruct (get k d).
Qed.

Lemma get_In (k : string) (v : V) (d : dict V) :
  get k d = Some v -> In (k, v) d.
Proof.
  induction d as [|[k0 v0] d IH]; simpl; [discriminate|].
  destruct (String.eqb k0 k) eqn:E.
  - apply String.eqb_eq in E. subst k0. intros [= ->]. now left.
  - intros H. right. now apply IH.
Qed.

Lemma get_None_not_In (k : string) (d : dict V) :
  get k d = None <-> ~ In k (keys d).
Proof.
  unfold keys. induction d as [|[k0 v0] d IH]; simpl.
  - split; [intros _ [] | reflexivity].
  - destruct (String.eqb k0 k) eqn:E.
    + apply String.eqb_eq in E. subst k0.
      split; [discriminate | intros H; exfalso; apply H; now left].
    + apply String.eqb_neq in E. rewrite IH.
      split; [intros H [H'|H']; [now apply E | now apply H]
             | intros H H'; apply H; now right].
Qed.

End DictFacts.

(** *** The production field merge *)

Section MergeFacts.
Import Py.

(** What one contributed value does to the attribute [key] that holds [cur]. *)
Lemma get_merge_item (a : dict string) (k key value : string) :
  get k (Production.merge_item a (key, value))
  = if String.eqb key k then
      match get k a with
      | Some cur =>
          if truthy value
             && (negb (truthy cur)
                 || String.eqb k "corporate_address" && str_in "Verified:" value
                 || String.eqb k "corporate_phone"
                    && (String.length cur <? String.length value)%nat)
          then Some value else Some cur
      | None => None
      end
    else get k a.
Proof.
  unfold Production.merge_item. simpl.
  destruct (String.eqb key k) eqn:Ek.
  - apply String.eqb_eq in Ek. subst key.
    destruct (get k a) as [cur|] eqn:Eg; [|exact Eg].
    destruct (truthy value); simpl; [|exact Eg].
    destruct (truthy cur); simpl.
    + destruct (String.eqb k "corporate_address" && str_in "Verified:" value); simpl.
      * rewrite get_set, String.eqb_refl. reflexivity.
      * destruct (String.eqb k "corporate_phone"
                  && (String.length cur <? String.length value)%nat).
        -- rewrite get_set, String.eqb_refl. reflexivity.
        -- exact Eg.
    + rewrite get_set, String.eqb_refl. reflexivity.
  - destruct (get key a) as [cur|]; [|reflexivity].
    destruct (truthy value); [|reflexivity].
    destruct (negb (truthy cur)); [now rewrite get_set, Ek|].
    destruct (String.eqb key "corporate_address" && str_in "Verified:" value);
      [now rewrite get_set, Ek|].
    destruct (String.eqb key "corporate_phone"
              && (String.length cur <? String.length value)%nat);
      [now rewrite get_set, Ek | reflexivity].
Qed.

Lemma merge_attrs_absent (a data : dict string) (k : string) :
  ~ In k (keys data) -> get k (Production.merge_attrs a data) = get k a.
Proof.
  unfold Production.merge_attrs. revert a.
  induction data as [|[key value] data IH]; intros a Hn; simpl; [reflexivity|].
  rewrite IH.
  - rewrite get_merge_item. destruct (String.eqb key k) eqn:E; [|reflexivity].
    apply String.eqb_eq in E. subst key. exfalso. apply Hn. now left.
  - intros H. apply Hn. now right.
Qed.

Lemma merge_attrs_unique (a data : dict string) (k : string) :
  NoDup (keys data) ->
  get k (Production.merge_attrs a data)
  = match get k data with
    | Some value => get k (Production.merge_item a (k, value))
    | None => get k a
    end.
Proof.
  unfold Production.merge_attrs. revert a.
  induction data as [|[key value] data IH]; intros a Hnd; simpl; [reflexivity|].
  inversion Hnd as [|? ? Hnotin Hnd']; subst.
  destruct (String.eqb key k) eqn:E.
  - apply String.eqb_eq in E. subst key.
    exact (merge_attrs_absent _ data k Hnotin).
  - rewrite (IH _ Hnd').
    destruct (get k data) as [v|] eqn:Eg.
    + rewrite !get_merge_item, String.eqb_refl, E. reflexivity.
    + now rewrite get_merge_item, E.
Qed.

(** A field other than the two special ones, once filled, is never changed. *)
Lemma merge_item_keeps (a : dict string) (kv : string * string) (k cur : string) :
  k <> "corporate_address" -> k <> "corporate_phone" ->
  get k a = Some cur -> truthy cur = true ->
  get k (Production.merge_item a kv) = Some cur.
Proof.
  intros Ha Hp Hg Ht. destruct kv as [key value].
  rewrite get_merge_item, Hg, Ht.
  apply String.eqb_neq in Ha, Hp. rewrite Ha, Hp. simpl.
  rewrite andb_false_r. now destruct (String.eqb key k).
Qed.

Lemma merge_all_keeps (datas : list (dict string)) (a : dict string) (k cur : string) :
  k <> "corporate_address" -> k <> "corporate_phone" ->
  get k a = Some cur -> truthy cur = true ->
  get k (fold_left Production.merge_attrs datas a) = Some cur.
Proof.
  intros Ha Hp. revert a.
  assert (Hone : forall data a, get k a = Some cur -> truthy cur = true ->
                   get k (Production.merge_attrs a data) = Some cur).
  { unfold Production.merge_attrs.
    induction data as [|kv data IH]; intros a Hg Ht; simpl; [exact Hg|].
    apply IH; [|exact Ht]. now apply merge_item_keeps. }
  induction datas as [|data datas IH]; intros a Hg Ht; simpl; [exact Hg|].
  apply IH; [|exact Ht]. now apply Hone.
Qed.

End MergeFacts.

Section MergeClaim.
Import Py.

Lemma attrs_fold_merge (datas : list (dict string))
      (e : Production.EnrichedFranchiseeRecord) :
  Production.attrs (fold_left Production._merge_enrichment_data datas e)
  = fold_left Production.merge_attrs datas (Production.attrs e).
Proof.
  revert e. induction datas as [|d datas IH]; intros e; simpl; [reflexivity|].
  now rewrite IH.
Qed.

(** C10. Let the attribute [k] of the enriched record hold the non-empty
    value [cur], and let a later source hand in the map [data]. After the
    merge, [k] holds the incoming value exactly when that value is non-empty
    and either [k] is corporate_address and the value contains "Verified:",
    or [k] is corporate_phone and the value is strictly longer than [cur];
    otherwise it still holds [cur]. A filled attribute other than those two
    keeps its value through any sequence of later maps, and every attribute
    that [data] lacks or gives as the empty string is left as it was. *)
Theorem merge_enrichment_data_frame
        (enriched : Production.EnrichedFranchiseeRecord)
        (data : dict string) (k cur : string)
        (Hdict : NoDup (keys data))
        (Hcur : get k (Production.attrs enriched) = Some cur)
        (Hfilled : truthy cur = true) :
  let after := Production.attrs (Production._merge_enrichment_data enriched data) in
  get k after
  = Some (match get k data with
          | Some value =>
              if truthy value
                 && (String.eqb k "corporate_address" && str_in "Verified:" value
                     || String.eqb k "corporate_phone"
                        && (String.length cur <? String.length value)%nat)
              then value else cur
          | None => cur
          end)
  /\ (k <> "corporate_address" -> k <> "corporate_phone" ->
      forall later : list (dict string),
        get k (Production.attrs
                 (fold_left Production._merge_enrichment_data later enriched))
        = Some cur)
  /\ (forall j, get j data = None \/ get j data = Some EmptyString ->
                get j after = get j (Production.attrs enriched)).
Proof.
  simpl. repeat split.
  - rewrite (merge_attrs_unique _ _ k Hdict).
    destruct (get k data) as [value|]; [|exact Hcur].
    rewrite get_merge_item, String.eqb_refl, Hcur, Hfilled. simpl.
    now destruct (truthy value && _).
  - intros Ha Hp later. rewrite attrs_fold_merge.
    now apply merge_all_keeps.
  - intros j Hj. rewrite (merge_attrs_unique _ _ j Hdict).
    destruct Hj as [-> | ->]; [reflexivity|].
    rewrite get_merge_item, String.eqb_refl. simpl.
    now destruct (get j (Production.attrs enriched)).
Qed.

Lemma merge_enrichment_data_frame_witness :
  get "corporate_address"
      (Production.attrs
         (Production._merge_enrichment_data Examples.enriched_with_address
                                            Examples.places_data))
  = Some "Verified: 1 Main St, Dallas, TX 75001"
  /\ get "corporate_name"
         (Production.attrs
            (Production._merge_enrichment_data Examples.enriched_with_address
                                               Examples.places_data))
     = Some "Golden Chick Enterprises LLC".
Proof.
  split.
  - refine (proj1 (merge_enrichment_data_frame
             Examples.enriched_with_address Examples.places_data
             "corporate_address" "TX Registered: 1 Main St, Dallas, TX 75001"
             _ eq_refl eq_refl)).
    repeat (constructor; [simpl; intuition discriminate|]). constructor.
  - refine (proj1 (merge_enrichment_data_frame
             Examples.enriched_with_address Examples.places_data
             "corporate_name" "Golden Chick Enterprises LLC"
             _ eq_refl eq_refl)).
    repeat (constructor; [simpl; intuition discriminate|]). constructor.
Defined.

End MergeClaim.

(** *** Aggregation and the consistency score *)

Section AggregateFacts.
Import Py.

Lemma get_setdefault_append (k field x : string) (d : dict (list string)) :
  get k (Agentic.setdefault_append field x d)
  = if String.eqb field k
    then Some (match get k d with Some l => l | None => [] end ++ [x])
    else get k d.
Proof.
  unfold Agentic.setdefault_append, has.
  destruct (get field d) as [l|] eqn:E.
  - rewrite get_update. destruct (String.eqb field k) eqn:Ek.
    + apply String.eqb_eq in Ek. subst field. now rewrite E.
    + now destruct (get k d).
  - rewrite get_app. simpl. destruct (String.eqb field k) eqn:Ek.
    + apply String.eqb_eq in Ek. subst field. now rewrite E.
    + now destruct (get k d).
Qed.

Lemma keys_update {V} (k : string) (g : V -> V) (d : dict V) :
  keys (update k g d) = keys d.
Proof.
  unfold keys, update. rewrite map_map. apply map_ext.
  intros [k0 v0]. simpl. now destruct (String.eqb k0 k).
Qed.

Lemma NoDup_keys_setdefault_append (field x : string) (d : dict (list string)) :
  NoDup (keys d) -> NoDup (keys (Agentic.setdefault_append field x d)).
Proof.
  intros Hnd. unfold Agentic.setdefault_append, has.
  destruct (get field d) as [l|] eqn:E.
  - now rewrite keys_update.
  - unfold keys. rewrite map_app. simpl.
    apply NoDup_app_remove_l with (l := []). simpl.
    apply Permutation_NoDup with (l := field :: map fst d).
    + apply Permutation_cons_append.
    + constructor; [now apply get_None_not_In | exact Hnd].
Qed.

Lemma fst_aggregate_result acc (r : Agentic.Result) :
  fst (Agentic.aggregate_result acc r)
  = fold_left agg_step (Agentic.r_fields r) (fst acc).
Proof.
  unfold Agentic.aggregate_result. generalize (Agentic.r_fields r) as fields.
  intros fields. revert acc.
  induction fields as [|fv fields IH]; intros acc; simpl; [reflexivity|].
  rewrite IH. unfold agg_step. now destruct (Agentic.contributes fv).
Qed.

Lemma fst_fold_aggregate (results : list Agentic.Result) acc :
  fst (fold_left Agentic.aggregate_result results acc)
  = fold_left (fun a r => fold_left agg_step (Agentic.r_fields r) a)
              results (fst acc).
Proof.
  revert acc. induction results as [|r results IH]; intros acc; simpl;
    [reflexivity|].
  now rewrite IH, fst_aggregate_result.
Qed.

Lemma aggregated_data_fold (results : list Agentic.Result) :
  Agentic.aggregated_data results
  = fold_left (fun a r => fold_left agg_step (Agentic.r_fields r) a) results [].
Proof.
  unfold Agentic.aggregated_data, Agentic.aggregate.
  now rewrite fst_fold_aggregate.
Qed.

Lemma get_fold_agg_step (k : string) (fields : dict string) (a : dict (list string)) :
  get k (fold_left agg_step fields a)
  = match get k a, field_contributions k fields with
    | None, [] => None
    | o, cs => Some (match o with Some l => l | None => [] end ++ cs)
    end.
Proof.
  revert a. unfold field_contributions.
  induction fields as [|[f v] fields IH]; intros a; simpl.
  - destruct (get k a); [now rewrite app_nil_r | reflexivity].
  - rewrite IH. unfold agg_step at 1.
    destruct (Agentic.contributes (f, v)) eqn:Ec; simpl.
    + rewrite get_setdefault_append. destruct (String.eqb f k) eqn:Ek; simpl.
      * rewrite <- app_assoc. simpl.
        destruct (get k a); reflexivity.
      * reflexivity.
    + reflexivity.
Qed.

Lemma get_aggregated_from (k : string) (results : list Agentic.Result)
      (a : dict (list string)) :
  get k (fold_left (fun a r => fold_left agg_step (Agentic.r_fields r) a) results a)
  = match get k a, contributions k results with
    | None, [] => None
    | o, cs => Some (match o with Some l => l | None => [] end ++ cs)
    end.
Proof.
  revert a. unfold contributions.
  induction results as [|r results IH]; intros a; simpl.
  - destruct (get k a); [now rewrite app_nil_r | reflexivity].
  - rewrite IH, get_fold_agg_step.
    destruct (get k a) as [l|]; simpl.
    + now rewrite app_assoc.
    + destruct (field_contributions k (Agentic.r_fields r)); reflexivity.
Qed.

(** The entry of a field in [aggregated_data] is the list of its
    contributions; a field without contribution has no entry. *)
Lemma get_aggregated_data (k : string) (results : list Agentic.Result) :
  get k (Agentic.aggregated_data results)
  = match contributions k results with
    | [] => None
    | cs => Some cs
    end.
Proof.
  rewrite aggregated_data_fold, get_aggregated_from. simpl.
  now destruct (contributions k results).
Qed.

Lemma NoDup_keys_aggregated (results : list Agentic.Result) :
  NoDup (keys (Agentic.aggregated_data results)).
Proof.
  rewrite aggregated_data_fold.
  assert (H0 : NoDup (keys (@nil (string * list string)))) by constructor.
  revert H0. generalize (@nil (string * list string)) as a.
  induction results as [|r results IH]; intros a Ha; simpl; [exact Ha|].
  apply IH. generalize (Agentic.r_fields r) as fields. intros fields.
  revert a Ha. induction fields as [|fv fields IHf]; intros a Ha; simpl;
    [exact Ha|].
  apply IHf. unfold agg_step. destruct (Agentic.contributes fv); [|exact Ha].
  now apply NoDup_keys_setdefault_append.
Qed.

Lemma In_get {V} (k : string) (v : V) (d : dict V) :
  NoDup (keys d) -> In (k, v) d -> get k d = Some v.
Proof.
  unfold keys. induction d as [|[k0 v0] d IH]; simpl; intros Hnd Hin; [easy|].
  inversion Hnd as [|? ? Hn Hnd']; subst.
  destruct Hin as [[= -> ->] | Hin].
  - now rewrite String.eqb_refl.
  - destruct (String.eqb k0 k) eqn:E.
    + apply String.eqb_eq in E. subst k0. exfalso. apply Hn.
      change k with (fst (k, v)). now apply in_map.
    + now apply IH.
Qed.

Lemma aggregated_nonempty (results : list Agentic.Result) (f : string)
      (vs : list string) :
  In (f, vs) (Agentic.aggregated_data results) ->
  vs = contributions f results /\ vs <> [].
Proof.
  intros Hin.
  apply In_get in Hin; [|apply NoDup_keys_aggregated].
  rewrite get_aggregated_data in Hin.
  destruct (contributions f results) as [|c cs]; [discriminate|].
  injection Hin as <-. split; [reflexivity | discriminate].
Qed.

End AggregateFacts.

Section ConsistencyFacts.
Import Py.

Lemma fold_left_Qplus (l : list Q) (a : Q) :
  (fold_left Qplus l a == a + fold_left Qplus l 0)%Q.
Proof.
  revert a. induction l as [|x l IH]; intros a; simpl.
  - ring.
  - rewrite (IH (a + x)%Q), (IH (0 + x)%Q). ring.
Qed.

Lemma Qsum_cons (x : Q) (l : list Q) : (Qsum (x :: l) == x + Qsum l)%Q.
Proof.
  unfold Qsum. simpl. rewrite fold_left_Qplus. ring.
Qed.

Lemma Qlen_cons {A} (x : A) (l : list A) : (Qlen (x :: l) == 1 + Qlen l)%Q.
Proof.
  unfold Qlen. simpl List.length. rewrite Nat2Z.inj_succ, <- Z.add_1_l.
  now rewrite inject_Z_plus.
Qed.

Lemma Qlen_nonneg {A} (l : list A) : (0 <= Qlen l)%Q.
Proof.
  unfold Qlen. change 0%Q with (inject_Z 0). rewrite <- Zle_Qle. lia.
Qed.

(** A sum of numbers that are at most 1 reaches the number of its terms
    only when every term is 1. *)
Lemma Qsum_full (l : list Q) :
  (forall x, In x l -> (x <= 1)%Q) ->
  (Qsum l <= Qlen l)%Q
  /\ ((Qsum l == Qlen l)%Q <-> forall x, In x l -> (x == 1)%Q).
Proof.
  induction l as [|y l IH]; intros Hle.
  - split; [apply Qle_refl|]. split; [intros _ x [] | reflexivity].
  - assert (Hy : (y <= 1)%Q) by (apply Hle; now left).
    destruct IH as [IHle IHeq]; [intros x Hx; apply Hle; now right|].
    pose proof (Qsum_cons y l) as Hs. pose proof (Qlen_cons y l) as Hl.
    split; [lra|]. split.
    + intros Heq x [<- | Hx]; [lra|]. apply IHeq; [lra | exact Hx].
    + intros Hall.
      assert (H1 : (y == 1)%Q) by (apply Hall; now left).
      assert (H2 : (Qsum l == Qlen l)%Q)
        by (apply IHeq; intros x Hx; apply Hall; now right).
      lra.
Qed.

Lemma distinct_nonempty (vs : list string) :
  vs <> [] -> (1 <= List.length (Agentic.distinct vs))%nat.
Proof.
  destruct vs as [|v vs]; [congruence|]. intros _.
  assert (Hin : In v (Agentic.distinct (v :: vs)))
    by (apply nodup_In; now left).
  destruct (Agentic.distinct (v :: vs)); [destruct Hin | simpl; lia].
Qed.

Lemma distinct_one_agree (vs : list string) :
  vs <> [] ->
  (List.length (Agentic.distinct vs) = 1%nat <-> agree vs).
Proof.
  intros Hne. unfold agree. split.
  - intros Hlen.
    destruct (Agentic.distinct vs) as [|v [|w l]] eqn:E; try discriminate.
    exists v. intros x Hx.
    assert (Hin : In x (Agentic.distinct vs)) by now apply nodup_In.
    rewrite E in Hin. destruct Hin as [-> | []]. reflexivity.
  - intros [v Hv].
    pose proof (distinct_nonempty vs Hne) as Hge.
    pose proof (NoDup_nodup string_dec vs) as Hnd.
    fold (Agentic.distinct vs) in Hnd.
    destruct (Agentic.distinct vs) as [|a [|b l]] eqn:E; simpl in *;
      [lia | reflexivity |].
    assert (Ha : a = v).
    { apply Hv. apply (nodup_In string_dec). fold (Agentic.distinct vs).
      rewrite E. now left. }
    assert (Hb : b = v).
    { apply Hv. apply (nodup_In string_dec). fold (Agentic.distinct vs).
      rewrite E. right. now left. }
    subst. inversion Hnd as [|? ? Hn _]. exfalso. apply Hn. now left.
Qed.

Lemma field_consistency_spec (vs : list string) :
  Agentic.field_consistency vs
  = spec_field_consistency (List.length (Agentic.distinct vs)) (List.length vs).
Proof. reflexivity. Qed.

Lemma field_consistency_le_1 (vs : list string) :
  vs <> [] ->
  (Agentic.field_consistency vs <= 1)%Q
  /\ ((Agentic.field_consistency vs == 1)%Q <-> agree vs).
Proof.
  intros Hne. rewrite <- (distinct_one_agree vs Hne).
  pose proof (distinct_nonempty vs Hne) as Hge.
  unfold Agentic.field_consistency.
  set (u := List.length (Agentic.distinct vs)) in *.
  set (b := Z.max 1 (Z.of_nat (List.length vs) - 1)).
  assert (Hb : (0 < inject_Z b)%Q).
  { change 0%Q with (inject_Z 0). rewrite <- Zlt_Qlt. unfold b. lia. }
  assert (Ha : (0 <= inject_Z (Z.of_nat u - 1))%Q).
  { change 0%Q with (inject_Z 0). rewrite <- Zle_Qle. lia. }
  assert (Hq : (0 <= inject_Z (Z.of_nat u - 1) / inject_Z b)%Q).
  { apply Qle_shift_div_l; [exact Hb | lra]. }
  assert (Hm : (inject_Z (Z.of_nat u - 1) / inject_Z b * inject_Z b
                == inject_Z (Z.of_nat u - 1))%Q).
  { field. lra. }
  split; [lra|]. split.
  - intros H1.
    assert (H0 : (inject_Z (Z.of_nat u - 1) / inject_Z b == 0)%Q) by lra.
    rewrite H0 in Hm.
    assert (Hz : (inject_Z (Z.of_nat u - 1) == inject_Z 0)%Q)
      by (rewrite <- Hm; change (inject_Z 0) with 0%Q; ring).
    pose proof (proj1 (inject_Z_injective _ _) Hz) as Hz'. lia.
  - intros ->. simpl. change (inject_Z 0) with 0%Q. field. lra.
Qed.

End ConsistencyFacts.

Section ConsistencyClaim.
Import Py.

Lemma score_nonempty (kv : string * list string) (agg : dict (list string)) :
  Agentic._calculate_consistency_score (kv :: agg)
  = (Qsum (map (fun kv => Agentic.field_consistency (snd kv)) (kv :: agg))
     / Qlen (map (fun kv => Agentic.field_consistency (snd kv)) (kv :: agg)))%Q.
Proof. reflexivity. Qed.

(** C6. The entries of the aggregated data are the fields that received at
    least one contribution, each with its contributions. Without any such
    field the consistency score is 0; otherwise it is the mean over these
    fields of 1 - (distinct - 1) / max(1, total - 1), and it is 1 exactly
    when the contributions of every field agree. *)
Theorem consistency_score_is_mean (results : list Agentic.Result) :
  let agg := Agentic.aggregated_data results in
  (forall f, get f agg = match contributions f results with
                         | [] => None
                         | cs => Some cs
                         end)
  /\ match agg with
     | [] => Agentic._calculate_consistency_score agg = 0%Q
     | _ =>
         (Agentic._calculate_consistency_score agg
          == Qsum (map (fun kv =>
                          spec_field_consistency
                            (List.length (Agentic.distinct (snd kv)))
                            (List.length (snd kv))) agg)
             / Qlen agg)%Q
         /\ ((Agentic._calculate_consistency_score agg == 1)%Q
             <-> forall f vs, In (f, vs) agg -> agree vs)
     end.
Proof.
  intros agg. split; [intros f; apply get_aggregated_data|].
  pose proof (aggregated_nonempty results) as Hne. fold agg in Hne.
  destruct agg as [|kv agg']; [reflexivity|].
  set (agg := kv :: agg') in *.
  set (scores := map (fun kv => Agentic.field_consistency (snd kv)) agg).
  assert (Hscore : Agentic._calculate_consistency_score agg
                   = (Qsum scores / Qlen scores)%Q) by reflexivity.
  assert (Hlen : Qlen scores = Qlen agg)
    by (unfold Qlen, scores; now rewrite length_map).
  assert (Hpos : (0 < Qlen agg)%Q).
  { pose proof (Qlen_cons kv agg') as H1. pose proof (Qlen_nonneg agg') as H2.
    fold agg in H1. lra. }
  assert (Hle : forall x, In x scores -> (x <= 1)%Q).
  { intros x Hx. apply in_map_iff in Hx. destruct Hx as ([f vs] & <- & Hin).
    apply field_consistency_le_1. now apply (Hne f vs). }
  destruct (Qsum_full scores Hle) as [_ Hfull].
  rewrite Hscore, Hlen in *. split; [reflexivity|].
  assert (Hdiv : (Qsum scores / Qlen agg == 1)%Q <-> (Qsum scores == Qlen agg)%Q).
  { split; intros H.
    - assert (Hm : (Qsum scores == Qsum scores / Qlen agg * Qlen agg)%Q)
        by (field; lra).
      rewrite Hm, H. ring.
    - rewrite H. field. lra. }
  rewrite Hdiv, Hfull. split.
  - intros Hall f vs Hin.
    apply (field_consistency_le_1 vs); [now apply (Hne f vs)|].
    apply Hall. unfold scores. apply in_map_iff. now exists (f, vs).
  - intros Hall x Hx. apply in_map_iff in Hx. destruct Hx as ([f vs] & <- & Hin).
    apply field_consistency_le_1; [now apply (Hne f vs)|].
    now apply (Hall f vs).
Qed.

End ConsistencyClaim.

(** *** Batch drivers *)

Section BatchFacts.

Lemma successes_app {A} (l l' : list (result A)) :
  successes (l ++ l') = successes l ++ successes l'.
Proof.
  induction l as [|[a|e] l IH]; simpl; [reflexivity | now rewrite IH | exact IH].
Qed.

Lemma length_outcomes {A} (l : list (result A)) :
  (List.length (successes l) + List.length (failures l) = List.length l)%nat.
Proof.
  induction l as [|[a|e] l IH]; simpl; lia.
Qed.

Lemma concat_batches {A} (fuel size : nat) (records : list A) :
  (1 <= size)%nat -> (List.length records <= fuel)%nat ->
  concat (Production.batches fuel size records) = records.
Proof.
  intros Hsize. revert records.
  induction fuel as [|fuel IH]; intros records Hlen.
  - destruct records; [reflexivity | simpl in Hlen; lia].
  - destruct records as [|r records]; [reflexivity|].
    cbn [Production.batches concat]. rewrite IH.
    + apply firstn_skipn.
    + rewrite length_skipn. simpl in Hlen.
      change (List.length (r :: records)) with (S (List.length records)). lia.
Qed.

Lemma separate_spec (enrich_results : list (result Production.EnrichedFranchiseeRecord))
      (m : Production.Metrics) :
  Production.separate enrich_results m
  = (successes enrich_results,
     Production.mkMetrics
       (Production.total_records_processed m)
       (Production.successful_enrichments m + List.length (successes enrich_results))
       (Production.failed_enrichments m + List.length (failures enrich_results))).
Proof.
  revert m. induction enrich_results as [|[a|e] l IH]; intros m; simpl.
  - destruct m. simpl. now rewrite !Nat.add_0_r.
  - rewrite IH. simpl. f_equal. f_equal; lia.
  - rewrite IH. simpl. f_equal. f_equal; lia.
Qed.

Lemma run_batches_spec (enrich : FranchiseeRecord -> result Production.EnrichedFranchiseeRecord)
      (bs : list (list FranchiseeRecord)) (m : Production.Metrics) :
  Production.run_batches enrich bs m
  = (successes (map enrich (concat bs)),
     Production.mkMetrics
       (Production.total_records_processed m)
       (Production.successful_enrichments m
        + List.length (successes (map enrich (concat bs))))
       (Production.failed_enrichments m
        + List.length (failures (map enrich (concat bs))))).
Proof.
  revert m. induction bs as [|batch bs IH]; intros m; simpl.
  - destruct m. simpl. now rewrite !Nat.add_0_r.
  - rewrite separate_spec, IH. simpl.
    rewrite map_app, successes_app. f_equal. f_equal.
    + rewrite length_app. lia.
    + assert (Hf : forall (l l' : list (result Production.EnrichedFranchiseeRecord)),
                 failures (l ++ l') = failures l ++ failures l').
      { intros l l'. induction l as [|[a|e] l IHl]; simpl;
          [reflexivity | exact IHl | now rewrite IHl]. }
      rewrite Hf, length_app. lia.
Qed.

Lemma length_apply_sample {A} (n : option Z) (records : list A) :
  (List.length (Production.apply_sample n records) <= List.length records)%nat.
Proof.
  unfold Production.apply_sample. destruct n as [n|]; [|lia].
  destruct (negb (n =? 0)%Z && (n <? Z.of_nat (List.length records))%Z); [|lia].
  rewrite length_firstn. lia.
Qed.

Lemma process_records_agentic_map ces cis so el ts (records : list FranchiseeRecord) :
  Agentic.process_records_agentic ces cis so el ts records
  = map (Agentic.process_one ces cis so el ts) records.
Proof.
  induction records as [|r records IH]; simpl; [reflexivity | now rewrite IH].
Qed.

End BatchFacts.

Section BatchClaim.
Import Py Config.

Lemma degraded_fields (r : FranchiseeRecord) (e : exn) (t : Q) :
  Agentic.ar_fields (Agentic.degraded r e t) = record_items r
  /\ Agentic.agent_confidence (Agentic.degraded r e t) = 0%Q
  /\ Agentic.agent_reasoning (Agentic.degraded r e t)
     = ("Error: " ++ exn_message e)%string.
Proof. now repeat split. Qed.

(** C1, as the code has it. The agentic driver returns one result per input
    record, at the same position; a record whose pipeline raises [e] gets
    the degraded result: the original fields, confidence 0 and the reasoning
    "Error: " followed by the message of [e]. The production driver, with a
    positive batch size, returns the enriched records of those records,
    among the ones the sample limit keeps, whose enrichment did not raise,
    in input order; the others are counted in failed_enrichments and have no
    output entry. *)
Theorem one_result_per_record
        (call_business : string -> FranchiseeRecord -> EntityType -> result Agentic.SourceData)
        (call_individual : string -> FranchiseeRecord -> string -> string -> result Agentic.SourceData)
        (set_order : list string -> list string)
        (elapsed : FranchiseeRecord -> Q) (timestamp : FranchiseeRecord -> string)
        (enrich : FranchiseeRecord -> result Production.EnrichedFranchiseeRecord)
        (p : Production.Pipeline) (records : list FranchiseeRecord)
        (Hbatch : (0 < batch_size (processing (Production.config p)))%Z) :
  let run := Agentic.record_pipeline call_business call_individual set_order
                                     elapsed timestamp in
  let out := Agentic.process_records_agentic call_business call_individual
                                             set_order elapsed timestamp records in
  let sampled :=
    Production.apply_sample (sample_size (processing (Production.config p))) records in
  (List.length out = List.length records
   /\ forall i r, nth_error records i = Some r ->
        exists res, nth_error out i = Some res
          /\ (forall v, run r = inl v -> res = v)
          /\ (forall e, run r = inr e ->
                res = Agentic.degraded r e (elapsed r)
                /\ Agentic.ar_fields res = record_items r
                /\ Agentic.agent_confidence res = 0%Q
                /\ Agentic.agent_reasoning res = ("Error: " ++ exn_message e)%string))
  /\ exists p',
       Production.process_records enrich p records
       = inl (successes (map enrich sampled), p')
       /\ Production.failed_enrichments (Production.performance_metrics p')
          = (Production.failed_enrichments (Production.performance_metrics p)
             + List.length (failures (map enrich sampled)))%nat
       /\ (List.length (successes (map enrich sampled))
           + List.length (failures (map enrich sampled))
           = List.length sampled)%nat
       /\ (List.length sampled <= List.length records)%nat.
Proof.
  intros run out sampled. split.
  - unfold out. rewrite process_records_agentic_map. split.
    + apply length_map.
    + intros i r Hi. eexists. split.
      * rewrite nth_error_map, Hi. reflexivity.
      * unfold Agentic.process_one. fold run. split.
        -- intros v ->. reflexivity.
        -- intros e ->. repeat split.
  - unfold Production.process_records. fold sampled.
    destruct (batch_size (processing (Production.config p)) =? 0)%Z eqn:E0;
      [apply Z.eqb_eq in E0; lia|].
    destruct (batch_size (processing (Production.config p)) <? 0)%Z eqn:E1;
      [apply Z.ltb_lt in E1; lia|].
    rewrite run_batches_spec, concat_batches; [|lia|lia].
    eexists. split; [reflexivity|]. split; [|split].
    + simpl. now destruct (successes (map enrich sampled)).
    + rewrite length_outcomes. apply length_map.
    + apply length_apply_sample.
Qed.

Lemma one_result_per_record_witness :
  exists p',
    Production.process_records Examples.failing_enrich Examples.default_pipeline
                               [Examples.golden_chick; Examples.john_smith]
    = inl (successes (map Examples.failing_enrich
                          [Examples.golden_chick; Examples.john_smith]), p').
Proof.
  destruct (one_result_per_record
              Examples.simulated_business Examples.simulated_individual
              Examples.first_seen_order Examples.no_clock Examples.no_timestamp
              Examples.failing_enrich Examples.default_pipeline
              [Examples.golden_chick; Examples.john_smith] eq_refl)
    as [_ [p' [H _]]].
  exists p'. exact H.
Defined.

(** C1 as stated fails for the production driver: a record whose enrichment
    raises is left out of the output, and a sample limit cuts the input. *)
Lemma process_records_drops_records :
  (Production.process_records Examples.failing_enrich Examples.default_pipeline
                              [Examples.john_smith]
   = inl ([], Production.mkPipeline Examples.default_config
                                    (Production.mkMetrics 0 0 1))
   /\ List.length (@nil Production.EnrichedFranchiseeRecord)
      <> List.length [Examples.john_smith])
  /\ (exists out p',
        Production.process_records Examples.plain_enrich Examples.sample_pipeline
                                   [Examples.golden_chick; Examples.john_smith]
        = inl (out, p')
        /\ List.length out = 1%nat
        /\ List.length [Examples.golden_chick; Examples.john_smith] = 2%nat).
Proof.
  split.
  - split; [reflexivity | discriminate].
  - eexists. eexists. split; [reflexivity|]. split; reflexivity.
Qed.

End BatchClaim.

(** *** Retries *)

Section RetryFacts.
Import Py Config.

Lemma attempts_consumed (n : nat) (delay : Q) (idx k : nat) :
  (k <= n)%nat ->
  Production.attempts n delay idx k Production.Consumed
  = (failure_trace n delay idx (n - k)
       (repeat "cannot reuse already awaited coroutine" k), None).
Proof.
  induction k as [|k IH]; intros Hk; [reflexivity|].
  cbn [Production.attempts Production.await repeat failure_trace].
  rewrite IH by lia. replace (n - k)%nat with (S (n - S k)) by lia.
  reflexivity.
Qed.

Lemma attempts_failing (n : nat) (delay : Q) (idx : nat) (e : exn) :
  Production.attempts n delay idx n (Production.Fresh (inr e))
  = (failure_trace n delay idx 0
       (match n with
        | O => []
        | S k => exn_message e :: repeat "cannot reuse already awaited coroutine" k
        end), None).
Proof.
  destruct n as [|k]; [reflexivity|].
  cbn [Production.attempts Production.await failure_trace].
  rewrite attempts_consumed by lia.
  replace (S k - S k)%nat with O by lia.
  replace (S k - k)%nat with 1%nat by lia. reflexivity.
Qed.

Lemma attempts_snd_idx (n : nat) (delay : Q) (i j k : nat) (t : Production.Task) :
  snd (Production.attempts n delay i k t) = snd (Production.attempts n delay j k t).
Proof.
  revert t. induction k as [|k IH]; intros t; [reflexivity|].
  cbn [Production.attempts].
  destruct (Production.await t) as [[res|e] t']; [reflexivity|].
  specialize (IH t').
  destruct (Production.attempts n delay i k t') as [evs out].
  destruct (Production.attempts n delay j k t') as [evs' out'].
  exact IH.
Qed.

Lemma run_tasks_results (n : nat) (delay : Q) (idx : nat)
      (tasks : list Production.Task) (acc : list (dict string) * nat) :
  snd (Production.run_tasks n delay idx tasks acc)
  = fold_left (task_step n delay) tasks acc.
Proof.
  revert idx acc. induction tasks as [|t tasks IH]; intros idx acc; [reflexivity|].
  cbn [Production.run_tasks fold_left].
  pose proof (attempts_snd_idx n delay idx 0 n t) as Hidx.
  unfold task_step at 2.
  destruct (Production.attempts n delay idx n t) as [evs out].
  simpl in Hidx. rewrite <- Hidx.
  specialize (IH (S idx)).
  match goal with
  | |- context [Production.run_tasks n delay (S idx) tasks ?a] =>
      specialize (IH a);
      destruct (Production.run_tasks n delay (S idx) tasks a) as [evs' final]
  end.
  exact IH.
Qed.

Lemma task_step_failing (n : nat) (delay : Q) (acc : list (dict string) * nat)
      (e : exn) :
  task_step n delay acc (Production.Fresh (inr e)) = acc.
Proof.
  unfold task_step. now rewrite attempts_failing.
Qed.

End RetryFacts.

Section ExecutorFacts.
Import Py.

(** A source that raises is called once and ends the loop: the sources
    after it are not called and the node raises. *)
Lemma run_sources_raises (call : string -> result Agentic.SourceData)
      (priority : string) (default : Q) (before after : list string)
      (s : string) (e : exn) (st : Agentic.EnrichmentState) :
  (forall x, In x before -> exists d, call x = inl d) ->
  call s = inr e ->
  Agentic.run_sources call priority default (before ++ s :: after) st
  = (before ++ [s], inr e).
Proof.
  intros Hok Hs. revert st.
  induction before as [|b before IH]; intros st; simpl.
  - now rewrite Hs.
  - destruct (Hok b (or_introl eq_refl)) as [d ->].
    rewrite IH; [reflexivity|]. intros x Hx. apply Hok. now right.
Qed.

(** The business executor calls its fallback sources exactly when the mean
    of the confidence scores, 0 when there is none, is below the threshold. *)
Lemma business_fallback_iff
      (call_business : string -> FranchiseeRecord -> EntityType
                       -> result Agentic.SourceData)
      (st st1 : Agentic.EnrichmentState) (strategy : Agentic.Strategy)
      (called : list string) :
  Agentic.enrichment_strategy st = Some strategy ->
  Agentic.run_sources (fun source => call_business source (Agentic.record st) business)
                      "primary" 0.7 (Agentic.primary_sources strategy) st
  = (called, inl st1) ->
  fst (Agentic._execute_business_enrichment call_business st)
  = called
      ++ (if Agentic.Qltb (Agentic.average (Agentic.confidence_scores st1))
                          (Agentic.confidence_threshold strategy)
          then fst (Agentic.run_sources
                      (fun source => call_business source (Agentic.record st) business)
                      "fallback" 0.6 (Agentic.fallback_sources strategy) st1)
          else []).
Proof.
  intros Hs Hrun. unfold Agentic._execute_business_enrichment.
  rewrite Hs, Hrun.
  destruct (Agentic.Qltb _ _).
  - now destruct (Agentic.run_sources _ "fallback" _ _ st1).
  - simpl. now rewrite app_nil_r.
Qed.

End ExecutorFacts.

Section RetryClaim.
Import Py Config.

Lemma failure_trace_shape (n : nat) (delay : Q) (idx : nat) (causes : list string)
      (a : nat) :
  (a + List.length causes = n)%nat ->
  awaits (failure_trace n delay idx a causes) = seq a (List.length causes)
  /\ sleeps (failure_trace n delay idx a causes) = repeat delay (n - 1 - a)
  /\ error_logs (failure_trace n delay idx a causes)
     = match causes with [] => O | _ => 1%nat end.
Proof.
  revert a. induction causes as [|c causes IH]; intros a Hlen.
  - simpl in *. replace (n - 1 - a)%nat with O by lia. now repeat split.
  - simpl in Hlen. destruct (IH (S a)) as (Ha & Hs & He); [lia|].
    cbn [failure_trace awaits sleeps error_logs List.length seq].
    destruct (a <? n - 1)%nat eqn:E.
    + apply Nat.ltb_lt in E. cbn [awaits sleeps error_logs].
      rewrite Ha, Hs, He. repeat split.
      * replace (n - 1 - a)%nat with (S (n - 1 - S a)) by lia. reflexivity.
      * destruct causes; [simpl in Hlen; lia | reflexivity].
    + apply Nat.ltb_ge in E. cbn [awaits sleeps error_logs].
      rewrite Ha, Hs, He. repeat split.
      * replace (n - 1 - a)%nat with O by lia.
        replace (n - 1 - S a)%nat with O by lia. reflexivity.
      * destruct causes; [reflexivity | simpl in Hlen; lia].
Qed.

(** C8, as the code has it. In the production task loop a task whose
    operation fails is awaited [max_retries] times, attempts 0 to
    max_retries - 1, with the configured retry delay slept between two
    attempts; the error is then logged once, the task gives no result, and
    the loop goes on: the results and the count of sources used are those
    of the other tasks. (The loop catches every exception, so the model has
    no error outcome.) In the agentic executors a source that raises has
    been called once, the sources after it are not called, and the
    exception leaves the loop. *)
Theorem failing_task_retried_then_skipped (cfg : PipelineConfig)
        (before after : list (result (dict string))) (e : exn) (idx : nat)
        (Hretries : (0 < max_retries (processing cfg))%Z) :
  let n := Z.to_nat (max_retries (processing cfg)) in
  let delay := retry_delay_seconds (processing cfg) in
  let log := fst (Production.attempts n delay idx n (Production.Fresh (inr e))) in
  (awaits log = seq 0 n
   /\ sleeps log = repeat delay (n - 1)
   /\ error_logs log = 1%nat
   /\ snd (Production.attempts n delay idx n (Production.Fresh (inr e))) = None
   /\ snd (Production._execute_enrichment_tasks cfg (before ++ inr e :: after))
      = snd (Production._execute_enrichment_tasks cfg (before ++ after)))
  /\ forall call priority default earlier later source st,
       (forall x, In x earlier -> exists d, call x = inl d) ->
       call source = inr e ->
       Agentic.run_sources call priority default (earlier ++ source :: later) st
       = (earlier ++ [source], inr e).
Proof.
  cbv zeta. split; [|intros; now apply run_sources_raises].
  unfold Production._execute_enrichment_tasks.
  remember (Z.to_nat (max_retries (processing cfg))) as n eqn:En.
  set (delay := retry_delay_seconds (processing cfg)).
  rewrite attempts_failing.
  destruct n as [|k]; [lia|]. cbn [fst snd].
  destruct (failure_trace_shape (S k) delay idx
              (exn_message e :: repeat "cannot reuse already awaited coroutine" k) 0)
    as (Ha & Hs & He).
  { simpl. now rewrite repeat_length. }
  rewrite Ha, Hs, He. simpl List.length. rewrite repeat_length.
  replace (S k - 1 - 0)%nat with (S k - 1)%nat by lia.
  repeat split.
  rewrite !run_tasks_results, !map_app, !fold_left_app. simpl.
  now rewrite task_step_failing.
Qed.

Lemma failing_task_retried_then_skipped_witness :
  snd (Production._execute_enrichment_tasks Examples.default_config
         ([inl [("corporate_name", "Golden Chick Enterprises LLC")]]
            ++ inr (RuntimeError "connection reset")
            :: [inl [("corporate_phone", "214-555-0100")]]))
  = snd (Production._execute_enrichment_tasks Examples.default_config
           ([inl [("corporate_name", "Golden Chick Enterprises LLC")]]
              ++ [inl [("corporate_phone", "214-555-0100")]])).
Proof.
  refine (proj2 (proj2 (proj2 (proj2 (proj1
    (failing_task_retried_then_skipped Examples.default_config
       [inl [("corporate_name", "Golden Chick Enterprises LLC")]]
       [inl [("corporate_phone", "214-555-0100")]]
       (RuntimeError "connection reset") 1 eq_refl)))))).
Defined.

(** C8 as stated fails for the agentic executor: the places lookup fails,
    is called once, and its exception leaves the node; the record ends as a
    degraded result without the fields the registry had contributed. *)
Lemma agentic_source_failure_aborts_record :
  Agentic._execute_business_enrichment Examples.places_down
    (Examples.planned_state Examples.golden_chick)
  = (["business_registry"; "google_places"],
     inr (RuntimeError "places lookup timed out"))
  /\ Agentic.process_one Examples.places_down Examples.simulated_individual
       Examples.first_seen_order Examples.no_clock Examples.no_timestamp
       Examples.golden_chick
     = Agentic.degraded Examples.golden_chick
         (RuntimeError "places lookup timed out") 0.
Proof.
  split; reflexivity.
Qed.

End RetryClaim.

(** *** Fallback sources *)

Section FallbackFacts.
Import Py.

Lemma run_sources_called (call : string -> result Agentic.SourceData)
      (priority : string) (default : Q) (sources : list string)
      (st : Agentic.EnrichmentState) (s : string) :
  In s (fst (Agentic.run_sources call priority default sources st)) ->
  In s sources.
Proof.
  revert st. induction sources as [|src sources IH]; intros st; simpl; [easy|].
  destruct (call src) as [res|e]; simpl.
  - match goal with
    | |- context [Agentic.run_sources call priority default sources ?st'] =>
        specialize (IH st');
        destruct (Agentic.run_sources call priority default sources st')
          as [called out]
    end.
    simpl in *. intros [H|H]; [now left | right; now apply IH].
  - intros [H|[]]. now left.
Qed.

(** The individual executor calls primary sources only, whatever the
    confidences that come back. *)
Lemma individual_calls_only_primary
      (call_individual : string -> FranchiseeRecord -> string -> string
                         -> result Agentic.SourceData)
      (st : Agentic.EnrichmentState) (strategy : Agentic.Strategy) (s : string) :
  Agentic.enrichment_strategy st = Some strategy ->
  In s (fst (Agentic._execute_individual_enrichment call_individual st)) ->
  In s (Agentic.primary_sources strategy).
Proof.
  unfold Agentic._execute_individual_enrichment. intros ->.
  destruct (Agentic.parse_name (franchisee (Agentic.record st))) as [fn ln].
  apply run_sources_called.
Qed.

(** C4 at failing inputs. "John Smith" is an individual whose two primary
    sources answer with confidence 0.5; the mean 0.5 is below the threshold
    0.7 of the strategy, yet the sources called are the primary ones and
    neither people_search nor social_media. The same holds with the
    repository's simulated sources (mean 0.8) under a threshold of 0.9. The
    business executor, given answers of confidence 0.5, does go on to its
    fallback sources. *)
Theorem individual_fallback_not_invoked :
  let strategy :=
    Agentic.plan (Agentic.classify "John Smith") Examples.john_smith in
  let run :=
    Agentic._execute_individual_enrichment
      Examples.weak_individual (Examples.planned_state Examples.john_smith) in
  let run' :=
    Agentic._execute_individual_enrichment
      Examples.simulated_individual Examples.strict_individual_state in
  Agentic.cls_type (Agentic.classify "John Smith") = individual
  /\ Agentic.fallback_sources strategy = ["people_search"; "social_media"]
  /\ fst run = ["linkedin_individual"; "google_search"]
  /\ (exists st,
        snd run = inl st
        /\ Agentic.confidence_scores st = [0.5%Q; 0.5%Q]
        /\ Agentic.Qltb (Agentic.average (Agentic.confidence_scores st))
                        (Agentic.confidence_threshold strategy) = true)
  /\ fst run' = ["linkedin_individual"; "google_search"]
  /\ (exists st,
        snd run' = inl st
        /\ Agentic.confidence_scores st = [0.85%Q; 0.75%Q]
        /\ Agentic.Qltb (Agentic.average (Agentic.confidence_scores st)) 0.9 = true)
  /\ fst (Agentic._execute_business_enrichment
            Examples.weak_business (Examples.planned_state Examples.golden_chick))
     = ["business_registry"; "google_places";
        "corporate_database"; "linkedin_company"].
Proof.
  cbv zeta. repeat split; try reflexivity.
  - eexists. split; [reflexivity|]. split; reflexivity.
  - eexists. split; [reflexivity|]. split; reflexivity.
Qed.

(** *** Score ranges *)

(** C3 at a failing input. Three business sources that agree fill seven
    distinct fields for "Golden Chick Enterprises LLC": the completeness
    term is 7/6 and the agent confidence of the record is 1.003. With the
    repository's own simulated sources the quality score of the same record,
    the mean of the four metrics with the source count among them, is 1.131. *)
Theorem agent_confidence_above_one :
  let res :=
    Agentic.process_one Examples.rich_business Examples.simulated_individual
      Examples.first_seen_order Examples.no_clock Examples.no_timestamp
      Examples.golden_chick in
  Agentic.agent_confidence res = 1.003%Q
  /\ Agentic.data_sources_consulted res = 3%nat
  /\ ~ (Agentic.agent_confidence res <= 1)%Q
  /\ Agentic.quality_score
       (Examples.run_simulated Examples.first_seen_order Examples.golden_chick)
     = 1.131%Q
  /\ ~ (1.131 <= 1)%Q.
Proof.
  cbv zeta. repeat split; try reflexivity.
  - vm_compute. intros H. apply H. reflexivity.
  - vm_compute. intros H. apply H. reflexivity.
Qed.

End FallbackFacts.

(** *** Conflict resolution *)

Section ResolveFacts.
Import Py.

(** [reversed_order] is an order in which a set can yield its elements. *)
Lemma reversed_order_is_set_order (l : list string) :
  Permutation (Examples.reversed_order l) (Agentic.distinct l).
Proof.
  unfold Examples.reversed_order. apply Permutation_sym, Permutation_rev.
Qed.

(** C2 at failing inputs, the nodes called one on the state the other
    returned. When the registry answers last, after two sources that agree
    with each other, the field has two distinct values and three source
    labels: the registry's position, 2, is past the end of the value list
    and resolution raises IndexError, in every iteration order of the value
    set. On the state the business executor returns over the repository's
    own simulated sources the registry answers first, its position is 0,
    and the winner is whichever value the set yields first: validated under
    the order [reversed_order], resolved and finalized, the record holds
    the places value "Verified: ..." and not the registry's
    "Registered: ...". *)
Theorem registry_value_not_preferred (set_order : list string -> list string)
        (Hset : forall l, Permutation (set_order l) (Agentic.distinct l)) :
  (st <- Agentic._validate_and_score_results set_order Examples.late_registry_state ;;
   Agentic._resolve_data_conflicts st) = inr IndexError
  /\ contributions "corporate_address"
       [Agentic.mkResult
          (Agentic.sd_fields
             (Agentic._call_enrichment_source "business_registry"
                                              Examples.golden_chick business))
          (Some 0.9%Q) "business_registry" "primary"]
     = ["Registered: 1 Main St, Dallas, TX 75001"]
  /\ (executed <- snd (Agentic._execute_business_enrichment
                         Examples.simulated_business
                         (Examples.planned_state Examples.golden_chick)) ;;
      scored <- Agentic._validate_and_score_results Examples.reversed_order executed ;;
      resolved <- Agentic._resolve_data_conflicts scored ;;
      final <- Agentic._finalize_enrichment_result resolved ;;
      ok (final_field "corporate_address" final))
     = ok (Some "Verified: 1 Main St, Dallas, TX 75001").
Proof.
  split; [|split; reflexivity].
  unfold Agentic._validate_and_score_results.
  assert (Hagg : Agentic.aggregated_data
                   (Agentic.enrichment_results Examples.late_registry_state)
                 = [("corporate_address",
                     ["1 Main St, Dallas, TX 75001"; "1 Main St, Dallas, TX 75001";
                      "1 Main Street, Dallas, TX 75001"])]) by reflexivity.
  assert (Hfs : Agentic.field_sources
                  (Agentic.enrichment_results Examples.late_registry_state)
                = [("corporate_address",
                    ["google_places"; "corporate_database"; "business_registry"])])
    by reflexivity.
  rewrite Hagg, Hfs.
  assert (Hst : Agentic.stability
                  (Agentic.confidence_scores Examples.late_registry_state)
                = ok (0.7 / 0.9)%Q) by reflexivity.
  rewrite Hst. unfold bind at 2. unfold ok at 1. unfold bind.
  unfold Agentic.find_conflicts. cbn [fold_left snd fst].
  pose proof (Permutation_length
                (Hset ["1 Main St, Dallas, TX 75001"; "1 Main St, Dallas, TX 75001";
                       "1 Main Street, Dallas, TX 75001"])) as Hlen.
  change (List.length (Agentic.distinct _)) with 2%nat in Hlen.
  destruct (set_order _) as [|a [|b [|c u]]]; try discriminate Hlen.
  reflexivity.
Qed.


Lemma registry_value_not_preferred_witness :
  (st <- Agentic._validate_and_score_results Examples.first_seen_order
                                             Examples.late_registry_state ;;
   Agentic._resolve_data_conflicts st) = inr IndexError.
Proof.
  exact (proj1 (registry_value_not_preferred Examples.first_seen_order
                  (fun l => Permutation_refl _))).
Defined.

Lemma update_absent {V} (k : string) (g : V -> V) (d : dict V) :
  get k d = None -> update k g d = d.
Proof.
  unfold update. induction d as [|[k0 v0] d IH]; simpl; [reflexivity|].
  destruct (String.eqb k0 k); [discriminate|].
  intros H. now rewrite IH.
Qed.

Lemma apply_resolved_map (resolved_data fields : dict string) :
  Agentic.apply_resolved resolved_data fields
  = map (resolve_entry resolved_data) fields.
Proof.
  unfold Agentic.apply_resolved. revert fields.
  induction resolved_data as [|[f v] rd IH]; intros fields; simpl.
  - unfold resolve_entry. simpl. now rewrite map_id.
  - rewrite IH.
    assert (Hstep : (if has f fields then set f v fields else fields)
                    = update f (fun _ => v) fields).
    { unfold set, has. destruct (get f fields) eqn:E; [reflexivity|].
      symmetry. now apply update_absent. }
    rewrite Hstep. unfold update. rewrite map_map. apply map_ext.
    intros [k x]. unfold resolve_entry. reflexivity.
Qed.

Lemma resolve_entry_shape (resolved_data : dict string) (k : string) :
  (forall x, resolve_entry resolved_data (k, x) = (k, x))
  \/ (exists c, forall x, resolve_entry resolved_data (k, x) = (k, c)).
Proof.
  unfold resolve_entry.
  induction resolved_data as [|[f v] rd IH]; simpl.
  - left. reflexivity.
  - destruct (String.eqb k f).
    + destruct IH as [Hid | [c Hc]].
      * right. exists v. intros x. apply Hid.
      * right. exists c. intros x. apply Hc.
    + exact IH.
Qed.

Lemma resolve_entry_idempotent (resolved_data : dict string) (kv : string * string) :
  resolve_entry resolved_data (resolve_entry resolved_data kv)
  = resolve_entry resolved_data kv.
Proof.
  destruct kv as [k x].
  destruct (resolve_entry_shape resolved_data k) as [Hid | [c Hc]].
  - now rewrite !Hid.
  - now rewrite !Hc.
Qed.

Lemma update_result_idempotent (resolved_data : dict string) (r : Agentic.Result) :
  Agentic.update_result resolved_data (Agentic.update_result resolved_data r)
  = Agentic.update_result resolved_data r.
Proof.
  unfold Agentic.update_result. simpl. f_equal.
  rewrite !apply_resolved_map, map_map. apply map_ext.
  intros kv. apply resolve_entry_idempotent.
Qed.

(** C7, as the code has it: resolution is a function of the candidate lists
    and the source labels kept in the state, and it is idempotent. When a
    run ends without error, every state with the same conflicts is resolved
    with the same values, and a second run on the resulting state ends
    without error too and changes nothing. *)
Theorem resolve_is_idempotent (st st' : Agentic.EnrichmentState)
        (Hrun : Agentic._resolve_data_conflicts st = inl st') :
  Agentic._resolve_data_conflicts st' = inl st'
  /\ Agentic.conflicts st' = Agentic.conflicts st
  /\ exists resolved_data,
       forall st2, Agentic.conflicts st2 = Agentic.conflicts st ->
         Agentic._resolve_data_conflicts st2
         = inl (Agentic.with_results
                  (map (Agentic.update_result resolved_data)
                       (Agentic.enrichment_results st2)) st2).
Proof.
  unfold Agentic._resolve_data_conflicts in *.
  destruct (Agentic.resolve_all
              match Agentic.conflicts st with Some c => c | None => [] end [])
    as [rd|e] eqn:Hrd; simpl in Hrun; [|discriminate].
  injection Hrun as <-. simpl. rewrite Hrd. simpl. split; [|split].
  - unfold ok. f_equal. unfold Agentic.with_results. simpl. f_equal.
    rewrite map_map. apply map_ext. intros r. apply update_result_idempotent.
  - reflexivity.
  - exists rd. intros st2 ->. now rewrite Hrd.
Qed.

Lemma resolve_is_idempotent_witness :
  exists st',
    Agentic._resolve_data_conflicts Examples.scored_state = inl st'
    /\ Agentic._resolve_data_conflicts st' = inl st'.
Proof.
  eexists. split; [reflexivity|].
  exact (proj1 (resolve_is_idempotent Examples.scored_state _ eq_refl)).
Defined.

(** C7 as stated fails: with the two candidates and their labels swapped,
    the winner changes from the first candidate to the other one. *)
Lemma resolve_depends_on_order :
  Agentic.resolve_conflict ["Dallas, TX"; "1 Main St, Dallas, TX"]
                           ["corporate_database"; "linkedin_company"]
  = inl "Dallas, TX"
  /\ Agentic.resolve_conflict ["1 Main St, Dallas, TX"; "Dallas, TX"]
                              ["linkedin_company"; "corporate_database"]
     = inl "1 Main St, Dallas, TX"
  /\ Permutation
       (combine ["Dallas, TX"; "1 Main St, Dallas, TX"]
                ["corporate_database"; "linkedin_company"])
       (combine ["1 Main St, Dallas, TX"; "Dallas, TX"]
                ["linkedin_company"; "corporate_database"])
  /\ "Dallas, TX" <> "1 Main St, Dallas, TX".
Proof.
  repeat split; try reflexivity.
  - apply perm_swap.
  - discriminate.
Qed.

End ResolveFacts.

(** *** The production scores stay in the unit interval *)

Section ProductionScoreFacts.
Import Py.

Lemma round_half_even_bounds (x : Q) (n : Z) :
  (0 <= n)%Z -> (0 <= x <= inject_Z n)%Q ->
  (0 <= round_half_even x <= n)%Z.
Proof.
  intros Hn [H0 H1]. unfold round_half_even.
  pose proof (Qfloor_resp_le _ _ H0) as Hf0. change (Qfloor 0) with 0%Z in Hf0.
  pose proof (Qfloor_resp_le _ _ H1) as Hf1. rewrite Qfloor_Z in Hf1.
  pose proof (Qfloor_le x) as Hfx.
  assert (Hcase : (Qfloor x < n)%Z \/ Qfloor x = n) by lia.
  destruct Hcase as [Hlt | Heq].
  - destruct (Qcompare_spec (x - inject_Z (Qfloor x)) (1 # 2));
      [destruct (Z.even (Qfloor x))| |]; lia.
  - assert (Hd : (x - inject_Z (Qfloor x) < 1 # 2)%Q).
    { rewrite Heq. rewrite Heq in Hfx. lra. }
    destruct (Qcompare_spec (x - inject_Z (Qfloor x)) (1 # 2)); [lra | lia | lra].
Qed.

Lemma round3_unit (q : Q) : (0 <= q <= 1)%Q -> (0 <= round3 q <= 1)%Q.
Proof.
  intros [H0 H1]. unfold round3.
  destruct (round_half_even_bounds (q * 1000) 1000) as [Hlo Hhi];
    [lia | change (inject_Z 1000) with 1000%Q; split; lra |].
  rewrite Zle_Qle in Hlo, Hhi. change (inject_Z 0) with 0%Q in Hlo.
  change (inject_Z 1000) with 1000%Q in Hhi.
  split.
  - apply Qle_shift_div_l; lra.
  - apply Qle_shift_div_r; lra.
Qed.

Lemma penalty_bounds (c : bool) (p : Q) :
  (0 <= p)%Q -> (0 <= Production.penalty c p <= p)%Q.
Proof.
  intros Hp. unfold Production.penalty. destruct c; lra.
Qed.

(** The data-quality score of the production enricher lies in [0,1]. *)
Lemma data_quality_score_unit (enriched : Production.EnrichedFranchiseeRecord) :
  (0 <= Production._calculate_data_quality_score enriched <= 1)%Q.
Proof.
  unfold Production._calculate_data_quality_score. apply round3_unit.
  unfold Production.raw_quality.
  repeat match goal with
         | |- context [Production.penalty ?c ?p] =>
             let H := fresh "H" in
             assert (H : (0 <= p)%Q) by (unfold Qle; simpl; lia);
             pose proof (penalty_bounds c p H);
             generalize dependent (Production.penalty c p); intros
         end.
  split.
  - apply Q.le_max_l.
  - apply Q.max_lub; lra.
Qed.

(** So does its confidence score, which is cut at 1. *)
Lemma production_confidence_unit (enriched : Production.EnrichedFranchiseeRecord)
      (entity_confidence : Q) :
  (0 <= entity_confidence)%Q ->
  (0 <= Production._calculate_production_confidence_score enriched entity_confidence
     <= 1)%Q.
Proof.
  intros Hc. unfold Production._calculate_production_confidence_score.
  apply round3_unit. split; [|apply Q.le_min_l].
  apply Q.min_glb; [lra|].
  assert (Hb : (0 <= Qmin 0.1 (inject_Z (Z.of_nat (Production.enrichment_sources_used enriched)) * 0.02))%Q).
  { apply Q.min_glb; [lra|].
    assert (H : (0 <= inject_Z (Z.of_nat (Production.enrichment_sources_used enriched)))%Q)
      by (change 0%Q with (inject_Z 0); rewrite <- Zle_Qle; lia).
    nra. }
  assert (Hs : (0 <= Qsum (map (fun fw : string * Q =>
                   if truthy (Production.getattr (fst fw) (Production.attrs enriched))
                   then snd fw else 0) Production.field_weights)
                 / Qsum (map snd Production.field_weights))%Q).
  { apply Qle_shift_div_l; [reflexivity|]. rewrite Qmult_0_l.
    unfold Production.field_weights, Qsum. simpl.
    repeat match goal with
           | |- context [if ?c then _ else _] => destruct c
           end; unfold Qle; simpl; lia. }
  lra.
Qed.


Lemma classify_entity_confidence_nonneg (franchisee_name : string) :
  (0 <= Production.cls_confidence (Production.classify_entity franchisee_name))%Q.
Proof.
  unfold Production.classify_entity.
  set (n := count_in Production.BUSINESS_INDICATORS (upper franchisee_name)).
  destruct (0 <? n)%nat; simpl.
  - apply Q.min_glb; [lra|].
    assert (H : (0 <= inject_Z (Z.of_nat n))%Q)
      by (change 0%Q with (inject_Z 0); rewrite <- Zle_Qle; lia).
    nra.
  - destruct (0 <? _)%nat; simpl; lra.
Qed.

(** Both scores of a record enriched by the production enricher lie in
    [0,1], whatever the sources returned. *)
Lemma enrich_record_scores_unit (config : Config.PipelineConfig)
      (source_outcomes : FranchiseeRecord -> EntityType -> list (result (dict string)))
      (source_urls : FranchiseeRecord -> list string)
      (elapsed : FranchiseeRecord -> Q) (timestamp : FranchiseeRecord -> string)
      (r : FranchiseeRecord) :
  let enriched :=
    snd (Production.enrich_record config source_outcomes source_urls
                                  elapsed timestamp r) in
  (0 <= Production.confidence_score enriched <= 1)%Q
  /\ (0 <= Production.data_quality_score enriched <= 1)%Q.
Proof.
  unfold Production.enrich_record.
  destruct (Production._execute_enrichment_tasks _ _) as [evs [results used]].
  simpl. split.
  - apply production_confidence_unit, classify_entity_confidence_nonneg.
  - apply data_quality_score_unit.
Qed.

End ProductionScoreFacts.

(* ================================================================== *)
(** ** Further properties of the modelled code *)
(* ================================================================== *)

(** *** Classification ranges *)

Section ClassifierRange.
Import Py.

Lemma count_in_pos (pats : list string) (s p : string) :
  In p pats -> str_in p s = true -> (1 <= count_in pats s)%nat.
Proof.
  unfold count_in. induction pats as [|q pats IH]; intros Hin Hs; [destruct Hin|].
  simpl. destruct Hin as [-> | Hin].
  - rewrite Hs. simpl. lia.
  - specialize (IH Hin Hs). destruct (str_in q s); simpl; lia.
Qed.

Lemma business_confidence_range (k : nat) :
  (1 <= k)%nat ->
  (0.8 <= Qmin 0.95 (0.7 + inject_Z (Z.of_nat k) * 0.1) <= 0.95)%Q.
Proof.
  intros Hk.
  assert (H : (1 <= inject_Z (Z.of_nat k))%Q)
    by (change 1%Q with (inject_Z 1); rewrite <- Zle_Qle; lia).
  split; [apply Q.min_glb; lra | apply Q.le_min_l].
Qed.

(** X1. A name whose upper-case form contains one of the legal-entity
    indicators of the agentic list is classified business by both
    classifiers, with a confidence above 0.7 and at most 0.95, whatever
    else the name holds (a comma, two tokens). *)
Theorem business_indicator_dominates (name ind : string)
        (Hind : In ind Agentic.business_indicators)
        (Hsub : str_in ind (upper name) = true) :
  (Agentic.cls_type (Agentic.classify name) = business
   /\ (0.7 < Agentic.cls_confidence (Agentic.classify name))%Q
   /\ (Agentic.cls_confidence (Agentic.classify name) <= 0.95)%Q)
  /\ (Production.cls_type (Production.classify_entity name) = business
      /\ (0.7 < Production.cls_confidence (Production.classify_entity name))%Q
      /\ (Production.cls_confidence (Production.classify_entity name) <= 0.95)%Q).
Proof.
  assert (Hprod : In ind Production.BUSINESS_INDICATORS).
  { simpl in Hind. simpl.
    repeat (destruct Hind as [<- | Hind]; [tauto|]). destruct Hind. }
  pose proof (count_in_pos _ _ _ Hind Hsub) as Ha.
  pose proof (count_in_pos _ _ _ Hprod Hsub) as Hp.
  split.
  - unfold Agentic.classify.
    destruct (0 <? count_in Agentic.business_indicators (upper name))%nat eqn:E;
      [|apply Nat.ltb_ge in E; lia].
    simpl. destruct (business_confidence_range _ Ha) as [Hlo Hhi].
    split; [reflexivity | split; [lra | exact Hhi]].
  - unfold Production.classify_entity.
    destruct (0 <? count_in Production.BUSINESS_INDICATORS (upper name))%nat eqn:E;
      [|apply Nat.ltb_ge in E; lia].
    simpl. destruct (business_confidence_range _ Hp) as [Hlo Hhi].
    split; [reflexivity | split; [lra | exact Hhi]].
Qed.

Lemma business_indicator_dominates_witness :
  Agentic.cls_type (Agentic.classify "Lincoln, Abe") = business
  /\ (0.7 < Agentic.cls_confidence (Agentic.classify "Lincoln, Abe"))%Q
  /\ (Agentic.cls_confidence (Agentic.classify "Lincoln, Abe") <= 0.95)%Q.
Proof.
  refine (proj1 (business_indicator_dominates "Lincoln, Abe" "INC" _ eq_refl)).
  simpl. tauto.
Defined.

(** X2. Every name, the empty one included, gets a confidence between 0.6
    and 0.95 from both classifiers, and neither answers individual for a
    name in which it finds a business indicator: the agentic classifier then
    also requires exactly two tokens, the production one a comma or exactly
    two tokens. *)
Theorem classification_range (name : string) :
  ((0.6 <= Agentic.cls_confidence (Agentic.classify name) <= 0.95)%Q
   /\ (Agentic.cls_type (Agentic.classify name) = individual ->
       count_in Agentic.business_indicators (upper name) = O
       /\ List.length (split name) = 2%nat))
  /\ ((0.6 <= Production.cls_confidence (Production.classify_entity name) <= 0.95)%Q
      /\ (Production.cls_type (Production.classify_entity name) = individual ->
          count_in Production.BUSINESS_INDICATORS (upper name) = O
          /\ (str_in "," name = true \/ List.length (split name) = 2%nat))).
Proof.
  split.
  - unfold Agentic.classify.
    destruct (0 <? count_in Agentic.business_indicators (upper name))%nat eqn:E.
    + apply Nat.ltb_lt in E. simpl. split; [|discriminate].
      destruct (business_confidence_range _ E). split; lra.
    + apply Nat.ltb_ge in E.
      assert (E0 : count_in Agentic.business_indicators (upper name) = O) by lia.
      rewrite E0. simpl.
      destruct (List.length (split name) =? 2)%nat eqn:E2.
      * apply Nat.eqb_eq in E2.
        destruct (str_in "," name); simpl; (split; [split; lra | now split]).
      * rewrite andb_false_r. simpl. split; [split; lra | discriminate].
  - unfold Production.classify_entity.
    destruct (0 <? count_in Production.BUSINESS_INDICATORS (upper name))%nat eqn:E.
    + apply Nat.ltb_lt in E. simpl. split; [|discriminate].
      destruct (business_confidence_range _ E). split; lra.
    + apply Nat.ltb_ge in E.
      assert (E0 : count_in Production.BUSINESS_INDICATORS (upper name) = O) by lia.
      rewrite E0. simpl.
      destruct (str_in "," name) eqn:Ec; simpl.
      * split; [split; lra | intros _; split; [reflexivity | now left]].
      * destruct (List.length (split name) =? 2)%nat eqn:E2; simpl.
        -- apply Nat.eqb_eq in E2.
           split; [split; lra | intros _; split; [reflexivity | now right]].
        -- split; [split; lra | discriminate].
Qed.

End ClassifierRange.

(** *** The executors *)

Section ExecutorInvariants.
Import Py.

Lemma run_sources_success (call : string -> result Agentic.SourceData)
      (priority : string) (default : Q) (sources : list string)
      (st st' : Agentic.EnrichmentState) (called : list string) :
  Agentic.run_sources call priority default sources st = (called, inl st') ->
  called = sources
  /\ exists new,
       Agentic.enrichment_results st' = Agentic.enrichment_results st ++ new
       /\ map Agentic.r_source new = answered call sources
       /\ Agentic.data_sources_attempted st'
          = Agentic.data_sources_attempted st ++ answered call sources
       /\ List.length (Agentic.confidence_scores st')
          = (List.length (Agentic.confidence_scores st) + List.length new)%nat
       /\ Agentic.enrichment_strategy st' = Agentic.enrichment_strategy st
       /\ Agentic.record st' = Agentic.record st.
Proof.
  revert st called. induction sources as [|s sources IH]; intros st called; simpl.
  - intros [= <- <-]. split; [reflexivity|]. exists [].
    rewrite !app_nil_r. simpl. repeat split; lia.
  - destruct (call s) as [res|e] eqn:Hc; [|discriminate].
    match goal with
    | |- context [Agentic.run_sources call priority default sources ?s1] =>
        specialize (IH s1);
        destruct (Agentic.run_sources call priority default sources s1)
          as [called1 out1] eqn:Hrun
    end.
    intros [= <- ->].
    destruct (IH called1 eq_refl) as (-> & new & Hr & Hs & Ha & Hl & Hst & Hrec).
    split; [reflexivity|].
    destruct (Agentic.truthy_data res) eqn:Ht.
    + exists (Agentic.mkResult (Agentic.sd_fields res) (Agentic.sd_confidence res)
                               s priority :: new).
      simpl in *. rewrite Hr, Ha, Hl, Hst, Hrec, Hs, <- !app_assoc, !length_app.
      simpl. repeat split; lia.
    + exists new. now repeat split.
Qed.

Lemma run_sources_total (call : string -> result Agentic.SourceData)
      (priority : string) (default : Q) (sources : list string)
      (st : Agentic.EnrichmentState) :
  (forall s, exists d, call s = inl d) ->
  exists st', Agentic.run_sources call priority default sources st
              = (sources, inl st').
Proof.
  intros Hok. revert st. induction sources as [|s sources IH]; intros st; simpl.
  - now exists st.
  - destruct (Hok s) as [d ->].
    match goal with
    | |- context [Agentic.run_sources call priority default sources ?s1] =>
        destruct (IH s1) as [st' ->]
    end.
    now exists st'.
Qed.

(** X3. With source operations that do not raise, the business executor
    calls every primary source, in order, and then every fallback source
    exactly when the mean of the confidence scores gathered so far (0 when
    there is none) is below the threshold of the strategy; it ends without
    error. *)
Theorem business_two_phase
        (call_business : string -> FranchiseeRecord -> EntityType
                         -> result Agentic.SourceData)
        (st : Agentic.EnrichmentState) (strategy : Agentic.Strategy)
        (Hcalls : forall s r t, exists d, call_business s r t = inl d)
        (Hstrategy : Agentic.enrichment_strategy st = Some strategy) :
  exists st1 st',
    Agentic.run_sources
      (fun source => call_business source (Agentic.record st) business)
      "primary" 0.7 (Agentic.primary_sources strategy) st
    = (Agentic.primary_sources strategy, inl st1)
    /\ Agentic._execute_business_enrichment call_business st
       = (Agentic.primary_sources strategy
            ++ (if Agentic.Qltb (Agentic.average (Agentic.confidence_scores st1))
                                (Agentic.confidence_threshold strategy)
                then Agentic.fallback_sources strategy else []),
          inl st').
Proof.
  unfold Agentic._execute_business_enrichment. rewrite Hstrategy.
  set (call := fun source => call_business source (Agentic.record st) business).
  assert (Hok : forall s, exists d, call s = inl d) by (intros s; apply Hcalls).
  destruct (run_sources_total call "primary" 0.7
              (Agentic.primary_sources strategy) st Hok) as [st1 H1].
  rewrite H1. exists st1.
  destruct (Agentic.Qltb _ _).
  - destruct (run_sources_total call "fallback" 0.6
                (Agentic.fallback_sources strategy) st1 Hok) as [st2 H2].
    rewrite H2. exists st2. now split.
  - exists st1. rewrite app_nil_r. now split.
Qed.

Lemma business_two_phase_witness :
  exists st',
    Agentic._execute_business_enrichment Examples.simulated_business
      (Examples.planned_state Examples.golden_chick)
    = (["business_registry"; "google_places"], inl st').
Proof.
  destruct (business_two_phase Examples.simulated_business
              (Examples.planned_state Examples.golden_chick)
              (Agentic.plan (Agentic.classify "Golden Chick Enterprises LLC")
                            Examples.golden_chick)
              (fun s r t => ex_intro _ _ eq_refl) eq_refl)
    as (st1 & st' & H1 & H2).
  exists st'. rewrite H2.
  vm_compute in H1. injection H1 as <-. reflexivity.
Defined.

Lemma answered_app (call : string -> result Agentic.SourceData)
      (l l' : list string) :
  answered call (l ++ l') = answered call l ++ answered call l'.
Proof. apply filter_app. Qed.

Lemma run_sources_appended (call : string -> result Agentic.SourceData)
      (priority : string) (default : Q) (sources called : list string)
      (s0 s1 : Agentic.EnrichmentState) :
  parallel_lists s0 ->
  Agentic.run_sources call priority default sources s0 = (called, inl s1) ->
  parallel_lists s1 /\ appended call called s0 s1.
Proof.
  intros [Hp1 Hp2] H.
  destruct (run_sources_success _ _ _ _ _ _ _ H)
    as (-> & new & Hr & Hs & Ha & Hl & _ & _).
  split.
  - split.
    + now rewrite Hr, Ha, map_app, Hp1, Hs.
    + rewrite Hl, Hr, length_app. lia.
  - exists new. now repeat split.
Qed.

(** X4. The executors only append: a run that ends without error leaves
    the earlier results in place, adds one result for each called source
    that returned a non-empty map, in call order, and keeps
    [enrichment_results], [data_sources_attempted] and [confidence_scores]
    parallel when they were so before. *)
Theorem executors_append_in_parallel
        (call_business : string -> FranchiseeRecord -> EntityType
                         -> result Agentic.SourceData)
        (call_individual : string -> FranchiseeRecord -> string -> string
                           -> result Agentic.SourceData)
        (st : Agentic.EnrichmentState)
        (Hpar : parallel_lists st) :
  (forall called st',
     Agentic._execute_business_enrichment call_business st = (called, inl st') ->
     parallel_lists st'
     /\ appended (business_call call_business st) called st st')
  /\ (forall called st',
        Agentic._execute_individual_enrichment call_individual st
        = (called, inl st') ->
        parallel_lists st'
        /\ appended (individual_call call_individual st) called st st').
Proof.
  split; intros called st' Hrun.
  - unfold Agentic._execute_business_enrichment in Hrun.
    destruct (Agentic.enrichment_strategy st) as [strategy|]; [|discriminate].
    fold (business_call call_business st) in Hrun.
    destruct (Agentic.run_sources _ "primary" _ _ st) as [called1 [st1|e]] eqn:H1;
      [|discriminate].
    destruct (run_sources_appended _ _ _ _ _ _ _ Hpar H1)
      as (Hpar1 & new1 & Hr1 & Hs1 & Ha1).
    destruct (Agentic.Qltb _ _).
    + destruct (Agentic.run_sources _ "fallback" _ _ st1) as [called2 out] eqn:H2.
      injection Hrun as <- ->.
      destruct (run_sources_appended _ _ _ _ _ _ _ Hpar1 H2)
        as (Hpar2 & new2 & Hr2 & Hs2 & Ha2).
      split; [exact Hpar2|]. exists (new1 ++ new2).
      rewrite Hr2, Hr1, Ha2, Ha1, map_app, Hs1, Hs2, answered_app, <- !app_assoc.
      now repeat split.
    + injection Hrun as <- <-. split; [exact Hpar1|].
      exists new1. now repeat split.
  - unfold Agentic._execute_individual_enrichment in Hrun.
    destruct (Agentic.enrichment_strategy st) as [strategy|]; [|discriminate].
    unfold individual_call.
    destruct (Agentic.parse_name _) as [fn ln].
    exact (run_sources_appended _ _ _ _ _ _ _ Hpar Hrun).
Qed.

Lemma executors_append_in_parallel_witness :
  exists st',
    Agentic._execute_business_enrichment Examples.weak_business
      (Examples.planned_state Examples.golden_chick)
    = (["business_registry"; "google_places"; "corporate_database"; "linkedin_company"],
       inl st')
    /\ parallel_lists st'
    /\ appended (business_call Examples.weak_business
                   (Examples.planned_state Examples.golden_chick))
                ["business_registry"; "google_places"; "corporate_database";
                 "linkedin_company"]
                (Examples.planned_state Examples.golden_chick) st'.
Proof.
  eexists. split; [reflexivity|].
  refine (proj1 (executors_append_in_parallel
                   Examples.weak_business Examples.weak_individual
                   (Examples.planned_state Examples.golden_chick)
                   (conj eq_refl eq_refl)) _ _ eq_refl).
Defined.

End ExecutorInvariants.

(** *** Source labels and conflicts *)

Section ConflictFacts.
Import Py.

Lemma snd_aggregate_result acc (r : Agentic.Result) :
  snd (Agentic.aggregate_result acc r)
  = fold_left (src_step (Agentic.r_source r)) (Agentic.r_fields r) (snd acc).
Proof.
  unfold Agentic.aggregate_result. generalize (Agentic.r_fields r) as fields.
  intros fields. revert acc.
  induction fields as [|fv fields IH]; intros acc; simpl; [reflexivity|].
  rewrite IH. unfold src_step. now destruct (Agentic.contributes fv).
Qed.

Lemma field_sources_fold (results : list Agentic.Result) :
  Agentic.field_sources results
  = fold_left (fun a r => fold_left (src_step (Agentic.r_source r))
                                    (Agentic.r_fields r) a) results [].
Proof.
  unfold Agentic.field_sources, Agentic.aggregate.
  change (@nil (string * list string)) with
    (snd (@nil (string * list string), @nil (string * list string))) at 3.
  generalize (@nil (string * list string), @nil (string * list string)) as acc.
  induction results as [|r results IH]; intros acc; simpl; [reflexivity|].
  now rewrite IH, snd_aggregate_result.
Qed.

Lemma get_fold_src_step (k source : string) (fields : dict string)
      (a : dict (list string)) :
  get k (fold_left (src_step source) fields a)
  = match get k a, map (fun _ : string => source) (field_contributions k fields) with
    | None, [] => None
    | o, cs => Some (match o with Some l => l | None => [] end ++ cs)
    end.
Proof.
  revert a. unfold field_contributions.
  induction fields as [|[f v] fields IH]; intros a; simpl.
  - destruct (get k a); [now rewrite app_nil_r | reflexivity].
  - rewrite IH. unfold src_step at 1.
    destruct (Agentic.contributes (f, v)) eqn:Ec; simpl; [|reflexivity].
    rewrite get_setdefault_append. destruct (String.eqb f k) eqn:Ek; simpl.
    + rewrite <- app_assoc. simpl. destruct (get k a); reflexivity.
    + reflexivity.
Qed.

Lemma get_field_sources_from (k : string) (results : list Agentic.Result)
      (a : dict (list string)) :
  get k (fold_left (fun a r => fold_left (src_step (Agentic.r_source r))
                                         (Agentic.r_fields r) a) results a)
  = match get k a, source_contributions k results with
    | None, [] => None
    | o, cs => Some (match o with Some l => l | None => [] end ++ cs)
    end.
Proof.
  revert a. unfold source_contributions.
  induction results as [|r results IH]; intros a; simpl.
  - destruct (get k a); [now rewrite app_nil_r | reflexivity].
  - rewrite IH, get_fold_src_step.
    destruct (get k a) as [l|]; simpl.
    + now rewrite app_assoc.
    + destruct (map _ (field_contributions k (Agentic.r_fields r))); reflexivity.
Qed.

Lemma length_source_contributions (f : string) (results : list Agentic.Result) :
  List.length (source_contributions f results)
  = List.length (contributions f results).
Proof.
  unfold source_contributions, contributions.
  induction results as [|r results IH]; simpl; [reflexivity|].
  now rewrite !length_app, length_map, IH.
Qed.

(** X5. [field_sources] runs in parallel with [aggregated_data]: a field
    has an entry in one exactly when it has one in the other, and its list
    of source labels has one label per contributed value, in the same
    order. *)
Theorem field_sources_parallel (results : list Agentic.Result) (f : string) :
  get f (Agentic.field_sources results)
  = match source_contributions f results with
    | [] => None
    | labels => Some labels
    end
  /\ List.length (source_contributions f results)
     = List.length (contributions f results)
  /\ option_map (@List.length string) (get f (Agentic.field_sources results))
     = option_map (@List.length string) (get f (Agentic.aggregated_data results)).
Proof.
  assert (H : get f (Agentic.field_sources results)
              = match source_contributions f results with
                | [] => None
                | labels => Some labels
                end).
  { rewrite field_sources_fold, get_field_sources_from. simpl.
    now destruct (source_contributions f results). }
  split; [exact H|]. split; [apply length_source_contributions|].
  rewrite H, get_aggregated_data.
  pose proof (length_source_contributions f results) as Hl.
  destruct (source_contributions f results), (contributions f results);
    simpl in *; try discriminate; [reflexivity | now rewrite Hl].
Qed.

Lemma get_find_conflicts (set_order : list string -> list string)
      (agg fs : dict (list string)) (f : string) (c : dict Agentic.Conflict) :
  NoDup (keys agg) ->
  get f (fold_left
           (fun conflicts kv =>
              let unique_values := set_order (snd kv) in
              if (1 <? List.length unique_values)%nat
              then set (fst kv)
                       (Agentic.mkConflict unique_values
                          (match get (fst kv) fs with Some l => l | None => [] end))
                       conflicts
              else conflicts) agg c)
  = match get f agg with
    | Some vs =>
        if (1 <? List.length (set_order vs))%nat
        then Some (Agentic.mkConflict (set_order vs)
                     (match get f fs with Some l => l | None => [] end))
        else get f c
    | None => get f c
    end.
Proof.
  revert c. induction agg as [|[k vs] agg IH]; intros c Hnd; [reflexivity|].
  inversion Hnd as [|? ? Hn Hnd']; subst.
  cbn [fold_left]. rewrite (IH _ Hnd'). cbn [get fst snd].
  destruct (String.eqb k f) eqn:E.
  - apply String.eqb_eq in E. subst k.
    apply get_None_not_In in Hn. rewrite Hn. cbv zeta.
    destruct (1 <? List.length (set_order vs))%nat; [|reflexivity].
    now rewrite get_set, String.eqb_refl.
  - cbv zeta.
    destruct (1 <? List.length (set_order vs))%nat; [|reflexivity].
    now rewrite get_set, E.
Qed.

Lemma validated_conflicts
        (set_order : list string -> list string)
        (st st1 : Agentic.EnrichmentState)
        (Hset : forall l, Permutation (set_order l) (Agentic.distinct l))
        (Hrun : Agentic._validate_and_score_results set_order st = inl st1) :
  exists conflicts,
    Agentic.conflicts st1 = Some conflicts
    /\ (forall f,
          get f conflicts
          = if (2 <=? List.length
                        (Agentic.distinct
                           (contributions f (Agentic.enrichment_results st))))%nat
            then Some (Agentic.mkConflict
                         (set_order (contributions f (Agentic.enrichment_results st)))
                         (source_contributions f (Agentic.enrichment_results st)))
            else None)
    /\ (Agentic._check_conflicts st1 = true
        <-> exists f,
              (2 <= List.length
                      (Agentic.distinct
                         (contributions f (Agentic.enrichment_results st))))%nat).
Proof.
  unfold Agentic._validate_and_score_results in Hrun.
  destruct (Agentic.stability (Agentic.confidence_scores st)) as [cs|e];
    simpl in Hrun; [|discriminate].
  injection Hrun as <-. simpl. eexists. split; [reflexivity|].
  set (rs := Agentic.enrichment_results st).
  assert (Hget : forall f,
            get f (Agentic.find_conflicts set_order (Agentic.aggregated_data rs)
                                          (Agentic.field_sources rs))
            = if (2 <=? List.length (Agentic.distinct (contributions f rs)))%nat
              then Some (Agentic.mkConflict (set_order (contributions f rs))
                                            (source_contributions f rs))
              else None).
  { intros f. unfold Agentic.find_conflicts.
    rewrite get_find_conflicts by apply NoDup_keys_aggregated.
    rewrite get_aggregated_data.
    destruct (field_sources_parallel rs f) as (Hfs & Hlen & _).
    rewrite Hfs.
    destruct (contributions f rs) as [|v vs] eqn:Ec; [reflexivity|].
    rewrite (Permutation_length (Hset (v :: vs))).
    destruct (source_contributions f rs) as [|l ls];
      [simpl in Hlen; discriminate|].
    destruct (List.length (Agentic.distinct (v :: vs))) as [|[|n]]; reflexivity. }
  split; [exact Hget|].
  unfold Agentic._check_conflicts. simpl.
  destruct (Agentic.find_conflicts set_order (Agentic.aggregated_data rs)
                                   (Agentic.field_sources rs))
    as [|[k c] cs'] eqn:Ef.
  - split; [discriminate|]. intros [f Hf]. specialize (Hget f).
    apply Nat.leb_le in Hf. rewrite Hf in Hget.
    try rewrite Ef in Hget. discriminate.
  - split; [|reflexivity]. intros _. exists k. specialize (Hget k).
    try rewrite Ef in Hget. cbn [get] in Hget. rewrite String.eqb_refl in Hget.
    destruct (2 <=? _)%nat eqn:E2; [now apply Nat.leb_le | discriminate].
Qed.

(** X6. After validation a field is in the conflict map exactly when it
    received at least two distinct values; the conflict then holds these
    distinct values, in set order, and the label of every contribution to
    the field, in arrival order. The resolve node is entered exactly when
    some field is in that case. *)
Theorem conflicts_are_fields_with_two_values
        (set_order : list string -> list string)
        (st st1 : Agentic.EnrichmentState)
        (Hset : forall l, Permutation (set_order l) (Agentic.distinct l))
        (Hrun : Agentic._validate_and_score_results set_order st = inl st1) :
  exists conflicts,
    Agentic.conflicts st1 = Some conflicts
    /\ (forall f,
          get f conflicts
          = if (2 <=? List.length
                        (Agentic.distinct
                           (contributions f (Agentic.enrichment_results st))))%nat
            then Some (Agentic.mkConflict
                         (set_order (contributions f (Agentic.enrichment_results st)))
                         (source_contributions f (Agentic.enrichment_results st)))
            else None)
    /\ (Agentic._check_conflicts st1 = true
        <-> exists f,
              (2 <= List.length
                      (Agentic.distinct
                         (contributions f (Agentic.enrichment_results st))))%nat).
Proof.
  exact (validated_conflicts set_order st st1 Hset Hrun).
Qed.

Lemma conflicts_are_fields_with_two_values_witness :
  exists conflicts,
    Agentic.conflicts Examples.scored_state = Some conflicts
    /\ get "corporate_name" conflicts = None.
Proof.
  destruct (conflicts_are_fields_with_two_values Examples.first_seen_order
              (match snd (Agentic._execute_business_enrichment
                            Examples.simulated_business
                            (Examples.planned_state Examples.golden_chick)) with
               | inl st => st
               | inr _ => Examples.planned_state Examples.golden_chick
               end)
              Examples.scored_state
              (fun l => Permutation_refl _) eq_refl)
    as (conflicts & Hc & Hget & _).
  exists conflicts. split; [exact Hc|]. rewrite Hget. reflexivity.
Defined.

End ConflictFacts.

(** *** Quality metrics *)

Section MetricFacts.
Import Py.

Lemma Qlist_min_le (x : Q) (l : list Q) : (Agentic.Qlist_min x l <= x)%Q.
Proof.
  revert x. induction l as [|y l IH]; intros x; simpl; [apply Qle_refl|].
  eapply Qle_trans; [apply IH | apply Q.le_min_l].
Qed.

Lemma Qlist_max_ge (x : Q) (l : list Q) : (x <= Agentic.Qlist_max x l)%Q.
Proof.
  revert x. induction l as [|y l IH]; intros x; simpl; [apply Qle_refl|].
  eapply Qle_trans; [apply Q.le_max_l | apply IH].
Qed.

Lemma Qlist_min_pos (x : Q) (l : list Q) :
  (0 < x)%Q -> (forall y, In y l -> (0 < y)%Q) -> (0 < Agentic.Qlist_min x l)%Q.
Proof.
  revert x. induction l as [|y l IH]; intros x Hx Hl; simpl; [exact Hx|].
  apply IH.
  - apply Q.min_glb_lt; [exact Hx | apply Hl; now left].
  - intros z Hz. apply Hl. now right.
Qed.

Lemma Qlist_max_zero (x : Q) (l : list Q) :
  (x == 0)%Q -> (forall y, In y l -> (y == 0)%Q) -> (Agentic.Qlist_max x l == 0)%Q.
Proof.
  revert x. induction l as [|y l IH]; intros x Hx Hl; simpl; [exact Hx|].
  apply IH.
  - assert (Hy : (y == 0)%Q) by (apply Hl; now left).
    apply Qle_antisym.
    + apply Q.max_lub; lra.
    + eapply Qle_trans; [|apply Q.le_max_l]. lra.
  - intros z Hz. apply Hl. now right.
Qed.

(** X7. Validation fails in one way only. Without confidence scores the
    stability metric is 0; when every score is positive it is the ratio
    min/max, above 0 and at most 1; when every score is 0 the division
    raises ZeroDivisionError and the node does not return. *)
Theorem validation_stability_edge (set_order : list string -> list string)
        (st : Agentic.EnrichmentState) :
  match Agentic.confidence_scores st with
  | [] =>
      exists st1 q,
        Agentic._validate_and_score_results set_order st = inl st1
        /\ Agentic.quality_metrics st1 = Some q
        /\ Agentic.confidence_stability q = 0%Q
  | x :: l =>
      ((forall c, In c (x :: l) -> (0 < c)%Q) ->
       exists st1 q,
         Agentic._validate_and_score_results set_order st = inl st1
         /\ Agentic.quality_metrics st1 = Some q
         /\ (0 < Agentic.confidence_stability q <= 1)%Q)
      /\ ((forall c, In c (x :: l) -> (c == 0)%Q) ->
          Agentic._validate_and_score_results set_order st = inr ZeroDivisionError)
  end.
Proof.
  unfold Agentic._validate_and_score_results.
  destruct (Agentic.confidence_scores st) as [|x l].
  - simpl. eexists. eexists. repeat split.
  - split.
    + intros Hpos.
      assert (Hx : (0 < x)%Q) by (apply Hpos; now left).
      assert (Hl : forall y, In y l -> (0 < y)%Q) by (intros y Hy; apply Hpos; now right).
      pose proof (Qlist_min_pos x l Hx Hl) as Hmin.
      pose proof (Qlist_min_le x l) as Hle.
      pose proof (Qlist_max_ge x l) as Hge.
      unfold Agentic.stability.
      destruct (Qeq_bool (Agentic.Qlist_max x l) 0) eqn:E.
      * apply Qeq_bool_iff in E. lra.
      * simpl. eexists. eexists. split; [reflexivity|]. split; [reflexivity|].
        simpl. split.
        -- apply Qlt_shift_div_l; lra.
        -- apply Qle_shift_div_r; lra.
    + intros Hzero. unfold Agentic.stability.
      assert (E : Qeq_bool (Agentic.Qlist_max x l) 0 = true).
      { apply Qeq_bool_iff. apply Qlist_max_zero.
        - apply Hzero. now left.
        - intros y Hy. apply Hzero. now right. }
      rewrite E. reflexivity.
Qed.

Lemma length_distinct_le (vs : list string) :
  (List.length (Agentic.distinct vs) <= List.length vs)%nat.
Proof.
  unfold Agentic.distinct. induction vs as [|v vs IH]; simpl; [lia|].
  destruct (in_dec string_dec v vs); simpl; lia.
Qed.

Lemma field_consistency_nonneg (vs : list string) :
  vs <> [] -> (0 <= Agentic.field_consistency vs)%Q.
Proof.
  intros Hne. pose proof (distinct_nonempty vs Hne) as Hge.
  pose proof (length_distinct_le vs) as Hle.
  unfold Agentic.field_consistency.
  set (u := List.length (Agentic.distinct vs)) in *.
  set (t := List.length vs) in *.
  assert (Hb : (0 < inject_Z (Z.max 1 (Z.of_nat t - 1)))%Q)
    by (change 0%Q with (inject_Z 0); rewrite <- Zlt_Qlt; lia).
  assert (Hab : (inject_Z (Z.of_nat u - 1) <= inject_Z (Z.max 1 (Z.of_nat t - 1)))%Q)
    by (rewrite <- Zle_Qle; lia).
  assert (Hq : (inject_Z (Z.of_nat u - 1) / inject_Z (Z.max 1 (Z.of_nat t - 1)) <= 1)%Q)
    by (apply Qle_shift_div_r; lra).
  lra.
Qed.

Lemma Qsum_nonneg (l : list Q) :
  (forall x, In x l -> (0 <= x)%Q) -> (0 <= Qsum l)%Q.
Proof.
  induction l as [|y l IH]; intros H; [apply Qle_refl|].
  rewrite Qsum_cons.
  assert (Hy : (0 <= y)%Q) by (apply H; now left).
  assert (Hl : (0 <= Qsum l)%Q) by (apply IH; intros x Hx; apply H; now right).
  lra.
Qed.

Lemma consistency_score_bounds (results : list Agentic.Result) :
  (0 <= Agentic._calculate_consistency_score (Agentic.aggregated_data results)
     <= 1)%Q.
Proof.
  pose proof (aggregated_nonempty results) as Hne.
  destruct (Agentic.aggregated_data results) as [|kv agg'] eqn:Ea;
    [simpl; split; lra|].
  rewrite score_nonempty.
  set (scores := map (fun kv => Agentic.field_consistency (snd kv)) (kv :: agg')).
  assert (Hle : forall x, In x scores -> (x <= 1)%Q).
  { intros x Hx. apply in_map_iff in Hx. destruct Hx as ([f vs] & <- & Hin).
    apply field_consistency_le_1. now apply (Hne f vs). }
  assert (Hge : forall x, In x scores -> (0 <= x)%Q).
  { intros x Hx. apply in_map_iff in Hx. destruct Hx as ([f vs] & <- & Hin).
    apply field_consistency_nonneg. now apply (Hne f vs). }
  destruct (Qsum_full scores Hle) as [Hsum _].
  pose proof (Qsum_nonneg scores Hge) as Hs0.
  assert (Hpos : (0 < Qlen scores)%Q).
  { unfold scores. cbn [map]. rewrite Qlen_cons.
    pose proof (Qlen_nonneg (map (fun kv => Agentic.field_consistency (snd kv)) agg')).
    lra. }
  split.
  - apply Qle_shift_div_l; lra.
  - apply Qle_shift_div_r; lra.
Qed.

(** X8. The consistency score of the data aggregated from any results lies
    between 0 and 1. *)
Theorem consistency_score_unit (results : list Agentic.Result) :
  (0 <= Agentic._calculate_consistency_score (Agentic.aggregated_data results)
     <= 1)%Q.
Proof.
  exact (consistency_score_bounds results).
Qed.

Lemma agentic_confidence_bounds (name : string) :
  (0.6 <= Agentic.cls_confidence (Agentic.classify name) <= 0.95)%Q.
Proof.
  unfold Agentic.classify.
  destruct (0 <? count_in Agentic.business_indicators (upper name))%nat eqn:E.
  - apply Nat.ltb_lt in E. simpl.
    destruct (business_confidence_range _ E). split; lra.
  - destruct (str_in "," name && (List.length (split name) =? 2)%nat);
      [simpl; split; lra|].
    destruct ((List.length (split name) =? 2)%nat
              && (count_in Agentic.business_indicators (upper name) =? 0)%nat);
      simpl; split; lra.
Qed.

(** X11. When the sources fill at most six distinct fields, the agent
    confidence that the finalizer stores for a record classified by
    [classify] lies between 0 and 1. *)
Theorem agent_confidence_unit_upto_six_fields
        (set_order : list string -> list string)
        (st st1 st2 : Agentic.EnrichmentState) (name : string)
        (Hcls : Agentic.entity_classification st = Some (Agentic.classify name))
        (Hval : Agentic._validate_and_score_results set_order st = inl st1)
        (Hsix : (List.length (Agentic.aggregated_data (Agentic.enrichment_results st))
                 <= 6)%nat)
        (Hfin : Agentic._finalize_enrichment_result st1 = inl st2) :
  exists f,
    Agentic.final_result st2 = Some f
    /\ (0 <= Agentic.fr_agent_confidence f <= 1)%Q.
Proof.
  unfold Agentic._validate_and_score_results in Hval.
  destruct (Agentic.stability (Agentic.confidence_scores st)) as [cs|e];
    simpl in Hval; [|discriminate].
  injection Hval as <-.
  unfold Agentic._finalize_enrichment_result in Hfin. simpl in Hfin.
  rewrite Hcls in Hfin.
  destruct (Agentic.enrichment_strategy st) as [strategy|]; [|discriminate].
  injection Hfin as <-. simpl. eexists. split; [reflexivity|].
  simpl. apply round3_unit. unfold Agentic.agent_confidence_of. simpl.
  pose proof (agentic_confidence_bounds name) as Hc.
  pose proof (consistency_score_bounds (Agentic.enrichment_results st)) as Hk.
  set (agg := Agentic.aggregated_data (Agentic.enrichment_results st)) in *.
  assert (Hf : (0 <= Qlen agg / 6 <= 1)%Q).
  { pose proof (Qlen_nonneg agg) as H0.
    assert (H6 : (Qlen agg <= 6)%Q).
    { unfold Qlen. change 6%Q with (inject_Z 6). rewrite <- Zle_Qle. lia. }
    split; [apply Qle_shift_div_l; lra | apply Qle_shift_div_r; lra]. }
  set (d := List.length (Agentic.distinct (Agentic.data_sources_attempted st))).
  assert (Hd : (0 <= Qmin 1 (inject_Z (Z.of_nat d) / 3) <= 1)%Q).
  { split; [|apply Q.le_min_l]. apply Q.min_glb; [lra|].
    apply Qle_shift_div_l; [lra|].
    assert (H : (0 <= inject_Z (Z.of_nat d))%Q)
      by (change 0%Q with (inject_Z 0); rewrite <- Zle_Qle; lia).
    lra. }
  split; nra.
Qed.

Lemma agent_confidence_unit_upto_six_fields_witness :
  exists st2 f,
    Agentic._finalize_enrichment_result Examples.scored_state = inl st2
    /\ Agentic.final_result st2 = Some f
    /\ (0 <= Agentic.fr_agent_confidence f <= 1)%Q.
Proof.
  eexists.
  destruct (agent_confidence_unit_upto_six_fields Examples.first_seen_order
              (match snd (Agentic._execute_business_enrichment
                            Examples.simulated_business
                            (Examples.planned_state Examples.golden_chick)) with
               | inl st => st
               | inr _ => Examples.planned_state Examples.golden_chick
               end)
              Examples.scored_state _ "Golden Chick Enterprises LLC"
              eq_refl eq_refl ltac:(vm_compute; lia) eq_refl)
    as (f & Hf & Hr).
  exists f. split; [reflexivity|]. split; [exact Hf | exact Hr].
Defined.

End MetricFacts.

(** *** Resolution and the final record *)

Section FinalRecordFacts.
Import Py.

Lemma max_by_len_In (best : string) (l : list string) :
  In (Agentic.max_by_len best l) (best :: l).
Proof.
  revert best. induction l as [|v l IH]; intros best; simpl; [now left|].
  destruct (IH (if (String.length best <? String.length v)%nat then v else best))
    as [H | H].
  - destruct (String.length best <? String.length v)%nat;
      [right; left; exact H | left; exact H].
  - right. right. exact H.
Qed.

Lemma resolve_conflict_In (values sources : list string) (v : string) :
  Agentic.resolve_conflict values sources = inl v -> In v values.
Proof.
  unfold Agentic.resolve_conflict. destruct (mem "business_registry" sources).
  - destruct (index_of "business_registry" sources) as [i|]; [|discriminate].
    destruct (nth_error values i) as [w|] eqn:E; [|discriminate].
    intros [= <-]. eapply nth_error_In. exact E.
  - destruct (existsb Agentic.verified values).
    + destruct (filter Agentic.verified values) as [|w ws] eqn:E; [discriminate|].
      intros [= <-].
      assert (Hin : In w (filter Agentic.verified values)) by (rewrite E; now left).
      now apply filter_In in Hin.
    + destruct values as [|v0 [|v1 vs]]; try discriminate.
      destruct (String.length v1 <? String.length v0)%nat.
      * intros [= <-]. apply (max_by_len_In v0 (v1 :: vs)).
      * intros [= <-]. now left.
Qed.

(** X12. Resolution never invents a value: a winner is one of the
    candidates; and it cannot fail when no contributing source is the
    registry and the field has at least two candidates. *)
Theorem resolve_conflict_picks_candidate (values sources : list string) :
  (forall v, Agentic.resolve_conflict values sources = inl v -> In v values)
  /\ (mem "business_registry" sources = false ->
      (2 <= List.length values)%nat ->
      exists v, Agentic.resolve_conflict values sources = inl v).
Proof.
  unfold Agentic.resolve_conflict. split.
  - intros v. destruct (mem "business_registry" sources).
    + destruct (index_of "business_registry" sources) as [i|]; [|discriminate].
      destruct (nth_error values i) as [w|] eqn:E; [|discriminate].
      intros [= <-]. eapply nth_error_In. exact E.
    + destruct (existsb Agentic.verified values).
      * destruct (filter Agentic.verified values) as [|w ws] eqn:E; [discriminate|].
        intros [= <-].
        assert (Hin : In w (filter Agentic.verified values)) by (rewrite E; now left).
        now apply filter_In in Hin.
      * destruct values as [|v0 [|v1 vs]]; try discriminate.
        destruct (String.length v1 <? String.length v0)%nat.
        -- intros [= <-]. apply (max_by_len_In v0 (v1 :: vs)).
        -- intros [= <-]. now left.
  - intros Hreg Hlen. rewrite Hreg.
    destruct (existsb Agentic.verified values) eqn:Ev.
    + apply existsb_exists in Ev. destruct Ev as (w & Hw & Hv).
      assert (Hin : In w (filter Agentic.verified values))
        by (apply filter_In; now split).
      destruct (filter Agentic.verified values) as [|w' ws]; [destruct Hin|].
      now exists w'.
    + destruct values as [|v0 [|v1 vs]]; simpl in Hlen; try lia.
      destruct (String.length v1 <? String.length v0)%nat; eexists; reflexivity.
Qed.

Lemma get_merge_first (k : string) (fd : dict string) (r : Agentic.Result) :
  get k (Agentic.merge_first fd r)
  = match get k fd with
    | Some v => Some v
    | None => match field_contributions k (Agentic.r_fields r) with
              | v :: _ => Some v
              | [] => None
              end
    end.
Proof.
  unfold Agentic.merge_first, field_contributions.
  generalize (Agentic.r_fields r) as fields. intros fields. revert fd.
  induction fields as [|[f v] fields IH]; intros fd; simpl.
  - now destruct (get k fd).
  - rewrite IH. unfold has.
    destruct (Agentic.contributes (f, v)) eqn:Ec; simpl.
    + destruct (get f fd) as [w|] eqn:Ef; simpl.
      * destruct (String.eqb f k) eqn:Ek; simpl; [|reflexivity].
        apply String.eqb_eq in Ek. subst f. now rewrite Ef.
      * rewrite get_set. destruct (String.eqb f k) eqn:Ek; simpl; [|reflexivity].
        apply String.eqb_eq in Ek. subst f. now rewrite Ef.
    + reflexivity.
Qed.

Lemma get_final_data_from (k : string) (results : list Agentic.Result)
      (fd : dict string) :
  get k (fold_left Agentic.merge_first results fd)
  = match get k fd with
    | Some v => Some v
    | None => match contributions k results with
              | v :: _ => Some v
              | [] => None
              end
    end.
Proof.
  revert fd. unfold contributions.
  induction results as [|r results IH]; intros fd; simpl.
  - now destruct (get k fd).
  - rewrite IH, get_merge_first.
    destruct (get k fd); [reflexivity|].
    destruct (field_contributions k (Agentic.r_fields r)); reflexivity.
Qed.

Lemma get_final_data (k : string) (results : list Agentic.Result) :
  get k (Agentic.final_data_of results)
  = match contributions k results with
    | v :: _ => Some v
    | [] => None
    end.
Proof.
  unfold Agentic.final_data_of. now rewrite get_final_data_from.
Qed.

Lemma NoDup_keys_set {V} (k : string) (v : V) (d : dict V) :
  NoDup (keys d) -> NoDup (keys (set k v d)).
Proof.
  intros Hnd. unfold set, has. destruct (get k d) eqn:E.
  - now rewrite keys_update.
  - unfold keys. rewrite map_app. simpl.
    apply Permutation_NoDup with (l := k :: map fst d).
    + apply Permutation_cons_append.
    + constructor; [now apply get_None_not_In | exact Hnd].
Qed.

Lemma NoDup_keys_final_data (results : list Agentic.Result) :
  NoDup (keys (Agentic.final_data_of results)).
Proof.
  unfold Agentic.final_data_of.
  assert (H0 : NoDup (keys (@nil (string * string)))) by constructor.
  revert H0. generalize (@nil (string * string)) as fd.
  induction results as [|r results IH]; intros fd Hfd; simpl; [exact Hfd|].
  apply IH. unfold Agentic.merge_first.
  generalize (Agentic.r_fields r) as fields. intros fields. revert fd Hfd.
  induction fields as [|fv fields IHf]; intros fd Hfd; simpl; [exact Hfd|].
  apply IHf. destruct (Agentic.contributes fv && negb (has (fst fv) fd));
    [now apply NoDup_keys_set | exact Hfd].
Qed.

Lemma get_dict_merge {V} (k : string) (a b : dict V) :
  NoDup (keys b) ->
  get k (dict_merge a b)
  = match get k b with Some v => Some v | None => get k a end.
Proof.
  unfold dict_merge. revert a.
  induction b as [|[k0 v0] b IH]; intros a Hnd; simpl; [reflexivity|].
  inversion Hnd as [|? ? Hn Hnd']; subst. rewrite (IH _ Hnd'), get_set.
  destruct (String.eqb k0 k) eqn:E.
  - apply String.eqb_eq in E. subst k0.
    apply get_None_not_In in Hn. now rewrite Hn.
  - reflexivity.
Qed.

(** X9. The finalizer keeps, for every field, the first non-empty value
    that a result contributes, and the value of the input record when no
    result contributes one; a contributed value replaces the record's own
    value under the same name. *)
Theorem final_record_first_contribution (st st2 : Agentic.EnrichmentState)
        (Hfin : Agentic._finalize_enrichment_result st = inl st2) :
  exists fr,
    Agentic.final_result st2 = Some fr
    /\ forall f,
         get f (Agentic.fr_fields fr)
         = match contributions f (Agentic.enrichment_results st) with
           | v :: _ => Some v
           | [] => get f (record_items (Agentic.record st))
           end.
Proof.
  unfold Agentic._finalize_enrichment_result in Hfin.
  destruct (Agentic.quality_metrics st) as [q|]; [|discriminate].
  destruct (Agentic.entity_classification st) as [c|]; [|discriminate].
  destruct (Agentic.enrichment_strategy st) as [s|]; [|discriminate].
  injection Hfin as <-. simpl. eexists. split; [reflexivity|].
  intros f. simpl.
  rewrite get_dict_merge by apply NoDup_keys_final_data.
  rewrite get_final_data.
  now destruct (contributions f (Agentic.enrichment_results st)).
Qed.

Lemma final_record_first_contribution_witness :
  exists st2 fr,
    Agentic._finalize_enrichment_result Examples.scored_state = inl st2
    /\ Agentic.final_result st2 = Some fr
    /\ get "corporate_phone" (Agentic.fr_fields fr) = Some "214-555-0100".
Proof.
  eexists.
  destruct (final_record_first_contribution Examples.scored_state _ eq_refl)
    as (fr & Hfr & Hget).
  exists fr. split; [reflexivity|]. split; [exact Hfr|].
  rewrite Hget. reflexivity.
Defined.

End FinalRecordFacts.

Section ResolutionReachesRecord.
Import Py.

Lemma NoDup_keys_find_conflicts (set_order : list string -> list string)
      (agg fs : dict (list string)) :
  NoDup (keys (Agentic.find_conflicts set_order agg fs)).
Proof.
  unfold Agentic.find_conflicts.
  assert (H0 : NoDup (keys (@nil (string * Agentic.Conflict)))) by constructor.
  revert H0. generalize (@nil (string * Agentic.Conflict)) as c.
  induction agg as [|kv agg IH]; intros c Hc; [exact Hc|].
  cbn [fold_left]. apply IH. cbv zeta.
  destruct (1 <? List.length (set_order (snd kv)))%nat;
    [now apply NoDup_keys_set | exact Hc].
Qed.

Lemma resolve_all_get (cs : dict Agentic.Conflict) (acc rd : dict string) :
  NoDup (keys cs) -> NoDup (keys acc) ->
  Agentic.resolve_all cs acc = inl rd ->
  NoDup (keys rd)
  /\ forall f,
       get f rd
       = match get f cs with
         | Some c =>
             match Agentic.resolve_conflict (Agentic.c_values c)
                                            (Agentic.c_sources c) with
             | inl v => Some v
             | inr _ => None
             end
         | None => get f acc
         end.
Proof.
  revert acc. induction cs as [|[k c] cs IH]; intros acc Hnd Hacc; simpl.
  - intros [= <-]. now split.
  - inversion Hnd as [|? ? Hn Hnd']; subst.
    destruct (Agentic.resolve_conflict (Agentic.c_values c) (Agentic.c_sources c))
      as [v|e] eqn:Ev; simpl; [|discriminate].
    intros Hrun.
    destruct (IH (set k v acc) Hnd' (NoDup_keys_set k v acc Hacc) Hrun)
      as [Hrd Hget].
    split; [exact Hrd|]. intros f. rewrite Hget, get_set.
    destruct (String.eqb k f) eqn:E.
    + apply String.eqb_eq in E. subst k.
      apply get_None_not_In in Hn. now rewrite Hn, Ev.
    + reflexivity.
Qed.

Lemma resolve_entry_get (rd : dict string) (k x : string) :
  NoDup (keys rd) ->
  resolve_entry rd (k, x)
  = (k, match get k rd with Some v => v | None => x end).
Proof.
  unfold resolve_entry. revert x.
  induction rd as [|[f v] rd IH]; intros x Hnd; simpl; [reflexivity|].
  inversion Hnd as [|? ? Hn Hnd']; subst.
  rewrite (String.eqb_sym k f). destruct (String.eqb f k) eqn:E.
  - apply String.eqb_eq in E. subst f. simpl. rewrite (IH _ Hnd').
    apply get_None_not_In in Hn. now rewrite Hn.
  - now apply IH.
Qed.

(** The contributions to a field after the resolved values were written
    into the results: the resolved value once per entry of the field, or
    the contributions as they were when the field was not resolved. *)
Lemma field_contributions_resolved (rd fields : dict string) (f : string) :
  NoDup (keys rd) ->
  field_contributions f (Agentic.apply_resolved rd fields)
  = match get f rd with
    | Some v =>
        if Agentic.contributes (f, v)
        then map (fun _ => v) (filter (fun kv => String.eqb (fst kv) f) fields)
        else []
    | None => field_contributions f fields
    end.
Proof.
  intros Hnd. rewrite apply_resolved_map. unfold field_contributions.
  induction fields as [|[k x] fields IH]; simpl.
  - destruct (get f rd) as [v|]; [now destruct (Agentic.contributes (f, v))|reflexivity].
  - rewrite (resolve_entry_get rd k x Hnd). cbn [fst snd].
    destruct (String.eqb k f) eqn:E.
    + apply String.eqb_eq in E. subst k.
      destruct (get f rd) as [v|] eqn:Eg.
      * rewrite andb_true_r. destruct (Agentic.contributes (f, v)) eqn:Ec.
        -- simpl. now rewrite IH.
        -- exact IH.
      * rewrite !andb_true_r.
        destruct (Agentic.contributes (f, x)); simpl; now rewrite IH.
    + rewrite !andb_false_r. exact IH.
Qed.

Lemma field_contributions_have_key (f : string) (fields : dict string) (v : string) :
  In v (field_contributions f fields) ->
  Agentic.contributes (f, v) = true
  /\ filter (fun kv => String.eqb (fst kv) f) fields <> [].
Proof.
  unfold field_contributions. induction fields as [|[k x] fields IH]; simpl; [easy|].
  destruct (String.eqb k f) eqn:E.
  - apply String.eqb_eq in E. subst k. rewrite andb_true_r.
    destruct (Agentic.contributes (f, x)) eqn:Ec; simpl.
    + intros [<- | H]; [split; [exact Ec | discriminate]|].
      split; [now apply IH | discriminate].
    + intros H. split; [now apply IH | discriminate].
  - rewrite andb_false_r. exact IH.
Qed.

Lemma contributions_resolved (rd : dict string) (results : list Agentic.Result)
      (f v w : string) :
  NoDup (keys rd) -> get f rd = Some v ->
  In w (contributions f results) -> truthy v = true ->
  exists rest,
    contributions f (map (Agentic.update_result rd) results) = v :: rest.
Proof.
  intros Hnd Hg Hw Hv. unfold contributions in *.
  induction results as [|r results IH]; simpl in *; [destruct Hw|].
  rewrite (field_contributions_resolved rd _ f Hnd), Hg.
  apply in_app_or in Hw.
  assert (Hc : forall u, In u (field_contributions f (Agentic.r_fields r)) ->
                         Agentic.contributes (f, v) = true).
  { intros u Hu. destruct (field_contributions_have_key _ _ _ Hu) as [Hcu _].
    unfold Agentic.contributes in *. simpl in *.
    apply andb_true_iff in Hcu. destruct Hcu as [-> _]. exact Hv. }
  destruct Hw as [Hw | Hw].
  - rewrite (Hc w Hw).
    destruct (field_contributions_have_key _ _ _ Hw) as [_ Hne].
    destruct (filter _ (Agentic.r_fields r)) as [|kv l]; [congruence|].
    simpl. eexists. reflexivity.
  - destruct (IH Hw) as [rest Hrest]. rewrite Hrest.
    destruct (Agentic.contributes (f, v)).
    + destruct (map _ (filter _ (Agentic.r_fields r))) as [|v' l'] eqn:Em.
      * simpl. now exists rest.
      * assert (Hv' : v' = v).
        { assert (Hin : In v' (map (fun _ : string * string => v)
                                   (filter (fun kv => String.eqb (fst kv) f)
                                           (Agentic.r_fields r))))
            by (rewrite Em; now left).
          apply in_map_iff in Hin. now destruct Hin as (? & <- & _). }
        subst v'. simpl. eexists. reflexivity.
    + simpl. now exists rest.
Qed.

Lemma contributions_unresolved (rd : dict string) (results : list Agentic.Result)
      (f : string) :
  NoDup (keys rd) -> get f rd = None ->
  contributions f (map (Agentic.update_result rd) results)
  = contributions f results.
Proof.
  intros Hnd Hg. unfold contributions.
  induction results as [|r results IH]; simpl; [reflexivity|].
  rewrite IH. f_equal.
  now rewrite (field_contributions_resolved rd _ f Hnd), Hg.
Qed.

Lemma contributions_truthy (f v : string) (results : list Agentic.Result) :
  In v (contributions f results) -> truthy v = true.
Proof.
  unfold contributions. intros H. apply in_flat_map in H.
  destruct H as (r & _ & Hin).
  destruct (field_contributions_have_key _ _ _ Hin) as [Hc _].
  unfold Agentic.contributes in Hc. simpl in Hc.
  now apply andb_true_iff in Hc.
Qed.

Lemma resolve_all_each (cs : dict Agentic.Conflict) (acc rd : dict string)
      (k : string) (c : Agentic.Conflict) :
  Agentic.resolve_all cs acc = inl rd -> In (k, c) cs ->
  exists v, Agentic.resolve_conflict (Agentic.c_values c) (Agentic.c_sources c)
            = inl v.
Proof.
  revert acc. induction cs as [|[k0 c0] cs IH]; intros acc Hrun Hin; [destruct Hin|].
  simpl in Hrun.
  destruct (Agentic.resolve_conflict (Agentic.c_values c0) (Agentic.c_sources c0))
    as [v0|e] eqn:E0; simpl in Hrun; [|discriminate].
  destruct Hin as [[= <- <-] | Hin]; [now exists v0 | now apply (IH _ Hrun)].
Qed.

(** X10. Resolution decides the final record. After validation and a
    resolution that ends without error, the value that the finalizer will
    take for a field is the winner of [resolve_conflict] when the field
    received at least two distinct values, and the first contributed value
    otherwise. *)
Theorem resolution_reaches_final_record
        (set_order : list string -> list string)
        (st st1 st2 : Agentic.EnrichmentState) (f : string)
        (Hset : forall l, Permutation (set_order l) (Agentic.distinct l))
        (Hval : Agentic._validate_and_score_results set_order st = inl st1)
        (Hres : Agentic._resolve_data_conflicts st1 = inl st2) :
  let rs := Agentic.enrichment_results st in
  get f (Agentic.final_data_of (Agentic.enrichment_results st2))
  = if (2 <=? List.length (Agentic.distinct (contributions f rs)))%nat
    then match Agentic.resolve_conflict (set_order (contributions f rs))
                                        (source_contributions f rs) with
         | inl v => Some v
         | inr _ => None
         end
    else match contributions f rs with
         | v :: _ => Some v
         | [] => None
         end.
Proof.
  intros rs.
  destruct (validated_conflicts set_order st st1 Hset Hval)
    as (cs & Hcs & Hget & _).
  assert (Hst1 : Agentic.enrichment_results st1 = rs
                 /\ NoDup (keys cs)).
  { unfold Agentic._validate_and_score_results in Hval.
    destruct (Agentic.stability _); simpl in Hval; [|discriminate].
    injection Hval as <-. simpl in Hcs. injection Hcs as <-.
    split; [reflexivity | apply NoDup_keys_find_conflicts]. }
  destruct Hst1 as [Hrs1 Hndc].
  unfold Agentic._resolve_data_conflicts in Hres. rewrite Hcs in Hres.
  destruct (Agentic.resolve_all cs []) as [rd|e] eqn:Hrd; simpl in Hres;
    [|discriminate].
  injection Hres as <-.
  cbn [Agentic.enrichment_results Agentic.with_results]. rewrite Hrs1.
  destruct (resolve_all_get cs [] rd Hndc (NoDup_nil _) Hrd) as [Hndr Hrdget].
  rewrite get_final_data. specialize (Hrdget f). rewrite (Hget f) in Hrdget.
  fold rs in Hrdget.
  destruct (2 <=? List.length (Agentic.distinct (contributions f rs)))%nat eqn:E2.
  - assert (Hin : In (f, Agentic.mkConflict (set_order (contributions f rs))
                                            (source_contributions f rs)) cs).
    { apply get_In. rewrite (Hget f). fold rs. now rewrite E2. }
    destruct (resolve_all_each cs [] rd _ _ Hrd Hin) as [v Ev].
    try rewrite E2 in Hrdget. cbn [Agentic.c_values Agentic.c_sources] in Ev, Hrdget.
    rewrite Ev in Hrdget |- *.
    assert (Hv : In v (contributions f rs)).
    { pose proof (resolve_conflict_In _ _ _ Ev) as H1.
      pose proof (Permutation_in _ (Hset _) H1) as H2.
      unfold Agentic.distinct in H2. apply nodup_In in H2. exact H2. }
    destruct (contributions_resolved rd rs f v v Hndr Hrdget Hv
                (contributions_truthy f v rs Hv)) as [rest ->].
    reflexivity.
  - try rewrite E2 in Hrdget. simpl in Hrdget.
    now rewrite (contributions_unresolved rd rs f Hndr Hrdget).
Qed.

End ResolutionReachesRecord.

Lemma resolution_reaches_final_record_witness :
  exists st2,
    Agentic._resolve_data_conflicts Examples.scored_state = inl st2
    /\ Py.get "corporate_address"
           (Agentic.final_data_of (Agentic.enrichment_results st2))
       = Some "Registered: 1 Main St, Dallas, TX 75001".
Proof.
  eexists. split; [reflexivity|].
  refine (eq_trans (resolution_reaches_final_record Examples.first_seen_order
             (match snd (Agentic._execute_business_enrichment
                           Examples.simulated_business
                           (Examples.planned_state Examples.golden_chick)) with
              | inl st => st
              | inr _ => Examples.planned_state Examples.golden_chick
              end)
             Examples.scored_state _ "corporate_address"
             (fun l => Permutation_refl _) eq_refl eq_refl) _).
  reflexivity.
Defined.

(** *** Batching and sampling *)

Section BatchingFacts.
Import Py Config.

Lemma batches_nil {A} (fuel size : nat) : Production.batches fuel size (@nil A) = [].
Proof. now destruct fuel. Qed.

Lemma batches_shape {A} (fuel size : nat) (records : list A) :
  (1 <= size)%nat -> (List.length records <= fuel)%nat ->
  Forall (fun b => (1 <= List.length b <= size)%nat)
         (Production.batches fuel size records)
  /\ (List.length records
      <= List.length (Production.batches fuel size records) * size)%nat
  /\ (List.length (Production.batches fuel size records) * size
      < List.length records + size)%nat.
Proof.
  intros Hsize. revert records.
  induction fuel as [|fuel IH]; intros records Hlen.
  - destruct records; [|simpl in Hlen; lia]. simpl. repeat split; [constructor|lia|lia].
  - destruct records as [|r records].
    + simpl. repeat split; [constructor|lia|lia].
    + cbn [Production.batches].
      assert (Hl : (1 <= List.length (r :: records))%nat) by (simpl; lia).
      remember (r :: records) as l eqn:El. clear El.
      assert (Hskip : List.length (skipn size l) = (List.length l - size)%nat)
        by apply length_skipn.
      destruct (IH (skipn size l)) as (Hall & Hlo & Hhi); [lia|].
      assert (Hfirst : List.length (firstn size l) = Nat.min size (List.length l))
        by apply length_firstn.
      split; [constructor; [lia | exact Hall]|].
      cbn [List.length]. rewrite Hskip in *.
      destruct (Nat.le_gt_cases (List.length l) size) as [Hle | Hgt].
      * assert (Hnil : skipn size l = []).
        { apply length_zero_iff_nil. lia. }
        rewrite Hnil, batches_nil. cbn [List.length]. lia.
      * split; lia.
Qed.

(** X13. With a positive batch size the batches cut the records into
    consecutive slices: their concatenation is the input, every batch has
    between 1 and batch_size records, and their number is the least n with
    n * batch_size >= len(records), the total_batches of the log line. *)
Theorem batches_partition {A} (size : nat) (records : list A)
        (Hsize : (1 <= size)%nat) :
  let bs := Production.batches (List.length records) size records in
  concat bs = records
  /\ Forall (fun b => (1 <= List.length b <= size)%nat) bs
  /\ (List.length records <= List.length bs * size)%nat
  /\ (List.length bs * size < List.length records + size)%nat.
Proof.
  cbv zeta. split; [apply concat_batches; lia|].
  apply batches_shape; lia.
Qed.

Lemma batches_partition_witness :
  concat (Production.batches 3 2 [1; 2; 3]%nat) = [1; 2; 3]%nat
  /\ List.length (Production.batches 3 2 [1; 2; 3]%nat) = 2%nat.
Proof.
  split.
  - exact (proj1 (batches_partition 2 [1; 2; 3]%nat (le_S _ _ (le_n 1)))).
  - reflexivity.
Defined.

(** X14. The sample limit keeps a prefix of the records. No limit, a limit
    of 0 and a limit of at least the number of records keep them all; a
    positive limit below that number keeps that many; a negative limit n
    drops the last -n records. *)
Theorem apply_sample_prefix {A} (sample_size : option Z) (records : list A) :
  (exists rest, records = Production.apply_sample sample_size records ++ rest)
  /\ List.length (Production.apply_sample sample_size records)
     = match sample_size with
       | None => List.length records
       | Some n =>
           if (n =? 0)%Z || (Z.of_nat (List.length records) <=? n)%Z
           then List.length records
           else if (0 <? n)%Z then Z.to_nat n
           else Z.to_nat (Z.of_nat (List.length records) + n)
       end.
Proof.
  unfold Production.apply_sample. destruct sample_size as [n|].
  - destruct (n =? 0)%Z eqn:E0; simpl.
    + split; [exists []; now rewrite app_nil_r | reflexivity].
    + destruct (n <? Z.of_nat (List.length records))%Z eqn:E1.
      * apply Z.ltb_lt in E1. apply Z.eqb_neq in E0.
        assert (E2 : (Z.of_nat (List.length records) <=? n)%Z = false)
          by (apply Z.leb_gt; lia).
        rewrite E2. split.
        -- eexists. symmetry. apply firstn_skipn.
        -- rewrite length_firstn.
           destruct (0 <=? n)%Z eqn:E3; destruct (0 <? n)%Z eqn:E4;
             try apply Z.leb_le in E3; try apply Z.leb_gt in E3;
             try apply Z.ltb_lt in E4; try apply Z.ltb_ge in E4; lia.
      * apply Z.ltb_ge in E1.
        assert (E2 : (Z.of_nat (List.length records) <=? n)%Z = true)
          by (apply Z.leb_le; lia).
        rewrite E2. split; [exists []; now rewrite app_nil_r | reflexivity].
  - split; [exists []; now rewrite app_nil_r | reflexivity].
Qed.

(** X15. A batch size that is not positive, which only a change of the
    settings after construction can produce, does not process anything: 0
    raises ZeroDivisionError, and a negative size returns no result and
    leaves the counters as they were, whatever the records are. *)
Theorem process_records_nonpositive_batch
        (enrich : FranchiseeRecord -> result Production.EnrichedFranchiseeRecord)
        (p : Production.Pipeline) (records : list FranchiseeRecord)
        (Hbatch : (batch_size (processing (Production.config p)) <= 0)%Z) :
  Production.process_records enrich p records
  = if (batch_size (processing (Production.config p)) =? 0)%Z
    then inr ZeroDivisionError
    else inl ([], Production.mkPipeline (Production.config p)
                                        (Production.performance_metrics p)).
Proof.
  unfold Production.process_records.
  destruct (batch_size (processing (Production.config p)) =? 0)%Z eqn:E0;
    [reflexivity|].
  apply Z.eqb_neq in E0.
  assert (E1 : (batch_size (processing (Production.config p)) <? 0)%Z = true)
    by (apply Z.ltb_lt; lia).
  rewrite E1. reflexivity.
Qed.

Lemma process_records_nonpositive_batch_witness :
  Production.process_records Examples.plain_enrich
    (Production.mkPipeline Examples.zero_batch_config (Production.mkMetrics 0 0 0))
    [Examples.golden_chick]
  = inr ZeroDivisionError.
Proof.
  refine (process_records_nonpositive_batch Examples.plain_enrich
            (Production.mkPipeline Examples.zero_batch_config
                                   (Production.mkMetrics 0 0 0))
            [Examples.golden_chick] _).
  simpl. lia.
Defined.

End BatchingFacts.

(** *** The task loop *)

Section TaskLoopFacts.
Import Py Config.







(** X17. With max_retries at 0 or below no task is awaited: the loop
    returns no result and logs nothing, even for tasks that would succeed,
    and the enriched record keeps its six enrichment fields empty with 0
    sources used. *)
Theorem no_retries_no_enrichment (cfg : PipelineConfig)
        (source_outcomes : FranchiseeRecord -> EntityType -> list (result (dict string)))
        (source_urls : FranchiseeRecord -> list string)
        (elapsed : FranchiseeRecord -> Q) (timestamp : FranchiseeRecord -> string)
        (r : FranchiseeRecord)
        (Hretries : (max_retries (processing cfg) <= 0)%Z) :
  (forall outcomes,
     Production._execute_enrichment_tasks cfg outcomes = ([], ([], O)))
  /\ let run := Production.enrich_record cfg source_outcomes source_urls
                                         elapsed timestamp r in
     fst run = []
     /\ Production.enrichment_sources_used (snd run) = O
     /\ forall f, In f Production.enrichment_fields ->
                  Production.getattr f (Production.attrs (snd run)) = EmptyString.
Proof.
  assert (Hn : Z.to_nat (max_retries (processing cfg)) = O) by lia.
  assert (Hrun : forall outcomes,
             Production._execute_enrichment_tasks cfg outcomes = ([], ([], O))).
  { intros outcomes. unfold Production._execute_enrichment_tasks. rewrite Hn.
    generalize 0%nat at 2 as idx. generalize (@nil (dict string), O) as acc.
    induction outcomes as [|o outcomes IH]; intros acc idx; [reflexivity|].
    cbn [map Production.run_tasks Production.attempts].
    rewrite (IH acc (S idx)). reflexivity. }
  split; [exact Hrun|].
  cbv zeta. unfold Production.enrich_record. rewrite Hrun.
  cbn [fst snd fold_left Production.enrichment_sources_used Production.attrs].
  split; [reflexivity|]. split; [reflexivity|].
  intros f Hf. simpl in Hf.
  repeat (destruct Hf as [<- | Hf]; [reflexivity|]). destruct Hf.
Qed.

Lemma no_retries_no_enrichment_witness :
  Production._execute_enrichment_tasks
    (mkPipelineConfig (mkProcessingConfig 3 5 2 None 0 1 30)
       default_data_quality default_file_paths "p" "1.0.0" "development")
    [inl [("corporate_name", "Golden Chick Enterprises LLC")]]
  = ([], ([], O)).
Proof.
  refine (proj1 (no_retries_no_enrichment
            (mkPipelineConfig (mkProcessingConfig 3 5 2 None 0 1 30)
               default_data_quality default_file_paths "p" "1.0.0" "development")
            (fun _ _ => []) (fun _ => []) Examples.no_clock Examples.no_timestamp
            Examples.golden_chick _) _).
  simpl. lia.
Defined.

End TaskLoopFacts.

(** *** A run of the compiled graph *)

Section GraphRunFacts.
Import Py.

Lemma update_result_nil (r : Agentic.Result) : Agentic.update_result [] r = r.
Proof. now destruct r. Qed.

Lemma resolve_without_conflicts (st : Agentic.EnrichmentState) :
  Agentic._resolve_data_conflicts (Agentic.declared_keys st)
  = ok (Agentic.declared_keys st).
Proof.
  unfold Agentic._resolve_data_conflicts. cbn [Agentic.conflicts Agentic.declared_keys].
  cbn [Agentic.resolve_all bind ok].
  unfold Agentic.with_results, Agentic.declared_keys.
  cbn [Agentic.enrichment_results Agentic.record Agentic.entity_classification
       Agentic.enrichment_strategy Agentic.data_sources_attempted
       Agentic.confidence_scores Agentic.quality_metrics Agentic.conflicts
       Agentic.final_result Agentic.error_state].
  rewrite (map_ext _ (fun r => r) update_result_nil), map_id. reflexivity.
Qed.

(** X18. In a run of the compiled graph the resolve node is handed a state
    without the conflicts that validation found, and returns it as it is;
    the final state of the workflow and the result of a record therefore do
    not depend on the order in which the value sets are iterated. *)
Theorem graph_run_ignores_set_order
        (call_business : string -> FranchiseeRecord -> EntityType
                         -> result Agentic.SourceData)
        (call_individual : string -> FranchiseeRecord -> string -> string
                           -> result Agentic.SourceData)
        (order order' : list string -> list string)
        (elapsed : FranchiseeRecord -> Q) (timestamp : FranchiseeRecord -> string) :
  (forall st, Agentic._resolve_data_conflicts (Agentic.declared_keys st)
              = ok (Agentic.declared_keys st))
  /\ (forall st0, Agentic.workflow call_business call_individual order st0
                  = Agentic.workflow call_business call_individual order' st0)
  /\ (forall r, Agentic.process_one call_business call_individual order
                                    elapsed timestamp r
                = Agentic.process_one call_business call_individual order'
                                      elapsed timestamp r).
Proof.
  assert (Hw : forall st0,
             Agentic.workflow call_business call_individual order st0
             = Agentic.workflow call_business call_individual order' st0).
  { intros st0. unfold Agentic.workflow. cbv zeta.
    destruct (Agentic._plan_enrichment_strategy _) as [st2|e]; [|reflexivity].
    cbn [bind].
    destruct (Agentic._route_enrichment_strategy st2) as [route|e]; [|reflexivity].
    cbn [bind].
    destruct (snd _) as [st3|e]; [|reflexivity].
    cbn [bind].
    unfold Agentic._validate_and_score_results.
    destruct (Agentic.stability _) as [cs|e]; [|reflexivity].
    cbn [bind ok].
    rewrite !resolve_without_conflicts.
    destruct (Agentic._check_conflicts _), (Agentic._check_conflicts _);
      reflexivity. }
  split; [exact resolve_without_conflicts|]. split; [exact Hw|].
  intros r. unfold Agentic.process_one, Agentic.record_pipeline.
  now rewrite Hw.
Qed.

End GraphRunFacts.

(** *** The settings tree *)

Section SettingsTree.
Import Py Config.

Lemma merge_value_dicts (override_dict base_dict : dict yaml) :
  merge_value (YDict override_dict) (Some (YDict base_dict))
  = YDict (_deep_merge base_dict override_dict).
Proof.
  unfold _deep_merge. cbn [merge_value]. f_equal.
  revert base_dict.
  induction override_dict as [|[key v] rest IH]; intros base_dict;
    [reflexivity|].
  cbn [fold_left fst snd]. apply IH.
Qed.

Lemma get_deep_merge (key : string) (override_dict base_dict : dict yaml) :
  NoDup (keys override_dict) ->
  get key (_deep_merge base_dict override_dict)
  = match get key override_dict with
    | Some value => Some (merge_value value (get key base_dict))
    | None => get key base_dict
    end.
Proof.
  unfold _deep_merge. revert base_dict.
  induction override_dict as [|[k v] rest IH]; intros base_dict Hnd;
    [reflexivity|].
  unfold keys in Hnd. cbn [map fst] in Hnd.
  apply NoDup_cons_iff in Hnd. destruct Hnd as [Hk Hnd].
  cbn [fold_left fst snd get]. rewrite (IH _ Hnd), get_set.
  destruct (String.eqb k key) eqn:E.
  - apply String.eqb_eq in E. subst k.
    now rewrite (proj2 (get_None_not_In key rest) Hk).
  - reflexivity.
Qed.

(** X19. The environment override of the settings is a merge key by key.
    When [environments] is a dict that holds the environment with a dict of
    distinct keys, the loaded tree is the deep merge of the whole tree with
    that dict: a key the override does not have keeps the base value; a key
    it has takes the override's value, except that two dicts are merged in
    the same way. For an environment that dict does not hold, the tree is
    loaded as it is. *)
Theorem environment_override_lookup (config_data : dict yaml)
        (environment key : string) (environments env_config : dict yaml)
        (Henvs : get "environments" config_data = Some (YDict environments))
        (Henv : get environment environments = Some (YDict env_config))
        (Hkeys : NoDup (keys env_config)) :
  apply_environment config_data environment
  = Some (_deep_merge config_data env_config)
  /\ get key (_deep_merge config_data env_config)
     = match get key env_config, get key config_data with
       | None, base => base
       | Some (YDict override_dict), Some (YDict base_dict) =>
           Some (YDict (_deep_merge base_dict override_dict))
       | Some value, _ => Some value
       end
  /\ (forall other, get other environments = None ->
                    apply_environment config_data other = Some config_data).
Proof.
  split; [|split].
  - unfold apply_environment. rewrite Henvs. cbn [environment_in].
    unfold has. now rewrite Henv.
  - rewrite (get_deep_merge _ _ _ Hkeys).
    destruct (get key env_config) as [[text|b|override_dict]|]; try reflexivity.
    destruct (get key config_data) as [[text|b|base_dict]|]; try reflexivity.
    now rewrite merge_value_dicts.
  - intros other Hother. unfold apply_environment. rewrite Henvs.
    cbn [environment_in]. unfold has. now rewrite Hother.
Qed.

Lemma environment_override_lookup_witness :
  get "processing"
      (_deep_merge
         [("processing", YDict [("batch_size", YScalar "5");
                                ("max_retries", YScalar "3")]);
          ("environments",
           YDict [("production",
                   YDict [("processing", YDict [("batch_size", YScalar "10")])])])]
         [("processing", YDict [("batch_size", YScalar "10")])])
  = Some (YDict (_deep_merge [("batch_size", YScalar "5");
                              ("max_retries", YScalar "3")]
                             [("batch_size", YScalar "10")])).
Proof.
  refine (proj1 (proj2 (environment_override_lookup
            [("processing", YDict [("batch_size", YScalar "5");
                                   ("max_retries", YScalar "3")]);
             ("environments",
              YDict [("production",
                      YDict [("processing", YDict [("batch_size", YScalar "10")])])])]
            "production" "processing"
            [("production",
              YDict [("processing", YDict [("batch_size", YScalar "10")])])]
            [("processing", YDict [("batch_size", YScalar "10")])]
            eq_refl eq_refl _))).
  repeat constructor. simpl. tauto.
Defined.

End SettingsTree.
